(** * AI code-review agent: a shallow embedding of the review pipeline

    The development follows the layout of the Python package:

    - [PyStr], [Regex]: the string operations and the regular expressions
      the agents and the tool wrappers apply to source text;
    - [Schemas]: [src/core/schemas.py];
    - [Exceptions]: Python exceptions, a result type for code that raises,
      and state-passing computations with [try]/[except]/[finally];
    - [BaseAgent]: [src/agents/base_agent.py];
    - [StaticAnalysis]: [src/utils/static_analysis.py];
    - [ToolReports]: the tool reports at the types the agents read them;
    - [QualityAgent], [SecurityAgent], [PerformanceAgent],
      [DocumentationAgent]: [src/agents];
    - [Orchestrator]: [src/core/orchestrator.py];
    - [Database], [Reviews]: [src/database/models.py] and
      [src/api/routes/reviews.py];
    - [LLM], [GitHub]: [src/integrations/llm.py] and
      [src/integrations/github.py];
    - [Examples], [Statements], [Stored], [Lines], [Walks], [MoreExamples]:
      concrete inputs and the notions the properties are stated with;
    - the properties, numbered C1 to C10 and X1 to X26.

    Strings are sequences of ASCII characters; execution times are exact
    rationals standing for Python's float seconds.  What the program gets
    from outside (subprocesses, the JSON and Python parsers, the clock, the
    local disk, GitHub) enters as functions of a record, so that every
    statement holds whatever these return. *)

From Stdlib Require Import ZArith QArith Qcanon String Ascii List Bool Lia.
From stdpp Require Import base option list gmap strings pretty.

Set Warnings "-register-all".
Local Open Scope string_scope.
Local Open Scope Z_scope.

(* ================================================================== *)
(** ** Python string operations *)
(* ================================================================== *)

Module PyStr.

Definition newline : ascii := ascii_of_nat 10.
Definition dquote : ascii := ascii_of_nat 34.
Definition squote : ascii := ascii_of_nat 39.

Definition chr_eqb (a b : ascii) : bool := Ascii.eqb a b.

Definition is_upper (c : ascii) : bool :=
  let n := nat_of_ascii c in (65 <=? n)%nat && (n <=? 90)%nat.

Definition is_lower (c : ascii) : bool :=
  let n := nat_of_ascii c in (97 <=? n)%nat && (n <=? 122)%nat.

Definition is_digit (c : ascii) : bool :=
  let n := nat_of_ascii c in (48 <=? n)%nat && (n <=? 57)%nat.

(** [str.isspace] on the ASCII range: tab, newline, vertical tab, form
    feed, carriage return, the four separators 0x1c-0x1f and space. *)
Definition is_space (c : ascii) : bool :=
  let n := nat_of_ascii c in
  ((9 <=? n)%nat && (n <=? 13)%nat) || ((28 <=? n)%nat && (n <=? 32)%nat).

(** [\w] on the ASCII range. *)
Definition is_word (c : ascii) : bool :=
  is_upper c || is_lower c || is_digit c || chr_eqb c "_"%char.

Definition lower_chr (c : ascii) : ascii :=
  if is_upper c then ascii_of_nat (nat_of_ascii c + 32) else c.

Definition upper_chr (c : ascii) : ascii :=
  if is_lower c then ascii_of_nat (nat_of_ascii c - 32) else c.

(** [s.lower()] and [s.upper()]. *)
Fixpoint lower (s : string) : string :=
  match s with
  | EmptyString => EmptyString
  | String c s' => String (lower_chr c) (lower s')
  end.

Fixpoint upper (s : string) : string :=
  match s with
  | EmptyString => EmptyString
  | String c s' => String (upper_chr c) (upper s')
  end.

(** [s.startswith(p)]. *)
Definition startswith (s p : string) : bool := String.prefix p s.

(** [sub in s]. *)
Fixpoint contains (sub s : string) : bool :=
  String.prefix sub s ||
  match s with
  | EmptyString => false
  | String _ s' => contains sub s'
  end.

Definition rev (s : string) : string :=
  string_of_list_ascii (List.rev (list_ascii_of_string s)).

(** [s.endswith(p)]. *)
Definition endswith (s p : string) : bool := String.prefix (rev p) (rev s).

Fixpoint lstrip (s : string) : string :=
  match s with
  | EmptyString => EmptyString
  | String c s' => if is_space c then lstrip s' else s
  end.

Fixpoint rstrip (s : string) : string :=
  match s with
  | EmptyString => EmptyString
  | String c s' =>
      match rstrip s' with
      | EmptyString => if is_space c then EmptyString else String c EmptyString
      | r => String c r
      end
  end.

(** [s.strip()]. *)
Definition strip (s : string) : string := rstrip (lstrip s).

(** Adds a character in front of the first field of a split. *)
Definition cons_head (c : ascii) (fields : list string) : list string :=
  match fields with
  | [] => [String c EmptyString]
  | h :: t => String c h :: t
  end.

(** [s.split(sep)] for a one-character separator: never empty, the empty
    string gives one empty field. *)
Fixpoint split (sep : ascii) (s : string) : list string :=
  match s with
  | EmptyString => [EmptyString]
  | String c s' =>
      if chr_eqb c sep then EmptyString :: split sep s'
      else cons_head c (split sep s')
  end.

(** [s.split(sep, maxsplit)]: at most [maxsplit] cuts, the rest of the
    string stays whole in the last field. *)
Fixpoint splitn (sep : ascii) (s : string) (maxsplit : nat) : list string :=
  match maxsplit with
  | O => [s]
  | S m =>
      match s with
      | EmptyString => [EmptyString]
      | String c s' =>
          if chr_eqb c sep then EmptyString :: splitn sep s' m
          else cons_head c (splitn sep s' maxsplit)
      end
  end.

(** [s.split()] with no argument: the maximal runs of non-space
    characters; no empty field is ever produced. *)
Fixpoint split_ws (s : string) : list string :=
  match s with
  | EmptyString => []
  | String c s' =>
      if is_space c then split_ws s'
      else
        match s' with
        | EmptyString => [String c EmptyString]
        | String c' _ =>
            if is_space c' then String c EmptyString :: split_ws s'
            else cons_head c (split_ws s')
        end
  end.

Definition digit_val (c : ascii) : Z := Z.of_nat (nat_of_ascii c - 48).

(** The digit part of an integer literal as [int()] reads it: decimal
    digits, single underscores allowed between two digits only. *)
Fixpoint parse_digits (s : string) (acc : Z) (after_digit : bool) : option Z :=
  match s with
  | EmptyString => if after_digit then Some acc else None
  | String c s' =>
      if is_digit c then parse_digits s' (10 * acc + digit_val c) true
      else if chr_eqb c "_"%char && after_digit then
        match s' with
        | String c' _ => if is_digit c' then parse_digits s' acc false else None
        | EmptyString => None
        end
      else None
  end.

(** [int(s)]: surrounding white space is dropped, one optional sign, then
    the digits; [None] stands for the [ValueError] Python raises. *)
Definition int (s : string) : option Z :=
  match strip s with
  | String "+" d => parse_digits d 0 false
  | String "-" d => Z.opp <$> parse_digits d 0 false
  | d => parse_digits d 0 false
  end.

(** [str(n)] for an integer. *)
Definition of_Z (z : Z) : string := pretty z.
Definition of_nat (n : nat) : string := pretty n.

(** Truthiness of a string: [if s:]. *)
Definition nonempty (s : string) : bool :=
  match s with EmptyString => false | _ => true end.

(** [enumerate(l, start)]. *)
Fixpoint enumerate {A} (start : nat) (l : list A) : list (nat * A) :=
  match l with
  | [] => []
  | x :: l' => (start, x) :: enumerate (S start) l'
  end.

End PyStr.

(* ================================================================== *)
(** ** Regular expressions, as far as [re.search] is used *)
(* ================================================================== *)

Module Regex.

(** Character sets are predicates, so that [\s], [\w], a negated class
    and a literal read the same way. *)
Inductive regex : Type :=
| Void
| Eps
| Chr (p : ascii -> bool)
| Cat (r1 r2 : regex)
| Alt (r1 r2 : regex)
| Star (r : regex).

Fixpoint nullable (r : regex) : bool :=
  match r with
  | Void => false
  | Eps => true
  | Chr _ => false
  | Cat r1 r2 => nullable r1 && nullable r2
  | Alt r1 r2 => nullable r1 || nullable r2
  | Star _ => true
  end.

(** Brzozowski derivative. *)
Fixpoint deriv (c : ascii) (r : regex) : regex :=
  match r with
  | Void => Void
  | Eps => Void
  | Chr p => if p c then Eps else Void
  | Cat r1 r2 =>
      if nullable r1 then Alt (Cat (deriv c r1) r2) (deriv c r2)
      else Cat (deriv c r1) r2
  | Alt r1 r2 => Alt (deriv c r1) (deriv c r2)
  | Star r1 => Cat (deriv c r1) (Star r1)
  end.

(** Does some prefix of [s] belong to the language of [r]?  This is
    [re.match(r, s) is not None]. *)
Fixpoint match_prefix (r : regex) (s : string) : bool :=
  nullable r ||
  match s with
  | EmptyString => false
  | String c s' => match_prefix (deriv c r) s'
  end.

(** [re.search(r, s) is not None]: a match may start anywhere. *)
Fixpoint search (r : regex) (s : string) : bool :=
  match_prefix r s ||
  match s with
  | EmptyString => false
  | String _ s' => search r s'
  end.

(** The language of a regular expression: the strings it matches whole. *)
Inductive matches : regex -> string -> Prop :=
| matches_eps : matches Eps EmptyString
| matches_chr (p : ascii -> bool) (c : ascii) :
    p c = true -> matches (Chr p) (String c EmptyString)
| matches_cat (r1 r2 : regex) (s1 s2 : string) :
    matches r1 s1 -> matches r2 s2 -> matches (Cat r1 r2) (s1 ++ s2)
| matches_alt_l (r1 r2 : regex) (s : string) :
    matches r1 s -> matches (Alt r1 r2) s
| matches_alt_r (r1 r2 : regex) (s : string) :
    matches r2 s -> matches (Alt r1 r2) s
| matches_star_nil (r : regex) : matches (Star r) EmptyString
| matches_star_app (r : regex) (s1 s2 : string) :
    matches r s1 -> matches (Star r) s2 -> matches (Star r) (s1 ++ s2).

Definition chr (c : ascii) : regex := Chr (PyStr.chr_eqb c).
(** A literal character under [re.IGNORECASE]. *)
Definition chr_i (c : ascii) : regex :=
  Chr (fun x => PyStr.chr_eqb (PyStr.lower_chr x) (PyStr.lower_chr c)).

Fixpoint lit (s : string) : regex :=
  match s with
  | EmptyString => Eps
  | String c s' => Cat (chr c) (lit s')
  end.

Fixpoint lit_i (s : string) : regex :=
  match s with
  | EmptyString => Eps
  | String c s' => Cat (chr_i c) (lit_i s')
  end.

Definition plus (r : regex) : regex := Cat r (Star r).
Definition space : regex := Chr PyStr.is_space.
Definition word : regex := Chr PyStr.is_word.
(** The two-character class of quote marks used in the patterns. *)
Definition quote : regex :=
  Chr (fun x => PyStr.chr_eqb x PyStr.dquote || PyStr.chr_eqb x PyStr.squote).
Definition not_quote : regex :=
  Chr (fun x => negb (PyStr.chr_eqb x PyStr.dquote || PyStr.chr_eqb x PyStr.squote)).

Fixpoint cats (rs : list regex) : regex :=
  match rs with
  | [] => Eps
  | r :: rs' => Cat r (cats rs')
  end.

End Regex.

(* ================================================================== *)
(** ** [src/core/schemas.py] *)
(* ================================================================== *)

(** Values that travel as JSON: tool output and issue metadata. *)
Inductive json : Type :=
| JNull
| JBool (b : bool)
| JInt (z : Z)
| JStr (s : string)
| JList (l : list json)
| JDict (d : list (string * json)).

Module Schemas.

Inductive Severity : Type := CRITICAL | HIGH | MEDIUM | LOW | INFO.

Inductive AgentType : Type := QUALITY | SECURITY | PERFORMANCE | DOCUMENTATION.

(** [list(AgentType)]: the members in declaration order. *)
Definition list_AgentType : list AgentType :=
  [QUALITY; SECURITY; PERFORMANCE; DOCUMENTATION].

Definition Severity_value (s : Severity) : string :=
  match s with
  | CRITICAL => "critical"
  | HIGH => "high"
  | MEDIUM => "medium"
  | LOW => "low"
  | INFO => "info"
  end.

Definition AgentType_value (t : AgentType) : string :=
  match t with
  | QUALITY => "quality"
  | SECURITY => "security"
  | PERFORMANCE => "performance"
  | DOCUMENTATION => "documentation"
  end.

#[global] Instance Severity_eq_dec : EqDecision Severity.
Proof. solve_decision. Defined.

#[global] Instance AgentType_eq_dec : EqDecision AgentType.
Proof. solve_decision. Defined.

Definition AgentType_to_nat (t : AgentType) : nat :=
  match t with
  | QUALITY => 0 | SECURITY => 1 | PERFORMANCE => 2 | DOCUMENTATION => 3
  end%nat.

Definition AgentType_of_nat (n : nat) : option AgentType :=
  match n with
  | 0 => Some QUALITY | 1 => Some SECURITY | 2 => Some PERFORMANCE
  | 3 => Some DOCUMENTATION | _ => None
  end%nat.

#[global] Program Instance AgentType_countable : Countable AgentType :=
  inj_countable AgentType_to_nat AgentType_of_nat _.
Next Obligation. by intros []. Qed.

Record Issue : Type := mkIssue {
  severity : Severity;
  issue_type : string;
  message : string;
  line_number : option Z;
  suggestion : option string;
  metadata : option (gmap string json);
}.

Record AgentResult : Type := mkAgentResult {
  agent_type : AgentType;
  success : bool;
  execution_time : Qc;
  issues : list Issue;
  error_message : option string;
  result_metadata : option (gmap string json);
}.

Record ReviewRequest : Type := mkReviewRequest {
  repository_url : string;
  file_path : option string;
  commit_sha : option string;
  pull_request_id : option Z;
  scan_entire_repo : option bool;
  agent_types : option (list AgentType);
}.

Record ReviewResponse : Type := mkReviewResponse {
  review_id : nat;
  resp_repository_url : string;
  resp_file_path : string;
  status : string;
  results : list AgentResult;
  total_issues : nat;
}.

End Schemas.

(* ================================================================== *)
(** ** Exceptions *)
(* ================================================================== *)

Module Exceptions.

(** The exception classes the handlers of this code base tell apart.
    Every one of them derives from [Exception]. *)
Inductive exc_class : Type :=
| TimeoutExpired
| SyntaxError
| ValueError
| IndexError
| AttributeError
| OSError
| RuntimeError
| HTTPException (status_code : nat).

(** [raise HTTPException(status_code=..., detail=...)]; the exception
    prints as its status code, a colon and the detail. *)
Definition http_error_text (status_code : nat) (detail : string) : string :=
  pretty status_code ++ ": " ++ detail.

#[global] Instance exc_class_eq_dec : EqDecision exc_class.
Proof. solve_decision. Defined.

(** An exception instance: its class and its message; for an
    [HTTPException] the message is the [detail] of the response. *)
Record exn : Type := mkExn { exn_class : exc_class; message_of : string }.

(** [str(e)]. *)
Definition str (e : exn) : string :=
  match exn_class e with
  | HTTPException status_code => http_error_text status_code (message_of e)
  | _ => message_of e
  end.

Definition is_http (e : exn) : bool :=
  match exn_class e with HTTPException _ => true | _ => false end.

Inductive result (A : Type) : Type :=
| Ok (a : A)
| Raise (e : exn).
Arguments Ok {A} a.
Arguments Raise {A} e.

#[global] Instance result_ret : MRet result := fun A a => Ok a.

#[global] Instance result_bind : MBind result := fun A B k m =>
  match m with
  | Ok a => k a
  | Raise e => Raise e
  end.

#[global] Instance result_fmap : FMap result := fun A B f m =>
  match m with
  | Ok a => Ok (f a)
  | Raise e => Raise e
  end.

(** Computations that read and update a state of type [S] and may raise:
    the state reached is kept when an exception leaves the computation. *)
Definition stx (S A : Type) : Type := S -> S * result A.

#[global] Instance stx_ret {S} : MRet (stx S) := fun A a s => (s, Ok a).

#[global] Instance stx_bind {S} : MBind (stx S) := fun A B k m s =>
  match m s with
  | (s', Ok a) => k a s'
  | (s', Raise e) => (s', Raise e)
  end.

#[global] Instance stx_fmap {S} : FMap (stx S) := fun A B f m s =>
  match m s with
  | (s', Ok a) => (s', Ok (f a))
  | (s', Raise e) => (s', Raise e)
  end.

Definition lift {S A} (r : result A) : stx S A := fun s => (s, r).
Definition raise {S A} (e : exn) : stx S A := fun s => (s, Raise e).
Definition get {S} : stx S S := fun s => (s, Ok s).
Definition modify {S} (f : S -> S) : stx S unit := fun s => (f s, Ok tt).

(** [try: body finally: final].  The clean-up runs on every path; when it
    raises, its exception replaces the outcome of the body. *)
Definition try_finally {S A} (body : stx S A) (final : stx S unit) : stx S A :=
  fun s =>
    let '(s1, r) := body s in
    match final s1 with
    | (s2, Ok _) => (s2, r)
    | (s2, Raise e) => (s2, Raise e)
    end.

(** [try: body except ...: handler]: [handler e] is [None] when no
    [except] clause matches [e], which then goes on to the caller. *)
Definition try_except {S A} (body : stx S A) (handler : exn -> option (stx S A))
    : stx S A :=
  fun s =>
    match body s with
    | (s1, Ok a) => (s1, Ok a)
    | (s1, Raise e) =>
        match handler e with
        | Some h => h s1
        | None => (s1, Raise e)
        end
    end.

End Exceptions.

(* ================================================================== *)
(** ** [src/agents/base_agent.py] *)
(* ================================================================== *)

Module BaseAgent.
Import Schemas Exceptions.

(** An agent object: the type fixed by its constructor and its [analyze]
    method, which returns issues or raises. *)
Record Agent : Type := mkAgent {
  self_agent_type : AgentType;
  analyze : string -> string -> result (list Issue);
}.

Definition _get_metadata (self : Agent) : gmap string json :=
  {[ "agent_type" := JStr (AgentType_value (self_agent_type self));
     "version" := JStr "1.0.0" ]}.

(** The local variables of [review] that the [try] statement assigns. *)
Record review_locals : Type := mkLocals {
  local_issues : list Issue;
  local_error_message : option string;
  local_success : bool;
}.

(** [try: issues = await self.analyze(...) except Exception as e: ...]. *)
Definition review_try (self : Agent) (code file_path : string)
    : stx review_locals unit :=
  try_except
    (found ← lift (analyze self code file_path);
     modify (fun l => {| local_issues := found;
                         local_error_message := local_error_message l;
                         local_success := local_success l |}))
    (fun e =>
       Some (modify (fun l => {| local_issues := local_issues l;
                                 local_error_message := Some (str e);
                                 local_success := false |}))).

(** [review]: [start_time] and [end_time] are the two readings of
    [time.time()], taken before the [try] statement and after it. *)
Definition review (self : Agent) (start_time end_time : Qc)
    (code file_path : string) : result AgentResult :=
  let '(locals, outcome) :=
    review_try self code file_path
      {| local_issues := []; local_error_message := None; local_success := true |} in
  _ ← outcome;
  let execution_time := (end_time - start_time)%Qc in
  mret {| agent_type := self_agent_type self;
          success := local_success locals;
          execution_time := execution_time;
          issues := local_issues locals;
          error_message := local_error_message locals;
          result_metadata := Some (_get_metadata self) |}.

Definition _create_issue (severity : Severity) (issue_type message : string)
    (line_number : option Z) (suggestion : option string)
    (metadata : option (gmap string json)) : Issue :=
  {| severity := severity;
     issue_type := issue_type;
     message := message;
     line_number := line_number;
     suggestion := suggestion;
     metadata := Some (default ∅ metadata) |}.

End BaseAgent.

(* ================================================================== *)
(** ** [src/utils/static_analysis.py] *)
(* ================================================================== *)

Module StaticAnalysis.
Import PyStr Exceptions.

(** [subprocess.CompletedProcess], with the two captured streams. *)
Record CompletedProcess : Type := mkCompleted { stdout : string; stderr : string }.

(** What lies outside the wrappers: creating and filling the temporary
    file, running a command with the 30-second timeout, and [json.loads].
    Each returns or raises. *)
Record Env : Type := mkEnv {
  named_temporary_file : result string;
  write : string -> result unit;
  subprocess_run : list string -> result CompletedProcess;
  json_loads : string -> result json;
}.

(** The wrappers act on the set of files that exist. *)
Abbreviation io := (stx (gset string)).

(** [with tempfile.NamedTemporaryFile(mode="w", suffix=".py",
    delete=False) as f: f.write(code); temp_path = f.name].  Once created
    the file stays, also when the write fails. *)
Definition with_temp_file (env : Env) (code : string) : io string := fun fs =>
  match named_temporary_file env with
  | Raise e => (fs, Raise e)
  | Ok path =>
      match write env code with
      | Raise e => ({[path]} ∪ fs, Raise e)
      | Ok _ => ({[path]} ∪ fs, Ok path)
      end
  end.

(** [os.unlink(path)]. *)
Definition os_unlink (path : string) : io unit := fun fs =>
  if decide (path ∈ fs) then (fs ∖ {[path]}, Ok tt)
  else (fs, Raise (mkExn OSError ("[Errno 2] No such file or directory: '" ++ path ++ "'"))).

(** The two [except] clauses every wrapper ends with:
    [except subprocess.TimeoutExpired] and then [except Exception as e].
    The radon wrapper alone leaves the [issues] key out. *)
Definition handlers (issues_key : bool) (e : exn) : option (io (gmap string json)) :=
  if decide (exn_class e = TimeoutExpired) then
    Some (mret (if issues_key
                then {[ "success" := JBool false; "issues" := JList [];
                        "error" := JStr "Timeout" ]}
                else {[ "success" := JBool false; "error" := JStr "Timeout" ]}))
  else
    Some (mret (if issues_key
                then {[ "success" := JBool false; "issues" := JList [];
                        "error" := JStr (str e) ]}
                else {[ "success" := JBool false; "error" := JStr (str e) ]})).

Definition run_pylint (env : Env) (code file_path : string) : io (gmap string json) :=
  try_except
    (temp_path ← with_temp_file env code;
     try_finally
       (result ← lift (subprocess_run env ["pylint"; "--output-format=json"; temp_path]);
        if nonempty (stdout result) then
          issues ← lift (json_loads env (stdout result));
          mret {[ "success" := JBool true; "issues" := issues;
                  "output" := JStr (stderr result) ]}
        else
          mret {[ "success" := JBool true; "issues" := JList [];
                  "output" := JStr (stderr result) ]})
       (os_unlink temp_path))
    (handlers true).

(** [int(s)] inside the flake8 parser. *)
Definition int_or_raise (s : string) : result Z :=
  match PyStr.int s with
  | Some z => Ok z
  | None =>
      Raise (mkExn ValueError ("invalid literal for int() with base 10: '" ++ s ++ "'"))
  end.

(** [parts[3].split()[0] if parts[3] else ""]. *)
Definition first_token (s : string) : result string :=
  if nonempty s then
    match split_ws s with
    | tok :: _ => Ok tok
    | [] => Raise (mkExn IndexError "list index out of range")
    end
  else Ok "".

(** One line of flake8 output, [path:line:col: code message]: the finding
    it yields, [None] when the line is skipped. *)
Definition parse_flake8_line (line : string) : result (option json) :=
  if nonempty line then
    match splitn ":" line 3 with
    | p0 :: p1 :: p2 :: p3 :: _ =>
        ln ← int_or_raise p1;
        col ← int_or_raise p2;
        code ← first_token p3;
        mret (Some (JDict [ ("path", JStr p0); ("line", JInt ln); ("column", JInt col);
                            ("code", JStr code);
                            ("message", JStr (if nonempty p3 then strip p3 else "")) ]))
    | _ => mret None
    end
  else mret None.

(** The loop over the lines, appending to [issues]. *)
Fixpoint parse_flake8_lines (lines : list string) (issues : list json)
    : result (list json) :=
  match lines with
  | [] => mret issues
  | line :: rest =>
      found ← parse_flake8_line line;
      parse_flake8_lines rest
        (match found with Some item => issues ++ [item] | None => issues end)
  end.

Definition parse_flake8_output (out : string) : result (list json) :=
  if nonempty out then parse_flake8_lines (split newline (strip out)) []
  else mret [].

Definition run_flake8 (env : Env) (code file_path : string) : io (gmap string json) :=
  try_except
    (temp_path ← with_temp_file env code;
     try_finally
       (result ← lift (subprocess_run env ["flake8"; "--format=json"; temp_path]);
        issues ← lift (parse_flake8_output (stdout result));
        mret {[ "success" := JBool true; "issues" := JList issues;
                "output" := JStr (stderr result) ]})
       (os_unlink temp_path))
    (handlers true).

(** [data.get(key, dflt)] on the value [json.loads] returned. *)
Definition json_get (data : json) (key : string) (dflt : json) : result json :=
  match data with
  | JDict d =>
      match List.find (fun kv => String.eqb (fst kv) key) d with
      | Some kv => Ok (snd kv)
      | None => Ok dflt
      end
  | _ => Raise (mkExn AttributeError "object has no attribute 'get'")
  end.

Definition run_bandit (env : Env) (code file_path : string) : io (gmap string json) :=
  try_except
    (temp_path ← with_temp_file env code;
     try_finally
       (result ← lift (subprocess_run env ["bandit"; "-f"; "json"; temp_path]);
        if nonempty (stdout result) then
          data ← lift (json_loads env (stdout result));
          found ← lift (json_get data "results" (JList []));
          metrics ← lift (json_get data "metrics" (JDict []));
          mret {[ "success" := JBool true; "issues" := found; "metrics" := metrics ]}
        else
          mret {[ "success" := JBool true; "issues" := JList [];
                  "metrics" := JDict [] ]})
       (os_unlink temp_path))
    (handlers true).

Definition run_radon (env : Env) (code file_path : string) : io (gmap string json) :=
  try_except
    (temp_path ← with_temp_file env code;
     try_finally
       (complexity_result ← lift (subprocess_run env ["radon"; "cc"; "-j"; temp_path]);
        mi_result ← lift (subprocess_run env ["radon"; "mi"; "-j"; temp_path]);
        complexity_data ←
          (if nonempty (stdout complexity_result)
           then lift (json_loads env (stdout complexity_result))
           else mret (JDict []));
        mi_data ←
          (if nonempty (stdout mi_result)
           then lift (json_loads env (stdout mi_result))
           else mret (JDict []));
        mret {[ "success" := JBool true; "complexity" := complexity_data;
                "maintainability" := mi_data ]})
       (os_unlink temp_path))
    (handlers false).

(** The four wrappers under one name, for statements about all of them. *)
Inductive tool : Type := Pylint | Flake8 | Bandit | Radon.

Definition run (t : tool) : Env -> string -> string -> io (gmap string json) :=
  match t with
  | Pylint => run_pylint
  | Flake8 => run_flake8
  | Bandit => run_bandit
  | Radon => run_radon
  end.

(** The command lines a wrapper runs on the temporary file, in order. *)
Definition commands (t : tool) (temp_path : string) : list (list string) :=
  match t with
  | Pylint => [["pylint"; "--output-format=json"; temp_path]]
  | Flake8 => [["flake8"; "--format=json"; temp_path]]
  | Bandit => [["bandit"; "-f"; "json"; temp_path]]
  | Radon => [["radon"; "cc"; "-j"; temp_path]; ["radon"; "mi"; "-j"; temp_path]]
  end.

(** The exception, if any, that ends a sequence of subprocess calls: the
    calls are made in order and the first one that raises stops them. *)
Fixpoint subprocess_failure (env : Env) (cmds : list (list string)) : option exn :=
  match cmds with
  | [] => None
  | argv :: rest =>
      match subprocess_run env argv with
      | Raise e => Some e
      | Ok _ => subprocess_failure env rest
      end
  end.

End StaticAnalysis.

(* ================================================================== *)
(** ** Tool reports as the agents read them *)
(* ================================================================== *)

(** The agents read the dictionaries of the wrappers field by field with
    [.get]; the records below give every field the agents read, at the type
    the tool's JSON contract gives it, absent keys being [None]. *)
Module ToolReports.

Record PylintItem : Type := mkPylintItem {
  pl_type : option string;
  pl_message_id : option string;
  pl_message : option string;
  pl_line : option Z;
  pl_symbol : option string;
}.

Record Flake8Item : Type := mkFlake8Item {
  f8_code : option string;
  f8_message : option string;
  f8_line : option Z;
}.

Record BanditItem : Type := mkBanditItem {
  bd_issue_severity : option string;
  bd_test_id : option string;
  bd_issue_text : option string;
  bd_line_number : option Z;
  bd_issue_confidence : option json;
  bd_issue_cwe : option json;
}.

(** One function or method descriptor of radon's [cc] report. *)
Record RadonFunction : Type := mkRadonFunction {
  rf_name : option string;
  rf_complexity : option Z;
  rf_lineno : option Z;
}.

(** The value radon stores under a file path: the list of descriptors, or
    something that is not a list (an error object). *)
Inductive RadonFileEntry : Type :=
| RadonFunctions (functions : list RadonFunction)
| RadonNotAList (other : json).

(** [results.get("success")] and [results.get("issues", [])]. *)
Record IssuesReport (A : Type) : Type := mkIssuesReport {
  rep_success : bool;
  rep_issues : list A;
}.
Arguments mkIssuesReport {A} _ _.
Arguments rep_success {A} _.
Arguments rep_issues {A} _.

(** [results.get("success")] and [results.get("complexity", {}).items()]. *)
Record RadonReport : Type := mkRadonReport {
  radon_success : bool;
  radon_complexity : list (string * RadonFileEntry);
}.

(** The three wrappers an agent may call, on (code, file_path). *)
Record Tools : Type := mkTools {
  pylint : string -> string -> IssuesReport PylintItem;
  flake8 : string -> string -> IssuesReport Flake8Item;
  bandit : string -> string -> IssuesReport BanditItem;
  radon : string -> string -> RadonReport;
}.

(** The value [func.get("name")] puts in the metadata. *)
Definition json_of_name (name : option string) : json :=
  match name with Some n => JStr n | None => JNull end.

End ToolReports.

(* ================================================================== *)
(** ** [src/agents/quality_agent.py] *)
(* ================================================================== *)

Module QualityAgent.
Import PyStr Schemas Exceptions BaseAgent ToolReports.

Definition _map_pylint_severity (pylint_type : string) : Severity :=
  let t := lower pylint_type in
  if String.eqb t "error" then HIGH
  else if String.eqb t "warning" then MEDIUM
  else if String.eqb t "convention" then LOW
  else if String.eqb t "refactor" then LOW
  else INFO.

Definition _map_flake8_severity (code : string) : Severity :=
  if startswith code "E" then HIGH
  else if startswith code "W" then MEDIUM
  else if startswith code "F" then HIGH
  else LOW.

Definition _generate_suggestion (pylint_item : PylintItem) : string :=
  let message_id := default "" (pl_message_id pylint_item) in
  let message := default "" (pl_message pylint_item) in
  if String.eqb message_id "C0103" then "Use snake_case for variable names"
  else if String.eqb message_id "C0111" then "Add docstring to function/class"
  else if String.eqb message_id "R0903" then "Consider reducing the number of attributes"
  else if String.eqb message_id "R0913" then "Reduce the number of parameters"
  else "Review: " ++ message.

Definition _generate_flake8_suggestion (code : string) : string :=
  if String.eqb code "E501" then "Line too long. Consider breaking it into multiple lines."
  else if String.eqb code "E302" then "Expected 2 blank lines before function/class definition."
  else if String.eqb code "E305" then "Expected 2 blank lines after class/function definition."
  else if String.eqb code "E401" then "Multiple imports on one line. Use separate import statements."
  else if String.eqb code "E402" then "Module level import not at top of file."
  else "Review PEP 8 style guide for this issue.".

Definition pylint_issue (item : PylintItem) : Issue :=
  _create_issue
    (_map_pylint_severity (default "" (pl_type item)))
    (default "pylint" (pl_message_id item))
    (default "" (pl_message item))
    (pl_line item)
    (Some (_generate_suggestion item))
    (Some {[ "tool" := JStr "pylint"; "symbol" := JStr (default "" (pl_symbol item)) ]}).

Definition flake8_issue (item : Flake8Item) : Issue :=
  _create_issue
    (_map_flake8_severity (default "" (f8_code item)))
    (default "flake8" (f8_code item))
    (default "" (f8_message item))
    (f8_line item)
    (Some (_generate_flake8_suggestion (default "" (f8_code item))))
    (Some {[ "tool" := JStr "flake8" ]}).

(** The issue built inside [if complexity > 10]. *)
Definition complexity_issue (func : RadonFunction) (complexity : Z) : Issue :=
  _create_issue MEDIUM "high_complexity"
    ("Function '" ++ default "unknown" (rf_name func) ++ "' has high complexity ("
       ++ of_Z complexity ++ ")")
    (rf_lineno func)
    (Some "Consider refactoring this function into smaller, more manageable pieces.")
    (Some {[ "tool" := JStr "radon"; "complexity" := JInt complexity;
             "function" := json_of_name (rf_name func) ]}).

(** The body of [for func in functions]. *)
Definition radon_function_issues (func : RadonFunction) : list Issue :=
  let complexity := default 0 (rf_complexity func) in
  if 10 <? complexity then [complexity_issue func complexity] else [].

(** The body of [for file_path_key, functions in complexity_data.items()]. *)
Definition radon_file_issues (entry : string * RadonFileEntry) : list Issue :=
  match snd entry with
  | RadonFunctions functions => concat (map radon_function_issues functions)
  | RadonNotAList _ => []
  end.

Definition radon_issues (radon_results : RadonReport) : list Issue :=
  if radon_success radon_results
  then concat (map radon_file_issues (radon_complexity radon_results))
  else [].

Definition analyze (tools : Tools) (code file_path : string) : result (list Issue) :=
  let issues : list Issue := [] in
  let pylint_results := pylint tools code file_path in
  let issues :=
    if rep_success pylint_results
    then (issues ++ map pylint_issue (rep_issues pylint_results))%list else issues in
  let flake8_results := flake8 tools code file_path in
  let issues :=
    if rep_success flake8_results
    then (issues ++ map flake8_issue (rep_issues flake8_results))%list else issues in
  let radon_results := radon tools code file_path in
  let issues := (issues ++ radon_issues radon_results)%list in
  Ok issues.

(** [QualityAgent()]. *)
Definition new (tools : Tools) : Agent :=
  {| self_agent_type := QUALITY; BaseAgent.analyze := analyze tools |}.

End QualityAgent.

(* ================================================================== *)
(** ** [src/agents/security_agent.py] *)
(* ================================================================== *)

Module SecurityAgent.
Import PyStr Schemas Exceptions BaseAgent ToolReports.

Definition _map_bandit_severity (bandit_severity : string) : Severity :=
  let s := upper bandit_severity in
  if String.eqb s "HIGH" then CRITICAL
  else if String.eqb s "MEDIUM" then HIGH
  else if String.eqb s "LOW" then MEDIUM
  else LOW.

Definition _generate_security_suggestion (bandit_item : BanditItem) : string :=
  let test_id := default "" (bd_test_id bandit_item) in
  let issue_text := default "" (bd_issue_text bandit_item) in
  if String.eqb test_id "B101" then "Use assert statements only for debugging, not for production code."
  else if String.eqb test_id "B104" then "Hardcoded bind to all interfaces. Use specific IP address."
  else if String.eqb test_id "B105" then "Hardcoded password string. Use environment variables or secure vault."
  else if String.eqb test_id "B106" then "Hardcoded password in function call. Use secure credential management."
  else if String.eqb test_id "B107" then "Hardcoded password in string. Never hardcode passwords."
  else if String.eqb test_id "B201" then "Flask app detected with debug=True. Disable debug mode in production."
  else if String.eqb test_id "B301" then "Use of pickle. Only unpickle data from trusted sources."
  else if String.eqb test_id "B506" then "Use of shell=True in subprocess. Avoid shell injection vulnerabilities."
  else if String.eqb test_id "B602" then "Shell injection via subprocess. Use shell=False or escape arguments."
  else "Security concern: " ++ issue_text ++ ". Review security best practices.".

Definition bandit_issue (item : BanditItem) : Issue :=
  _create_issue
    (_map_bandit_severity (default "LOW" (bd_issue_severity item)))
    (default "security" (bd_test_id item))
    (default "" (bd_issue_text item))
    (bd_line_number item)
    (Some (_generate_security_suggestion item))
    (Some {[ "tool" := JStr "bandit";
             "confidence" := default (JStr "MEDIUM") (bd_issue_confidence item);
             "cwe" := default (JDict []) (bd_issue_cwe item) ]}).

(** [name\s*=\s*] then a quoted, non-empty run of non-quote characters,
    under [re.IGNORECASE]; the second component is the pattern text kept in
    the metadata. *)
Definition secret_pattern (name : string) : Regex.regex :=
  Regex.cats [Regex.lit_i name; Regex.Star Regex.space; Regex.chr "=";
              Regex.Star Regex.space; Regex.quote; Regex.plus Regex.not_quote;
              Regex.quote].

Definition secret_pattern_text (name : string) : string :=
  name ++ "\s*=\s*[" ++ String dquote "\'" ++ "]([^" ++ String dquote "\'"
       ++ "]+)[" ++ String dquote "\'" ++ "]".

Definition secret_patterns : list (string * string) :=
  [ ("password", "Hardcoded password detected");
    ("api_key", "Hardcoded API key detected");
    ("secret", "Hardcoded secret detected");
    ("token", "Hardcoded token detected") ].

Definition _check_hardcoded_secrets (code file_path : string) : list Issue :=
  let lines := split newline code in
  concat (map (fun '(line_num, line) =>
    concat (map (fun '(name, message) =>
      if Regex.search (secret_pattern name) line then
        [_create_issue CRITICAL "hardcoded_secret" message (Some (Z.of_nat line_num))
           (Some "Use environment variables or secure credential management system.")
           (Some {[ "pattern" := JStr (secret_pattern_text name);
                    "line" := JStr (strip line) ]})]
      else []) secret_patterns)) (enumerate 1 lines)).

Definition not_close_paren : Regex.regex :=
  Regex.Chr (fun x => negb (chr_eqb x ")")).

(** [execute\s*\([^)]*%\s*[%s]] and [execute\s*\([^)]*f] followed by a
    quote, both under [re.IGNORECASE]. *)
Definition sql_pattern : Regex.regex :=
  Regex.cats [Regex.lit_i "execute"; Regex.Star Regex.space; Regex.chr "(";
              Regex.Star not_close_paren; Regex.chr "%"; Regex.Star Regex.space;
              Regex.Alt (Regex.chr "%") (Regex.chr_i "s")].

Definition sql_f_string : Regex.regex :=
  Regex.cats [Regex.lit_i "execute"; Regex.Star Regex.space; Regex.chr "(";
              Regex.Star not_close_paren; Regex.chr_i "f"; Regex.quote].

Definition _check_sql_injection (code file_path : string) : list Issue :=
  let lines := split newline code in
  concat (map (fun '(line_num, line) =>
    if Regex.search sql_pattern line then
      [_create_issue CRITICAL "sql_injection"
         "Potential SQL injection vulnerability detected" (Some (Z.of_nat line_num))
         (Some "Use parameterized queries or ORM methods instead of string formatting.")
         (Some {[ "line" := JStr (strip line) ]})]
    else if Regex.search sql_f_string line then
      [_create_issue CRITICAL "sql_injection"
         "Potential SQL injection vulnerability with f-string" (Some (Z.of_nat line_num))
         (Some "Use parameterized queries or ORM methods instead of f-strings.")
         (Some {[ "line" := JStr (strip line) ]})]
    else []) (enumerate 1 lines)).

(** [random\.(randint|choice|random)]. *)
Definition random_pattern : Regex.regex :=
  Regex.Cat (Regex.lit "random.")
    (Regex.Alt (Regex.lit "randint") (Regex.Alt (Regex.lit "choice") (Regex.lit "random"))).

Definition security_keywords : list string :=
  ["password"; "token"; "key"; "secret"; "auth"].

Definition insecure_random_issue (line_num : nat) (line : string) : Issue :=
  _create_issue HIGH "insecure_random"
    "Using random module for security-sensitive operations" (Some (Z.of_nat line_num))
    (Some "Use secrets module for cryptographically secure random number generation.")
    (Some {[ "line" := JStr (strip line) ]}).

Definition _check_insecure_random (code file_path : string) : list Issue :=
  let lines := split newline code in
  let uses_secrets := contains "secrets" (lower code) in
  concat (map (fun '(line_num, line) =>
    if Regex.search random_pattern line && negb uses_secrets then
      if existsb (fun keyword => contains keyword (lower line)) security_keywords
      then [insecure_random_issue line_num line]
      else []
    else []) (enumerate 1 lines)).

Definition analyze (tools : Tools) (code file_path : string) : result (list Issue) :=
  let issues : list Issue := [] in
  let bandit_results := bandit tools code file_path in
  let issues :=
    if rep_success bandit_results
    then (issues ++ map bandit_issue (rep_issues bandit_results))%list else issues in
  let issues := (issues ++ _check_hardcoded_secrets code file_path)%list in
  let issues := (issues ++ _check_sql_injection code file_path)%list in
  let issues := (issues ++ _check_insecure_random code file_path)%list in
  Ok issues.

(** [SecurityAgent()]. *)
Definition new (tools : Tools) : Agent :=
  {| self_agent_type := SECURITY; BaseAgent.analyze := analyze tools |}.

End SecurityAgent.

(* ================================================================== *)
(** ** [src/agents/performance_agent.py] *)
(* ================================================================== *)

Module PerformanceAgent.
Import PyStr Schemas Exceptions BaseAgent ToolReports.

(** The issue built inside [if complexity > 15]. *)
Definition complexity_issue (func : RadonFunction) (complexity : Z) : Issue :=
  _create_issue HIGH "high_complexity"
    ("Function '" ++ default "unknown" (rf_name func) ++ "' has very high complexity ("
       ++ of_Z complexity ++ ") which may impact performance")
    (rf_lineno func)
    (Some "Refactor into smaller functions. Consider using caching or optimization techniques.")
    (Some {[ "tool" := JStr "radon"; "complexity" := JInt complexity;
             "function" := json_of_name (rf_name func) ]}).

(** The body of [for func in functions]. *)
Definition radon_function_issues (func : RadonFunction) : list Issue :=
  let complexity := default 0 (rf_complexity func) in
  if 15 <? complexity then [complexity_issue func complexity] else [].

Definition radon_file_issues (entry : string * RadonFileEntry) : list Issue :=
  match snd entry with
  | RadonFunctions functions => concat (map radon_function_issues functions)
  | RadonNotAList _ => []
  end.

Definition radon_issues (radon_results : RadonReport) : list Issue :=
  if radon_success radon_results
  then concat (map radon_file_issues (radon_complexity radon_results))
  else [].

(** The variables of the nested-loop scan. *)
Record loop_state : Type := mkLoopState {
  loop_depth : nat;
  max_depth : nat;
  start_line : nat;
  found : list Issue;
}.

Definition nested_loops_step (st : loop_state) (entry : nat * string) : loop_state :=
  let '(line_num, line) := entry in
  let stripped := strip line in
  if startswith stripped "for " || startswith stripped "while " then
    let depth := S (loop_depth st) in
    {| loop_depth := depth;
       max_depth := Nat.max (max_depth st) depth;
       start_line := if Nat.eqb depth 1 then line_num else start_line st;
       found := found st |}
  else if startswith stripped "if " || startswith stripped "elif "
          || startswith stripped "else:" then st
  else if nonempty stripped && negb (startswith stripped "#") then
    if (0 <? loop_depth st)%nat
       && (startswith stripped "return" || startswith stripped "break") then
      {| loop_depth := 0;
         max_depth := 0;
         start_line := start_line st;
         found :=
           if (3 <=? max_depth st)%nat then
             (found st ++
              [_create_issue MEDIUM "nested_loops"
                 ("Deeply nested loops detected (depth: " ++ of_nat (max_depth st) ++ ")")
                 (Some (Z.of_nat (start_line st)))
                 (Some "Consider optimizing nested loops. Use itertools.product() or vectorized operations if possible.")
                 (Some {[ "depth" := JInt (Z.of_nat (max_depth st)) ]})])%list
           else found st |}
    else st
  else st.

Definition _check_nested_loops (code file_path : string) : list Issue :=
  let lines := split newline code in
  found (fold_left nested_loops_step (enumerate 1 lines) (mkLoopState 0 0 0 [])).

(** [(\w+)\s*\+=\s*] followed by a quote. *)
Definition concat_pattern : Regex.regex :=
  Regex.cats [Regex.plus Regex.word; Regex.Star Regex.space; Regex.lit "+=";
              Regex.Star Regex.space; Regex.quote].

Definition _check_string_concatenation (code file_path : string) : list Issue :=
  let lines := split newline code in
  concat (map (fun '(line_num, line) =>
    if Regex.search concat_pattern line then
      if (1 <? line_num)%nat
         && match lines !! (line_num - 2)%nat with
            | Some prev =>
                existsb (fun keyword => contains keyword (lower prev)) ["for "; "while "]
            | None => false
            end
      then
        [_create_issue MEDIUM "inefficient_string_concat"
           "String concatenation in loop detected" (Some (Z.of_nat line_num))
           (Some "Use list.append() and ''.join() for better performance in loops.")
           (Some {[ "line" := JStr (strip line) ]})]
      else []
    else []) (enumerate 1 lines)).

Definition _check_list_comprehension_opportunities (code file_path : string)
    : list Issue :=
  let lines := split newline code in
  concat (map (fun '(i, line) =>
    if contains "append(" line && (0 <? i)%nat then
      match lines !! (i - 1)%nat with
      | Some prev =>
          if startswith (strip prev) "for " then
            [_create_issue LOW "list_comprehension_opportunity"
               "Consider using list comprehension instead of loop with append"
               (Some (Z.of_nat (i + 1)))
               (Some "List comprehensions are generally faster and more Pythonic.")
               (Some {[ "line" := JStr (strip line) ]})]
          else []
      | None => []
      end
    else []) (enumerate 0 lines)).

(** [\.keys\(\)\.sort\(\)] and [if\s+\w+\s+in\s+dict\.keys\(\)]. *)
Definition inefficient_patterns : list (Regex.regex * string) :=
  [ (Regex.lit ".keys().sort()",
     "Use sorted(dict.keys()) instead of .keys().sort()");
    (Regex.cats [Regex.lit "if"; Regex.plus Regex.space; Regex.plus Regex.word;
                 Regex.plus Regex.space; Regex.lit "in"; Regex.plus Regex.space;
                 Regex.lit "dict.keys()"],
     "Use 'if key in dict' instead of 'if key in dict.keys()'") ].

Definition _check_inefficient_operations (code file_path : string) : list Issue :=
  let lines := split newline code in
  concat (map (fun '(line_num, line) =>
    concat (map (fun '(pattern, suggestion) =>
      if Regex.search pattern line then
        [_create_issue LOW "inefficient_operation" "Inefficient operation detected"
           (Some (Z.of_nat line_num)) (Some suggestion)
           (Some {[ "line" := JStr (strip line) ]})]
      else []) inefficient_patterns)) (enumerate 1 lines)).

Definition analyze (tools : Tools) (code file_path : string) : result (list Issue) :=
  let issues : list Issue := [] in
  let radon_results := radon tools code file_path in
  let issues := (issues ++ radon_issues radon_results)%list in
  let issues := (issues ++ _check_nested_loops code file_path)%list in
  let issues := (issues ++ _check_string_concatenation code file_path)%list in
  let issues := (issues ++ _check_list_comprehension_opportunities code file_path)%list in
  let issues := (issues ++ _check_inefficient_operations code file_path)%list in
  Ok issues.

(** [PerformanceAgent()]. *)
Definition new (tools : Tools) : Agent :=
  {| self_agent_type := PERFORMANCE; BaseAgent.analyze := analyze tools |}.

End PerformanceAgent.

(* ================================================================== *)
(** ** [src/agents/documentation_agent.py] *)
(* ================================================================== *)

Module DocumentationAgent.
Import PyStr Schemas Exceptions BaseAgent.

(** The syntax tree, as far as the checks look at it.  [docstring] is what
    [ast.get_docstring] returns for the node, [args] is [node.args.args],
    [values] is [len(node.values)]. *)
Inductive node_kind : Type :=
| FunctionDef (name : string) (lineno end_lineno : nat) (args : list string)
    (docstring : option string)
| ClassDef (name : string) (lineno : nat) (docstring : option string)
| If
| While
| For
| ExceptHandler
| BoolOp (values : nat)
| OtherNode.

Inductive ast : Type :=
| Node (kind : node_kind) (children : list ast).

Definition kind_of (t : ast) : node_kind :=
  match t with Node k _ => k end.

(** Joins two lists of levels, level by level. *)
Fixpoint zip_levels (l1 l2 : list (list ast)) : list (list ast) :=
  match l1, l2 with
  | [], _ => l2
  | _, [] => l1
  | a :: l1', b :: l2' => (a ++ b)%list :: zip_levels l1' l2'
  end.

(** The nodes of a tree, depth by depth and left to right. *)
Fixpoint levels (t : ast) : list (list ast) :=
  match t with
  | Node _ children =>
      [t] :: (fix go (cs : list ast) : list (list ast) :=
                match cs with
                | [] => []
                | c :: cs' => zip_levels (levels c) (go cs')
                end) children
  end.

(** [ast.walk]: breadth first from the node itself. *)
Definition walk (t : ast) : list ast := concat (levels t).

(** The parser: a tree, or the exception [ast.parse] raises. *)
Definition parser : Type := string -> result ast.

(** Truthiness of [ast.get_docstring(node)]. *)
Definition has_docstring (docstring : option string) : bool :=
  match docstring with
  | Some d => nonempty d
  | None => false
  end.

Definition triple_dquote : string := String dquote (String dquote (String dquote "")).
Definition triple_squote : string := String squote (String squote (String squote "")).

(** The index of the first line that is neither blank nor a comment,
    0 when there is none. *)
Fixpoint first_code_line (entries : list (nat * string)) : nat :=
  match entries with
  | [] => 0%nat
  | (i, line) :: rest =>
      let stripped := strip line in
      if nonempty stripped && negb (startswith stripped "#") then i
      else first_code_line rest
  end.

Definition _check_module_docstring (code file_path : string) : list Issue :=
  let lines := split newline code in
  let first_line_idx := first_code_line (enumerate 0 lines) in
  match lines !! first_line_idx with
  | Some l =>
      let first_line := strip l in
      if negb (startswith first_line triple_dquote || startswith first_line triple_squote)
      then
        [_create_issue LOW "missing_module_docstring" "Module is missing a docstring"
           (Some 1) (Some "Add a module-level docstring describing the module's purpose.")
           None]
      else []
  | None => []
  end.

Definition function_docstring_issues (node : ast) : list Issue :=
  match kind_of node with
  | FunctionDef name lineno _ args docstring =>
      if startswith name "_" then []
      else if negb (has_docstring docstring) then
        [_create_issue MEDIUM "missing_function_docstring"
           ("Function '" ++ name ++ "' is missing a docstring")
           (Some (Z.of_nat lineno))
           (Some ("Add a docstring to function '" ++ name
                    ++ "' describing its purpose, parameters, and return value."))
           (Some {[ "function" := JStr name ]})]
      else
        let doc := default "" docstring in
        ((if (String.length doc <? 20)%nat then
           [_create_issue LOW "poor_docstring_quality"
              ("Function '" ++ name ++ "' has a very brief docstring")
              (Some (Z.of_nat lineno))
              (Some "Expand the docstring to include parameter descriptions and return value information.")
              (Some {[ "function" := JStr name ]})]
         else []) ++
        (if match args with [] => false | _ => true end then
           if negb (existsb (fun word => contains "param" (lower doc)
                                         || contains "arg" (lower doc))
                      (split_ws doc))
           then
             [_create_issue LOW "missing_parameter_docs"
                ("Function '" ++ name ++ "' docstring doesn't document parameters")
                (Some (Z.of_nat lineno))
                (Some "Document function parameters in the docstring.")
                (Some {[ "function" := JStr name ]})]
           else []
         else []))%list
  | _ => []
  end.

Definition _check_function_docstrings (tree : ast) (code : string) : list Issue :=
  concat (map function_docstring_issues (walk tree)).

Definition class_docstring_issues (node : ast) : list Issue :=
  match kind_of node with
  | ClassDef name lineno docstring =>
      if startswith name "_" then []
      else if negb (has_docstring docstring) then
        [_create_issue MEDIUM "missing_class_docstring"
           ("Class '" ++ name ++ "' is missing a docstring")
           (Some (Z.of_nat lineno))
           (Some ("Add a docstring to class '" ++ name
                    ++ "' describing its purpose and usage."))
           (Some {[ "class" := JStr name ]})]
      else []
  | _ => []
  end.

Definition _check_class_docstrings (tree : ast) (code : string) : list Issue :=
  concat (map class_docstring_issues (walk tree)).

Definition complexity_weight (node : ast) : Z :=
  match kind_of node with
  | If | While | For | ExceptHandler => 1
  | BoolOp values => Z.of_nat values - 1
  | _ => 0
  end.

Definition _calculate_complexity (node : ast) : Z :=
  fold_left (fun complexity child => complexity + complexity_weight child) (walk node) 1.

(** [lines[lo:hi]] for [0 <= lo]. *)
Definition slice {A} (l : list A) (lo hi : nat) : list A :=
  take (hi - lo) (drop lo l).

Definition complex_code_issues (lines : list string) (node : ast) : list Issue :=
  match kind_of node with
  | FunctionDef name lineno end_lineno _ _ =>
      let complexity := _calculate_complexity node in
      if 5 <? complexity then
        let function_lines := slice lines (lineno - 1) end_lineno in
        let has_comments :=
          existsb (fun line => startswith (strip line) "#") function_lines in
        if negb has_comments then
          [_create_issue LOW "complex_code_needs_comments"
             ("Complex function '" ++ name ++ "' lacks inline comments")
             (Some (Z.of_nat lineno))
             (Some "Add inline comments to explain complex logic.")
             (Some {[ "function" := JStr name; "complexity" := JInt complexity ]})]
        else []
      else []
  | _ => []
  end.

Definition _check_complex_code_comments (tree : ast) (code : string) : list Issue :=
  let lines := split newline code in
  concat (map (complex_code_issues lines) (walk tree)).

Definition syntax_error_issue : Issue :=
  _create_issue HIGH "syntax_error"
    "Code has syntax errors, cannot analyze documentation" None
    (Some "Fix syntax errors first") None.

(** [issues.extend(found)] and [issues.append(issue)] on the local list. *)
Definition extend (found : list Issue) : stx (list Issue) unit :=
  modify (fun issues => (issues ++ found)%list).

(** The body of [analyze]: the state is the local list [issues], which
    the [except SyntaxError] clause appends to as it finds it. *)
Definition analyze_body (ast_parse : parser) (code file_path : string)
    : stx (list Issue) (list Issue) :=
  _ ← try_except
        (tree ← lift (ast_parse code);
         _ ← extend (_check_module_docstring code file_path);
         _ ← extend (_check_function_docstrings tree code);
         _ ← extend (_check_class_docstrings tree code);
         extend (_check_complex_code_comments tree code))
        (fun e =>
           if decide (exn_class e = SyntaxError)
           then Some (extend [syntax_error_issue])
           else None);
  get.

Definition analyze (ast_parse : parser) (code file_path : string)
    : result (list Issue) :=
  snd (analyze_body ast_parse code file_path []).

(** [DocumentationAgent()]. *)
Definition new (ast_parse : parser) : Agent :=
  {| self_agent_type := DOCUMENTATION; BaseAgent.analyze := analyze ast_parse |}.

End DocumentationAgent.

(* ================================================================== *)
(** ** [src/core/orchestrator.py] *)
(* ================================================================== *)

Module Orchestrator.
Import PyStr Schemas Exceptions BaseAgent ToolReports.

(** What the agents depend on: the tool reports, the Python parser, and
    for each agent the two clock readings of its [review] call. *)
Record World : Type := mkWorld {
  tools : Tools;
  ast_parse : DocumentationAgent.parser;
  clock : AgentType -> string -> string -> Qc * Qc;
}.

(** An agent as the orchestrator sees it: the outcome of awaiting
    [agent.review(code, file_path)] under [return_exceptions=True]. *)
Record AgentObject : Type := mkAgentObject {
  review : string -> string -> result AgentResult;
}.

(** A [BaseAgent] instance running in a world. *)
Definition running (w : World) (agent : Agent) : AgentObject :=
  {| review := fun code file_path =>
       let '(start_time, end_time) := clock w (self_agent_type agent) code file_path in
       BaseAgent.review agent start_time end_time code file_path |}.

Record AgentOrchestrator : Type := mkOrchestrator {
  quality_agent : AgentObject;
  security_agent : AgentObject;
  performance_agent : AgentObject;
  documentation_agent : AgentObject;
  agents : gmap AgentType AgentObject;
}.

(** [__init__], from the four agent objects. *)
Definition init (quality security performance documentation : AgentObject)
    : AgentOrchestrator :=
  {| quality_agent := quality;
     security_agent := security;
     performance_agent := performance;
     documentation_agent := documentation;
     agents := {[ QUALITY := quality; SECURITY := security;
                  PERFORMANCE := performance; DOCUMENTATION := documentation ]} |}.

(** [AgentOrchestrator()]. *)
Definition new (w : World) : AgentOrchestrator :=
  init (running w (QualityAgent.new (tools w)))
       (running w (SecurityAgent.new (tools w)))
       (running w (PerformanceAgent.new (tools w)))
       (running w (DocumentationAgent.new (ast_parse w))).

#[global] Instance AgentType_inhabited : Inhabited AgentType := populate QUALITY.

(** The result synthesized for a task that raised. *)
Definition failed_result (agent_type : AgentType) (e : exn) : AgentResult :=
  {| agent_type := agent_type;
     success := false;
     execution_time := 0%Qc;
     issues := [];
     error_message := Some (str e);
     result_metadata := None |}.

(** [review_code].  [asyncio.gather] returns the outcomes in the order of
    the tasks it was given. *)
Definition review_code (self : AgentOrchestrator) (code file_path : string)
    (agent_types : option (list AgentType)) : list AgentResult :=
  let agent_types :=
    match agent_types with
    | None => list_AgentType
    | Some given => given
    end in
  let tasks :=
    omap (fun agent_type =>
            (fun agent => review agent code file_path) <$> agents self !! agent_type)
         agent_types in
  let results := tasks in
  imap (fun i result =>
          match result with
          | Raise e => failed_result (agent_types !!! i) e
          | Ok r => r
          end) results.

(** [get_agent]. *)
Definition get_agent (self : AgentOrchestrator) (agent_type : AgentType)
    : option AgentObject :=
  agents self !! agent_type.

End Orchestrator.

(* ================================================================== *)
(** ** [src/database/models.py] and the session *)
(* ================================================================== *)

Module Database.

Record Repository : Type := mkRepository {
  repo_id : nat;
  repo_name : string;
  repo_url : string;
  repo_platform : string;
  repo_owner : string;
}.

Record Review : Type := mkReview {
  review_id : nat;
  review_repository_id : nat;
  review_commit_sha : option string;
  review_pull_request_id : option Z;
  review_file_path : string;
  review_status : string;
  review_completed : bool;
}.

Record ReviewResult : Type := mkReviewResult {
  rr_id : nat;
  rr_review_id : nat;
  rr_agent_type : string;
  rr_severity : string;
  rr_issue_type : string;
  rr_message : string;
  rr_line_number : option Z;
  rr_suggestion : option string;
  rr_meta_data : option (gmap string json);
}.

Record AgentMetrics : Type := mkAgentMetrics {
  am_id : nat;
  am_agent_type : string;
  am_review_id : option nat;
  am_execution_time : Qc;
  am_issues_found : Z;
  am_success : bool;
  am_error_message : option string;
}.

Record Feedback : Type := mkFeedback {
  fb_id : nat;
  fb_review_result_id : nat;
  fb_feedback_type : string;
  fb_comment : option string;
}.

(** The five tables.  The time stamps of the rows are left out;
    [review_completed] tells whether [completed_at] is set. *)
Record Tables : Type := mkTables {
  repositories : list Repository;
  reviews : list Review;
  review_results : list ReviewResult;
  agent_metrics : list AgentMetrics;
  feedback : list Feedback;
}.

(** The tables by name, for the statements that name one. *)
Inductive table : Type :=
| RepositoryTable
| ReviewTable
| ReviewResultTable
| AgentMetricsTable
| FeedbackTable.

(** A bulk statement: [db.query(Model).delete()] sends one [DELETE] for
    the table of the model to the database as soon as it is called. *)
Inductive statement : Type :=
| DeleteFrom (t : table).

(** A session: the committed tables, the tables as the open transaction
    sees them, and the bulk statements the session has sent so far, oldest
    first.  Every route of the module queries the session only while
    nothing is pending, so queries read the working tables.  The statements
    of a session are total on the tables: a failure of the database engine
    itself is not part of the model. *)
Record Session : Type := mkSession {
  committed : Tables;
  working : Tables;
  statements : list statement;
}.

Definition open_session (db : Tables) : Session :=
  {| committed := db; working := db; statements := [] |}.

Definition commit (s : Session) : Session :=
  {| committed := working s; working := working s; statements := statements s |}.

Definition rollback (s : Session) : Session :=
  {| committed := committed s; working := committed s; statements := statements s |}.

(** The key given to a new row: one more than the largest key in use. *)
Definition next_id (ids : list nat) : nat := S (foldr Nat.max 0%nat ids).

Definition on_working (f : Tables -> Tables) (s : Session) : Session :=
  {| committed := committed s; working := f (working s); statements := statements s |}.

(** The session after it has sent one more bulk statement. *)
Definition sending (st : statement) (s : Session) : Session :=
  {| committed := committed s; working := working s;
     statements := (statements s ++ [st])%list |}.

Definition set_repositories (rows : list Repository) (t : Tables) : Tables :=
  {| repositories := rows; reviews := reviews t; review_results := review_results t;
     agent_metrics := agent_metrics t; feedback := feedback t |}.

Definition set_reviews (rows : list Review) (t : Tables) : Tables :=
  {| repositories := repositories t; reviews := rows;
     review_results := review_results t;
     agent_metrics := agent_metrics t; feedback := feedback t |}.

Definition set_review_results (rows : list ReviewResult) (t : Tables) : Tables :=
  {| repositories := repositories t; reviews := reviews t; review_results := rows;
     agent_metrics := agent_metrics t; feedback := feedback t |}.

End Database.

(* ================================================================== *)
(** ** [src/api/routes/reviews.py] *)
(* ================================================================== *)

Module Reviews.
Import PyStr Schemas Exceptions Database.

(** One entry of the lists the GitHub integration returns. *)
Record FileInfo : Type := mkFileInfo {
  path : string;
  content : string;
  size : Z;
}.

(** The local file system and the GitHub integration, seen from the
    route: each call returns or raises. *)
Record Sources : Type := mkSources {
  os_path_exists : string -> bool;
  read_file : string -> result string;
  get_all_python_files : string -> option string -> result (list FileInfo);
  get_python_files_in_directory :
    string -> string -> option string -> result (list FileInfo);
  get_file_content : string -> string -> option string -> result string;
  get_commit_files : string -> string -> result (list FileInfo);
  get_pull_request_files : string -> Z -> result (list FileInfo);
}.

(** The orchestrator of the module, [orchestrator.review_code]. *)
Definition reviewer : Type :=
  string -> string -> option (list AgentType) -> list AgentResult.

Abbreviation route := (stx Session).

Definition http_exception {A} (status_code : nat) (detail : string) : route A :=
  raise (mkExn (HTTPException status_code) detail).

(** [s.replace(old, "")] for a non-empty [old]: [skip] counts the
    characters of a match still to be dropped. *)
Fixpoint remove_all (old s : string) (skip : nat) : string :=
  match s with
  | EmptyString => EmptyString
  | String c s' =>
      match skip with
      | S k => remove_all old s' k
      | O =>
          if String.prefix old s then remove_all old s' (String.length old - 1)
          else String c (remove_all old s' 0)
      end
  end.

(** Owner and name as the route reads them off a URL of the host. *)
Definition owner_and_name (host_prefix url : string) : string * string :=
  let parts := split "/" (remove_all host_prefix url 0) in
  (match parts with p0 :: _ => p0 | [] => "unknown" end,
   match parts with _ :: p1 :: _ => remove_all ".git" p1 0 | _ => "unknown" end).

(** [db.query(Repository).filter(Repository.url == url).first()], and the
    creation of the row when there is none. *)
Definition get_or_create_repository (url : string) : route Repository := fun s =>
  match List.find (fun r => String.eqb (repo_url r) url) (repositories (working s)) with
  | Some repo => (s, Ok repo)
  | None =>
      let '(platform, (owner, name)) :=
        if contains "github.com" url
        then ("github", owner_and_name "https://github.com/" url)
        else if contains "gitlab.com" url
        then ("gitlab", owner_and_name "https://gitlab.com/" url)
        else ("unknown", ("unknown", "unknown")) in
      let repo :=
        {| repo_id := next_id (map repo_id (repositories (working s)));
           repo_name := name; repo_url := url;
           repo_platform := platform; repo_owner := owner |} in
      (commit (on_working (fun t => set_repositories (repositories t ++ [repo])%list t) s),
       Ok repo)
  end.

(** [review = Review(..., status="pending"); db.add(review); db.commit();
    db.refresh(review)]. *)
Definition create_pending_review (repo : Repository) (request : ReviewRequest)
    (file_path : string) : route Review := fun s =>
  let review :=
    {| review_id := next_id (map review_id (reviews (working s)));
       review_repository_id := repo_id repo;
       review_commit_sha := commit_sha request;
       review_pull_request_id := pull_request_id request;
       review_file_path := file_path;
       review_status := "pending";
       review_completed := false |} in
  (commit (on_working (fun t => set_reviews (reviews t ++ [review])%list t) s), Ok review).

(** [review.status = "completed"; review.completed_at = utcnow();
    db.commit()]. *)
Definition complete_review (review : Review) : route unit := fun s =>
  let done (r : Review) :=
    if Nat.eqb (review_id r) (review_id review)
    then {| review_id := review_id r;
            review_repository_id := review_repository_id r;
            review_commit_sha := review_commit_sha r;
            review_pull_request_id := review_pull_request_id r;
            review_file_path := review_file_path r;
            review_status := "completed";
            review_completed := true |}
    else r in
  (commit (on_working (fun t => set_reviews (map done (reviews t)) t) s), Ok tt).

(** The message with the bracketed path in front, unless it is there. *)
Definition stamped_message (file_path message : string) : string :=
  if startswith message ("[" ++ file_path ++ "]") then message
  else "[" ++ file_path ++ "] " ++ message.

(** [issue.metadata.copy() if issue.metadata else {}], then the
    [file_path] key. *)
Definition stamped_metadata (file_path : string) (metadata : option (gmap string json))
    : gmap string json :=
  <["file_path" := JStr file_path]> (default ∅ metadata).

Definition issue_with_path (file_path : string) (issue : Issue) : Issue :=
  {| severity := severity issue;
     issue_type := issue_type issue;
     message := stamped_message file_path (message issue);
     line_number := line_number issue;
     suggestion := suggestion issue;
     metadata := Some (stamped_metadata file_path (metadata issue)) |}.

(** [db.add(ReviewResult(...))] for one issue of one agent. *)
Definition add_result (review : Review) (agent_type : AgentType)
    (issue stamped : Issue) (s : Session) : Session :=
  on_working (fun t =>
    set_review_results
      (review_results t ++
       [{| rr_id := next_id (map rr_id (review_results t));
           rr_review_id := review_id review;
           rr_agent_type := AgentType_value agent_type;
           rr_severity := Severity_value (severity issue);
           rr_issue_type := issue_type issue;
           rr_message := message stamped;
           rr_line_number := line_number issue;
           rr_suggestion := suggestion issue;
           rr_meta_data := metadata stamped |}])%list t) s.

(** A value of [agent_results_dict]. *)
Record aggregate : Type := mkAggregate {
  agg_issues : list Issue;
  total_time : Qc;
  agg_success : bool;
}.

(** [agent_results_dict] keeps its keys in the order they were first
    inserted, the order [items()] later yields them in. *)
Definition results_dict : Type := list (AgentType * aggregate).

Definition dict_mem (k : AgentType) (d : results_dict) : bool :=
  existsb (fun kv => bool_decide (fst kv = k)) d.

Definition dict_alter (f : aggregate -> aggregate) (k : AgentType) (d : results_dict)
    : results_dict :=
  map (fun kv => if bool_decide (fst kv = k) then (fst kv, f (snd kv)) else kv) d.

(** The variables the scan loops update. *)
Record scan_state : Type := mkScanState {
  session : Session;
  scan_total_issues : nat;
  agent_results_dict : results_dict;
}.

(** The body of [for issue in result.issues] in the two scans. *)
Definition scan_issue (review : Review) (file_path_item : string)
    (result : AgentResult) (st : scan_state) (issue : Issue) : scan_state :=
  let stamped := issue_with_path file_path_item issue in
  let s := add_result review (agent_type result) issue stamped (session st) in
  let total := S (scan_total_issues st) in
  let d := agent_results_dict st in
  let d :=
    if negb (dict_mem (agent_type result) d)
    then (d ++ [(agent_type result,
                 {| agg_issues := []; total_time := 0%Qc; agg_success := true |})])%list
    else d in
  let d := dict_alter (fun a =>
             {| agg_issues := (agg_issues a ++ [stamped])%list;
                total_time := total_time a; agg_success := agg_success a |})
             (agent_type result) d in
  let d := dict_alter (fun a =>
             {| agg_issues := agg_issues a;
                total_time := (total_time a + execution_time result)%Qc;
                agg_success := agg_success a |})
             (agent_type result) d in
  let d :=
    if negb (success result)
    then dict_alter (fun a =>
           {| agg_issues := agg_issues a; total_time := total_time a;
              agg_success := false |})
           (agent_type result) d
    else d in
  {| session := s; scan_total_issues := total; agent_results_dict := d |}.

(** The body of [for result in file_results]. *)
Definition scan_result (review : Review) (file_path_item : string)
    (st : scan_state) (result : AgentResult) : scan_state :=
  fold_left (scan_issue review file_path_item result) (issues result) st.

(** [request.agent_types or None]. *)
Definition requested_agents (request : ReviewRequest) : option (list AgentType) :=
  match agent_types request with
  | Some (t :: l) => Some (t :: l)
  | _ => None
  end.

(** The body of [for idx, file_info in enumerate(all_files, 1)]. *)
Definition scan_file (review_code : reviewer) (request : ReviewRequest)
    (review : Review) (st : scan_state) (file_info : FileInfo) : scan_state :=
  let file_code := content file_info in
  let file_path_item := path file_info in
  let file_results := review_code file_code file_path_item (requested_agents request) in
  fold_left (scan_result review file_path_item) file_results st.

(** [for agent_type, data in agent_results_dict.items(): ...append]. *)
Definition aggregated_results (d : results_dict) : list AgentResult :=
  map (fun '(agent_type, data) =>
         {| agent_type := agent_type;
            success := agg_success data;
            execution_time := total_time data;
            issues := agg_issues data;
            error_message := None;
            result_metadata := None |}) d.

Definition max_files : nat := 50.

(** The part the two scans share, from the cap on the number of files to
    the response; [display] gives the two texts of [file_path_display],
    the one stored with the review and the one returned. *)
Definition scan (review_code : reviewer) (repo : Repository) (request : ReviewRequest)
    (all_files : list FileInfo) (display : nat -> nat -> string * string)
    : route ReviewResponse :=
  let total_files_found := length all_files in
  let all_files :=
    if (max_files <? length all_files)%nat then take max_files all_files
    else all_files in
  let '(stored_display, returned_display) :=
    display total_files_found (length all_files) in
  review ← create_pending_review repo request stored_display;
  s ← get;
  let st := fold_left (scan_file review_code request review) all_files
              {| session := s; scan_total_issues := 0; agent_results_dict := [] |} in
  _ ← modify (fun _ => session st);
  let all_results := aggregated_results (agent_results_dict st) in
  _ ← complete_review review;
  mret {| Schemas.review_id := Database.review_id review;
          resp_repository_url := repository_url request;
          resp_file_path := returned_display;
          status := "completed";
          results := all_results;
          total_issues := scan_total_issues st |}.

Definition repository_display (total_files_found processed : nat) : string * string :=
  if (max_files <? total_files_found)%nat then
    ("Repository scan (" ++ of_nat max_files ++ "/" ++ of_nat total_files_found ++ " files)",
     "Repository scan (" ++ of_nat max_files ++ "/" ++ of_nat total_files_found
       ++ " files processed)")
  else
    ("Repository scan (" ++ of_nat processed ++ " files)",
     "Repository scan (" ++ of_nat processed ++ " files)").

Definition directory_display (file_path_input : string)
    (total_files_found processed : nat) : string * string :=
  let text :=
    if (max_files <? total_files_found)%nat then
      "Directory scan: " ++ file_path_input ++ " (" ++ of_nat max_files ++ "/"
        ++ of_nat total_files_found ++ " files processed)"
    else
      "Directory scan: " ++ file_path_input ++ " (" ++ of_nat processed ++ " files)" in
  (text, text).

(** What the inner [try] block leaves behind: it returned a response, or
    it set [code] and [file_path]. *)
Inductive fetched : Type :=
| Returned (response : ReviewResponse)
| Code (code file_path : string).

(** [except ValueError as e: raise HTTPException(status_code=404,
    detail=str(e))]. *)
Definition value_error_is_404 {A} (e : exn) : option (route A) :=
  if decide (exn_class e = ValueError) then Some (http_exception 404 (str e))
  else None.

Definition first_file {A} (files : list FileInfo) (none : route A)
    (some : FileInfo -> route A) : route A :=
  match files with
  | f :: _ => some f
  | [] => none
  end.

(** The inner [try] block of [create_review], without its two [except]
    clauses. *)
Definition fetch_code (src : Sources) (review_code : reviewer) (repo : Repository)
    (request : ReviewRequest) : route fetched :=
  let url := repository_url request in
  let given_path := default "" (file_path request) in
  if nonempty given_path && negb (startswith url "http") then
    if os_path_exists src given_path then
      code ← lift (read_file src given_path);
      mret (Code code given_path)
    else
      http_exception 400 ("Local file not found: " ++ given_path)
  else if nonempty url && startswith url "http" then
    if default false (scan_entire_repo request) then
      all_files ← lift (get_all_python_files src url (commit_sha request));
      match all_files with
      | [] => http_exception 404 "No Python files found in repository."
      | _ => Returned <$> scan review_code repo request all_files repository_display
      end
    else if nonempty given_path && nonempty (strip given_path) then
      let file_path_input := strip given_path in
      if negb (endswith file_path_input ".py") then
        try_except
          (all_files ← lift (get_python_files_in_directory src url file_path_input
                               (commit_sha request));
           match all_files with
           | [] => http_exception 404
                     ("No Python files found in directory '" ++ file_path_input ++ "'.")
           | _ => Returned <$> scan review_code repo request all_files
                                 (directory_display file_path_input)
           end)
          value_error_is_404
      else
        try_except
          (code ← lift (get_file_content src url file_path_input (commit_sha request));
           if negb (nonempty code) || negb (nonempty (strip code)) then
             http_exception 404
               ("File '" ++ file_path_input
                  ++ "' is empty or could not be read from repository.")
           else mret (Code code file_path_input))
          value_error_is_404
    else if match commit_sha request with
            | Some sha => nonempty sha && nonempty (strip sha)
            | None => false
            end then
      let sha := default "" (commit_sha request) in
      files ← lift (get_commit_files src url sha);
      first_file files
        (http_exception 404 ("No Python files found in commit " ++ sha))
        (fun f => mret (Code (content f) (path f)))
    else if match pull_request_id request with
            | Some pr => 0 <? pr
            | None => false
            end then
      let pr := default 0 (pull_request_id request) in
      try_except
        (files ← lift (get_pull_request_files src url pr);
         first_file files
           (http_exception 404
              ("No Python files found in pull request #" ++ of_Z pr
                 ++ ". Please use file_path instead."))
           (fun f => mret (Code (content f) (path f))))
        (fun e =>
           let error_msg := str e in
           if contains "404" error_msg || contains "Not Found" error_msg then
             Some (http_exception 404
                     ("Pull request #" ++ of_Z pr
                        ++ " not found in this repository. Please check the PR number or use 'file_path' field instead (leave PR ID empty)."))
           else None)
    else
      http_exception 400
        "For GitHub/GitLab repositories, please provide either: (1) file_path, or (2) commit_sha, or (3) pull_request_id. Leave other fields empty."
  else
    http_exception 400
      "Must provide either a local file_path or a repository_url with file_path/commit_sha/pull_request_id".

(** The single-file tail of [create_review]: the rows of the issues and
    the issues of the response, both with the path stamped on. *)
Definition save_results (review : Review) (file_path : string)
    (found : list AgentResult) (s : Session) : Session :=
  fold_left (fun s result =>
    fold_left (fun s issue =>
      add_result review (agent_type result) issue (issue_with_path file_path issue) s)
      (issues result) s) found s.

Definition stamped_result (file_path : string) (result : AgentResult) : AgentResult :=
  {| agent_type := agent_type result;
     success := success result;
     execution_time := execution_time result;
     issues := map (issue_with_path file_path) (issues result);
     error_message := error_message result;
     result_metadata := result_metadata result |}.

Definition review_single (review_code : reviewer) (repo : Repository)
    (request : ReviewRequest) (code file_path : string) : route ReviewResponse :=
  review ← create_pending_review repo request file_path;
  let found := review_code code file_path (requested_agents request) in
  _ ← modify (save_results review file_path found);
  _ ← complete_review review;
  mret {| Schemas.review_id := Database.review_id review;
          resp_repository_url := repository_url request;
          resp_file_path := file_path;
          status := "completed";
          results := map (stamped_result file_path) found;
          total_issues := length (concat (map issues found)) |}.

(** [create_review]. *)
Definition create_review (src : Sources) (review_code : reviewer)
    (request : ReviewRequest) : route ReviewResponse :=
  try_except
    (repo ← get_or_create_repository (repository_url request);
     got ← try_except (fetch_code src review_code repo request)
             (fun e =>
                if is_http e then None
                else Some (http_exception 400 ("Error fetching code: " ++ str e)));
     match got with
     | Returned response => mret response
     | Code code file_path => review_single review_code repo request code file_path
     end)
    (fun e =>
       if is_http e then None
       else Some (_ ← modify rollback;
                  http_exception 500 ("Internal server error: " ++ str e))).

Definition Severity_of_value (s : string) : result Severity :=
  match List.find (fun v => String.eqb (Severity_value v) s)
          [CRITICAL; HIGH; MEDIUM; LOW; INFO] with
  | Some v => Ok v
  | None => Raise (mkExn ValueError ("'" ++ s ++ "' is not a valid Severity"))
  end.

Definition AgentType_of_value (s : string) : result AgentType :=
  match List.find (fun v => String.eqb (AgentType_value v) s) list_AgentType with
  | Some v => Ok v
  | None => Raise (mkExn ValueError ("'" ++ s ++ "' is not a valid AgentType"))
  end.

(** [agent_results[db_result.agent_type].append(issue)] on a
    [defaultdict(list)], keys in first-insertion order. *)
Definition group_issue (d : list (string * list Issue)) (key : string) (issue : Issue)
    : list (string * list Issue) :=
  if existsb (fun kv => String.eqb (fst kv) key) d
  then map (fun kv => if String.eqb (fst kv) key then (fst kv, (snd kv ++ [issue])%list) else kv) d
  else (d ++ [(key, [issue])])%list.

Fixpoint group_rows (rows : list ReviewResult) (d : list (string * list Issue))
    : result (list (string * list Issue)) :=
  match rows with
  | [] => Ok d
  | row :: rest =>
      sev ← Severity_of_value (rr_severity row);
      group_rows rest
        (group_issue d (rr_agent_type row)
           {| severity := sev; issue_type := rr_issue_type row;
              message := rr_message row; line_number := rr_line_number row;
              suggestion := rr_suggestion row; metadata := rr_meta_data row |})
  end.

Fixpoint stored_results (groups : list (string * list Issue)) : result (list AgentResult) :=
  match groups with
  | [] => Ok []
  | (agent_type, found) :: rest =>
      t ← AgentType_of_value agent_type;
      others ← stored_results rest;
      Ok ({| agent_type := t; success := true; execution_time := 0%Qc;
             issues := found; error_message := None; result_metadata := None |}
            :: others)
  end.

(** [get_review]. *)
Definition get_review (id : nat) : route ReviewResponse :=
  s ← get;
  match List.find (fun r => Nat.eqb (Database.review_id r) id) (reviews (working s)) with
  | None => http_exception 404 "Review not found"
  | Some review =>
      let db_results :=
        filter (fun row => rr_review_id row = id) (review_results (working s)) in
      groups ← lift (group_rows db_results []);
      found ← lift (stored_results groups);
      let repo :=
        List.find (fun r => Nat.eqb (repo_id r) (review_repository_id review))
          (repositories (working s)) in
      mret {| Schemas.review_id := Database.review_id review;
              resp_repository_url :=
                match repo with Some r => repo_url r | None => "" end;
              resp_file_path := review_file_path review;
              status := review_status review;
              results := found;
              total_issues := length db_results |}
  end.

(** The payload of [clear_all_reviews]. *)
Record ClearResponse : Type := mkClearResponse {
  clear_success : bool;
  clear_message : string;
  deleted_reviews : nat;
  deleted_results : nat;
}.

(** [db.query(ReviewResult).delete()]: sends the statement, which removes
    every row, and returns how many there were. *)
Definition delete_all_review_results : route nat := fun s =>
  (sending (DeleteFrom ReviewResultTable) (on_working (set_review_results []) s),
   Ok (length (review_results (working s)))).

(** [db.query(Review).delete()]. *)
Definition delete_all_reviews : route nat := fun s =>
  (sending (DeleteFrom ReviewTable) (on_working (set_reviews []) s),
   Ok (length (reviews (working s)))).

(** [clear_all_reviews]. *)
Definition clear_all_reviews : route ClearResponse :=
  try_except
    (n_results ← delete_all_review_results;
     n_reviews ← delete_all_reviews;
     _ ← modify commit;
     mret {| clear_success := true;
             clear_message :=
               "Cleared " ++ of_nat n_reviews ++ " reviews and " ++ of_nat n_results
                 ++ " review results";
             deleted_reviews := n_reviews;
             deleted_results := n_results |})
    (fun e =>
       Some (_ ← modify rollback;
             http_exception 500 ("Error clearing reviews: " ++ str e))).

(** A request served on the database through [Depends(get_db)]: a fresh
    session, closed afterwards, so that only what was committed stays. *)
Definition serve {A} (handler : route A) (db : Tables) : Tables * result A :=
  let '(s, r) := handler (open_session db) in (committed s, r).

End Reviews.

(* ================================================================== *)
(** ** [src/integrations/llm.py] *)
(* ================================================================== *)

Module LLM.
Import PyStr Exceptions.

(** The settings the integration reads. *)
Record Settings : Type := mkSettings {
  llm_provider : string;
  ollama_base_url : string;
  ollama_model : string;
  openai_api_key : option string;
}.

(** The object behind [self.llm]: called with the prompt it answers with
    a text or raises.  For [ChatOpenAI] the text is the [content] of the
    message it returns. *)
Record Model : Type := mkModel { complete : string -> result string }.

(** What lies outside: whether LangChain could be imported, and its two
    constructors, [Ollama(base_url=..., model=...)] and
    [ChatOpenAI(..., openai_api_key=...)]. *)
Record Env : Type := mkEnv {
  LANGCHAIN_AVAILABLE : bool;
  Ollama : string -> string -> result Model;
  ChatOpenAI : string -> result Model;
}.

Record LLMIntegration : Type := mkLLMIntegration {
  provider : string;
  llm : option Model;
}.

(** [_initialize_llm]: the value [self.llm] has afterwards. *)
Definition _initialize_llm (env : Env) (settings : Settings) (provider : string)
    : option Model :=
  if negb (LANGCHAIN_AVAILABLE env) then None
  else
    match
      (if String.eqb provider "ollama" then
         Some <$> Ollama env (ollama_base_url settings) (ollama_model settings)
       else if String.eqb provider "openai" then
         match openai_api_key settings with
         | Some key => if nonempty key then Some <$> ChatOpenAI env key else Ok None
         | None => Ok None
         end
       else Ok None)
    with
    | Ok model => model
    | Raise _ => None
    end.

(** [LLMIntegration()]. *)
Definition init (env : Env) (settings : Settings) : LLMIntegration :=
  let provider := lower (llm_provider settings) in
  {| provider := provider; llm := _initialize_llm env settings provider |}.

Definition backticks : string := "```".

(** The lines of a text, each ended by a newline. *)
Definition text_of_lines (lines : list string) : string :=
  foldr (fun line rest => line ++ String newline rest) "" lines.

Definition _build_prompt (code file_path : string) (context : option string) : string :=
  let prompt :=
    text_of_lines
      [ "Analyze the following Python code and provide suggestions for improvement.";
        "";
        "File: " ++ file_path;
        "";
        "Code:";
        backticks ++ "python";
        code;
        backticks;
        "";
        "Please provide:";
        "1. Code quality issues";
        "2. Potential improvements";
        "3. Best practices recommendations";
        "4. Security concerns (if any)";
        "";
        "Be concise and actionable in your suggestions." ] in
  match context with
  | Some text =>
      if nonempty text
      then prompt ++ text_of_lines [""; "Additional context: " ++ text]
      else prompt
  | None => prompt
  end.

Definition suggestion_keywords : list string :=
  ["suggest"; "recommend"; "consider"; "should"; "improve"].

(** [_extract_suggestions]: the loop appends to [suggestions]; the first
    ten are returned. *)
Definition _extract_suggestions (llm_response : string) : list string :=
  let lines := split newline llm_response in
  let suggestions :=
    fold_left (fun suggestions line =>
      if existsb (fun keyword => contains keyword (lower line)) suggestion_keywords
      then (suggestions ++ [strip line])%list
      else suggestions) lines [] in
  take 10 suggestions.

(** [analyze_code].  Both providers are called with the prompt; for
    [openai] it travels in a [HumanMessage]. *)
Definition analyze_code (self : LLMIntegration) (code file_path : string)
    (context : option string) : gmap string json :=
  match llm self with
  | None =>
      {[ "success" := JBool false; "error" := JStr "LLM not initialized";
         "suggestions" := JList [] ]}
  | Some model =>
      match
        (let prompt := _build_prompt code file_path context in
         result ← complete model prompt;
         Ok ({[ "success" := JBool true; "analysis" := JStr result;
                "suggestions" := JList (JStr <$> _extract_suggestions result) ]}
             : gmap string json))
      with
      | Ok answer => answer
      | Raise e =>
          {[ "success" := JBool false; "error" := JStr (str e);
             "suggestions" := JList [] ]}
      end
  end.

End LLM.

(* ================================================================== *)
(** ** [src/integrations/github.py] *)
(* ================================================================== *)

Module GitHub.
Import PyStr Exceptions.

(** A [ContentFile] answered for a file path, as far as
    [get_file_content] reads it: the property [decoded_content], which
    gives bytes or raises, and the attribute [content], base64 text or
    nothing. *)
Record ContentFile : Type := mkContentFile {
  decoded_content : result string;
  content_attribute : option string;
}.

(** What [repo.get_contents] answers for a file path. *)
Inductive contents : Type :=
| ContentsFile (file_content : ContentFile)
| ContentsList (items : list ContentFile)
| ContentsNone.

(** An entry of a directory listing with its [type], [name], [path] and
    [size], and, for a directory, what [repo.get_contents] answers for
    its path: the entries below it, or an exception.  The repository is a
    finite tree. *)
Inductive item : Type :=
| Item (type name path : string) (size : Z) (listing : result (list item)).

Definition item_type (it : item) : string := match it with Item t _ _ _ _ => t end.
Definition item_name (it : item) : string := match it with Item _ n _ _ _ => n end.
Definition item_path (it : item) : string := match it with Item _ _ p _ _ => p end.
Definition item_size (it : item) : Z := match it with Item _ _ _ s _ => s end.
Definition item_listing (it : item) : result (list item) :=
  match it with Item _ _ _ _ l => l end.

(** A file of a pull request or of a commit. *)
Record ChangedFile : Type := mkChangedFile {
  filename : string;
  file_status : string;
  additions : Z;
  deletions : Z;
}.

Record PullRequest : Type := mkPullRequest {
  head_sha : string;
  get_files : result (list ChangedFile);
}.

Record Commit : Type := mkCommit {
  files : result (list ChangedFile);
}.

(** A repository object of PyGithub.  [get_contents] is the call on a
    file path; [get_listing] is the same call on a directory path, its
    answer made a list and followed into the directories below. *)
Record Repo : Type := mkRepo {
  get_contents : string -> option string -> result contents;
  get_listing : string -> option string -> result (list item);
  get_pull : Z -> result PullRequest;
  get_commit : string -> result Commit;
}.

(** The client, [Github(token)]. *)
Record Github : Type := mkGithub {
  get_repo : string -> result Repo;
}.

(** What lies outside: the token of the settings, the client a token
    opens, and the two decoders, [bytes.decode("utf-8")], which fails with
    a [UnicodeDecodeError] ([None]), and [base64.b64decode]. *)
Record Env : Type := mkEnv {
  settings_github_token : option string;
  connect : string -> Github;
  utf8_decode : string -> option string;
  b64decode : string -> result string;
}.

Record GitHubIntegration : Type := mkGitHubIntegration {
  github : option Github;
}.

(** Truthiness of an optional string: [if ref:]. *)
Definition truthy (s : option string) : bool :=
  match s with
  | Some text => nonempty text
  | None => false
  end.

(** [__init__]. *)
Definition init (env : Env) (token : option string) : GitHubIntegration :=
  let token := if truthy token then token else settings_github_token env in
  match token with
  | Some text => if nonempty text then {| github := Some (connect env text) |}
                 else {| github := None |}
  | None => {| github := None |}
  end.

Definition value_error {A} (text : string) : result A :=
  Raise (mkExn ValueError text).

(** The path [get_repository] asks the client for. *)
Definition repo_path (repo_url : string) : result string :=
  if contains "github.com" repo_url then
    let parts :=
      split "/" (Reviews.remove_all "http://github.com/"
                   (Reviews.remove_all "https://github.com/" repo_url 0) 0) in
    match parts with
    | owner :: repo :: _ => Ok (owner ++ "/" ++ Reviews.remove_all ".git" repo 0)
    | _ => value_error ("Invalid GitHub URL: " ++ repo_url)
    end
  else Ok repo_url.

(** [get_repository]. *)
Definition get_repository (self : GitHubIntegration) (repo_url : string) : result Repo :=
  match github self with
  | None => value_error "GitHub token not configured"
  | Some client =>
      path ← repo_path repo_url;
      get_repo client path
  end.

(** The reference as it is passed on: [ref=ref] when [ref] is true. *)
Definition given_ref (ref : option string) : option string :=
  if truthy ref then ref else None.

Definition could_not_extract (file_path : string) : string :=
  "Could not extract content from file '" ++ file_path
    ++ "'. File may be empty or binary.".

(** The inner [try] statement of [get_file_content], with its
    [except UnicodeDecodeError] clause. *)
Definition read_content (env : Env) (file_path : string) (file_content : ContentFile)
    : result string :=
  let from_attribute : result (option string) :=
    match content_attribute file_content with
    | Some text =>
        if nonempty text then
          bytes ← b64decode env text;
          Ok (utf8_decode env bytes)
        else value_error (could_not_extract file_path)
    | None => value_error (could_not_extract file_path)
    end in
  let decoded : result (option string) :=
    match decoded_content file_content with
    | Ok bytes => if nonempty bytes then Ok (utf8_decode env bytes) else from_attribute
    | Raise e =>
        if decide (exn_class e = AttributeError) then from_attribute else Raise e
    end in
  match decoded with
  | Ok (Some content) =>
      if negb (nonempty content) || negb (nonempty (strip content))
      then value_error ("File '" ++ file_path ++ "' is empty.")
      else Ok content
  | Ok None =>
      value_error ("File '" ++ file_path
                     ++ "' appears to be a binary file. Only text files (Python, etc.) are supported.")
  | Raise e => Raise e
  end.

(** The two [except] clauses of [get_file_content]: a [ValueError] goes
    on as it is, anything else becomes one. *)
Definition file_failure (repo_url file_path : string) (e : exn) : exn :=
  if decide (exn_class e = ValueError) then e
  else
    let error_msg := str e in
    if contains "404" error_msg || contains "Not Found" error_msg then
      mkExn ValueError
        ("File '" ++ file_path ++ "' not found in repository '" ++ repo_url ++ "'. "
           ++ "Please check if the file path is correct. "
           ++ "File path should be relative to repository root (e.g., 'README.md', not '/README.md').")
    else if contains "403" error_msg || contains "Forbidden" error_msg then
      mkExn ValueError
        "Access forbidden to repository. Please check your GitHub token permissions."
    else mkExn ValueError ("Error fetching file '" ++ file_path ++ "': " ++ error_msg).

(** [get_file_content]. *)
Definition get_file_content (env : Env) (self : GitHubIntegration)
    (repo_url file_path : string) (ref : option string) : result string :=
  match github self with
  | None =>
      value_error "GitHub token not configured. Please set GITHUB_TOKEN in .env file."
  | Some _ =>
      repo ← get_repository self repo_url;
      match
        (answer ← get_contents repo file_path (given_ref ref);
         file_content ←
           match answer with
           | ContentsList [] =>
               value_error ("File '" ++ file_path ++ "' not found in repository.")
           | ContentsList (first :: _) => Ok first
           | ContentsFile file_content => Ok file_content
           | ContentsNone => value_error ("File content is None for " ++ file_path)
           end;
         read_content env file_path file_content)
      with
      | Ok content => Ok content
      | Raise e => Raise (file_failure repo_url file_path e)
      end
  end.

(** An entry of the lists the integration returns for a pull request or
    a commit. *)
Record FetchedFile : Type := mkFetchedFile {
  fetched_path : string;
  fetched_content : string;
  fetched_status : string;
  fetched_additions : Z;
  fetched_deletions : Z;
}.

(** The body of the loop over the files of a pull request or a commit,
    for a file that passed the test of the loop. *)
Definition fetch_changed (env : Env) (self : GitHubIntegration) (repo_url : string)
    (ref : string) (found : list FetchedFile) (file : ChangedFile) : list FetchedFile :=
  match get_file_content env self repo_url (filename file) (Some ref) with
  | Ok content =>
      (found ++ [{| fetched_path := filename file; fetched_content := content;
                    fetched_status := file_status file;
                    fetched_additions := additions file;
                    fetched_deletions := deletions file |}])%list
  | Raise _ => found
  end.

(** [get_pull_request_files]. *)
Definition get_pull_request_files (env : Env) (self : GitHubIntegration)
    (repo_url : string) (pr_number : Z) : result (list FetchedFile) :=
  repo ← get_repository self repo_url;
  pr ← get_pull repo pr_number;
  changed ← get_files pr;
  Ok (fold_left (fun found file =>
        if endswith (filename file) ".py"
        then fetch_changed env self repo_url (head_sha pr) found file
        else found) changed []).

(** [get_commit_files]. *)
Definition get_commit_files (env : Env) (self : GitHubIntegration)
    (repo_url commit_sha : string) : result (list FetchedFile) :=
  repo ← get_repository self repo_url;
  commit ← get_commit repo commit_sha;
  changed ← files commit;
  Ok (fold_left (fun found file =>
        if endswith (filename file) ".py"
           && negb (String.eqb (file_status file) "removed")
        then fetch_changed env self repo_url commit_sha found file
        else found) changed []).

Definition skip_dirs : list string :=
  [".git"; "__pycache__"; ".pytest_cache"; "node_modules"; ".venv"; "venv"; ".vs"; ".idea"].

(** The body of [if item.type == "file" and item.name.endswith(".py")]
    in the two walks: the file is fetched and appended, or left out when the
    fetch raises. *)
Definition fetch_item (fetch : string -> result string) (found : list Reviews.FileInfo)
    (path : string) (size : Z) : list Reviews.FileInfo :=
  match fetch path with
  | Ok content => (found ++ [Reviews.mkFileInfo path content size])%list
  | Raise _ => found
  end.

(** The body of [for item in contents] in [get_files_recursive], the
    call for a directory included: [found] is the list [files] the nested
    function appends to. *)
Fixpoint walk_item (fetch : string -> result string) (found : list Reviews.FileInfo)
    (it : item) : list Reviews.FileInfo :=
  match it with
  | Item type name path size listing =>
      if String.eqb type "file" && endswith name ".py" then
        fetch_item fetch found path size
      else if String.eqb type "dir" then
        if negb (existsb (String.eqb name) skip_dirs) && negb (startswith name ".") then
          match listing with
          | Ok below => fold_left (walk_item fetch) below found
          | Raise _ => found
          end
        else found
      else found
  end.

(** [get_files_recursive(path, ref)], given what [repo.get_contents]
    answers for [path]. *)
Definition get_files_recursive (fetch : string -> result string)
    (answer : result (list item)) (found : list Reviews.FileInfo) : list Reviews.FileInfo :=
  match answer with
  | Ok below => fold_left (walk_item fetch) below found
  | Raise _ => found
  end.

(** [get_all_python_files]. *)
Definition get_all_python_files (env : Env) (self : GitHubIntegration)
    (repo_url : string) (ref : option string) : result (list Reviews.FileInfo) :=
  match github self with
  | None =>
      value_error "GitHub token not configured. Please set GITHUB_TOKEN in .env file."
  | Some _ =>
      repo ← get_repository self repo_url;
      Ok (get_files_recursive
            (fun path => get_file_content env self repo_url path (given_ref ref))
            (get_listing repo "" (given_ref ref)) [])
  end.

(** The [except Exception] clause of [get_python_files_in_directory]. *)
Definition directory_failure (repo_url directory_path : string) (e : exn) : exn :=
  let error_msg := str e in
  if contains "404" error_msg || contains "Not Found" error_msg then
    mkExn ValueError
      ("Directory '" ++ directory_path ++ "' not found in repository '" ++ repo_url
         ++ "'. " ++ "Please check if the directory path is correct.")
  else
    mkExn ValueError ("Error accessing directory '" ++ directory_path ++ "': " ++ error_msg).

(** [get_python_files_in_directory] from its [try] statement on, given
    what [repo.get_contents] answers for the directory; [walk] is the loop
    over the entries. *)
Definition in_directory (repo_url directory_path : string)
    (answer : result (list item)) (walk : list item -> list Reviews.FileInfo)
    : result (list Reviews.FileInfo) :=
  match answer with
  | Ok below => Ok (walk below)
  | Raise e => Raise (directory_failure repo_url directory_path e)
  end.

(** The body of [for item in contents] in
    [get_python_files_in_directory]; the call for a subdirectory finds the
    token and the repository as the call it is made from did. *)
Fixpoint directory_item (fetch : string -> result string) (repo_url : string)
    (found : list Reviews.FileInfo) (it : item) : list Reviews.FileInfo :=
  match it with
  | Item type name path size listing =>
      if String.eqb type "file" && endswith name ".py" then
        fetch_item fetch found path size
      else if String.eqb type "dir" then
        match in_directory repo_url path listing
                (fun below => fold_left (directory_item fetch repo_url) below [])
        with
        | Ok subdir_files => (found ++ subdir_files)%list
        | Raise _ => found
        end
      else found
  end.

(** [get_python_files_in_directory]. *)
Definition get_python_files_in_directory (env : Env) (self : GitHubIntegration)
    (repo_url directory_path : string) (ref : option string)
    : result (list Reviews.FileInfo) :=
  match github self with
  | None =>
      value_error "GitHub token not configured. Please set GITHUB_TOKEN in .env file."
  | Some _ =>
      repo ← get_repository self repo_url;
      in_directory repo_url directory_path
        (get_listing repo directory_path (given_ref ref))
        (fun below =>
           fold_left
             (directory_item
                (fun path => get_file_content env self repo_url path (given_ref ref))
                repo_url)
             below [])
  end.

(** What the route reads of a fetched file: its path and its content. *)
Definition file_info (file : FetchedFile) : Reviews.FileInfo :=
  Reviews.mkFileInfo (fetched_path file) (fetched_content file) 0.

(** The sources of [create_review]: the local disk and
    [GitHubIntegration()]. *)
Definition sources (env : Env) (os_path_exists : string -> bool)
    (read_file : string -> result string) : Reviews.Sources :=
  let self := init env None in
  {| Reviews.os_path_exists := os_path_exists;
     Reviews.read_file := read_file;
     Reviews.get_all_python_files := get_all_python_files env self;
     Reviews.get_python_files_in_directory := get_python_files_in_directory env self;
     Reviews.get_file_content := get_file_content env self;
     Reviews.get_commit_files := fun repo_url commit_sha =>
       map file_info <$> get_commit_files env self repo_url commit_sha;
     Reviews.get_pull_request_files := fun repo_url pr_number =>
       map file_info <$> get_pull_request_files env self repo_url pr_number |}.

End GitHub.

(* ================================================================== *)
(** * Properties *)
(* ================================================================== *)

(** ** Concrete inputs used by the examples below *)

Module Examples.
Import PyStr Schemas Exceptions ToolReports.

Definition code_a : string := "x = compute()".
Definition code_b : string := "import os".

Definition pylint_item (message_id message : string) : PylintItem :=
  {| pl_type := Some "convention"; pl_message_id := Some message_id;
     pl_message := Some message; pl_line := Some 1; pl_symbol := Some "symbol" |}.

(** pylint reports two findings for [code_a] and one for anything else;
    the other tools report nothing. *)
Definition tools0 : Tools :=
  {| pylint := fun code _ =>
       if String.eqb code code_a
       then mkIssuesReport true [pylint_item "C0114" "Missing module docstring";
                                 pylint_item "C0103" "Bad name"]
       else mkIssuesReport true [pylint_item "C0114" "Missing module docstring"];
     flake8 := fun _ _ => mkIssuesReport true [];
     bandit := fun _ _ => mkIssuesReport true [];
     radon := fun _ _ => mkRadonReport true [] |}.

(** The parser gives up on [code_a] with an error that is not a
    [SyntaxError]; the quality agent takes half a second per file, the
    others a quarter. *)
Definition world0 : Orchestrator.World :=
  {| Orchestrator.tools := tools0;
     Orchestrator.ast_parse := fun code =>
       if String.eqb code code_a
       then Raise (mkExn RuntimeError "maximum recursion depth exceeded")
       else Ok (DocumentationAgent.Node DocumentationAgent.OtherNode []);
     Orchestrator.clock := fun t _ _ =>
       match t with
       | QUALITY => (0%Qc, Q2Qc (1 # 2))
       | _ => (0%Qc, Q2Qc (1 # 4))
       end |}.

(** radon's second command times out. *)
Definition env_timeout : StaticAnalysis.Env :=
  {| StaticAnalysis.named_temporary_file := Ok "/tmp/tmpab12cd.py";
     StaticAnalysis.write := fun _ => Ok tt;
     StaticAnalysis.subprocess_run := fun argv =>
       match argv with
       | [_; "cc"; _; _] => Ok (StaticAnalysis.mkCompleted "{}" "")
       | _ => Raise (mkExn TimeoutExpired "Command timed out after 30 seconds")
       end;
     StaticAnalysis.json_loads := fun _ => Ok (JDict []) |}.

(** radon's two commands run; what [cc] prints is JSON, what [mi] prints
    is not. *)
Definition env_radon_mi : StaticAnalysis.Env :=
  {| StaticAnalysis.named_temporary_file := Ok "/tmp/tmpab12cd.py";
     StaticAnalysis.write := fun _ => Ok tt;
     StaticAnalysis.subprocess_run := fun argv =>
       match argv with
       | [_; "cc"; _; _] => Ok (StaticAnalysis.mkCompleted "{}" "")
       | _ => Ok (StaticAnalysis.mkCompleted "ERROR" "")
       end;
     StaticAnalysis.json_loads := fun s =>
       if String.eqb s "{}" then Ok (JDict [])
       else Raise (mkExn ValueError "Expecting value: line 1 column 1 (char 0)") |}.

(** flake8 prints a well-formed line and then one whose line field is no
    number. *)
Definition flake8_stdout : string :=
  "t.py:1:80: E501 line too long" ++ String newline "t.py:x:1: W291 trailing whitespace".

Definition env_flake8 : StaticAnalysis.Env :=
  {| StaticAnalysis.named_temporary_file := Ok "/tmp/tmpab12cd.py";
     StaticAnalysis.write := fun _ => Ok tt;
     StaticAnalysis.subprocess_run := fun _ =>
       Ok (StaticAnalysis.mkCompleted flake8_stdout "");
     StaticAnalysis.json_loads := fun _ => Ok JNull |}.

(** radon reports one function of complexity 11. *)
Definition radon_function11 : RadonFunction :=
  {| rf_name := Some "handle"; rf_complexity := Some 11; rf_lineno := Some 3 |}.

Definition tools_radon : Tools :=
  {| pylint := fun _ _ => mkIssuesReport false [];
     flake8 := fun _ _ => mkIssuesReport false [];
     bandit := fun _ _ => mkIssuesReport false [];
     radon := fun _ _ =>
       mkRadonReport true [("/tmp/tmpab12cd.py", RadonFunctions [radon_function11])] |}.

(** A password built with [random.choice], and no mention of [secrets]. *)
Definition random_line : string :=
  "password = ''.join(random.choice(chars) for _ in range(8))".

Definition random_code : string :=
  "import random" ++ String newline random_line.

(** A hosted repository with the two files [a.py] and [b.py]; nothing
    exists on the local disk. *)
Definition sources0 : Reviews.Sources :=
  {| Reviews.os_path_exists := fun _ => false;
     Reviews.read_file := fun _ =>
       Raise (mkExn OSError "[Errno 2] No such file or directory");
     Reviews.get_all_python_files := fun _ _ =>
       Ok [Reviews.mkFileInfo "a.py" code_a 13; Reviews.mkFileInfo "b.py" code_b 9];
     Reviews.get_python_files_in_directory := fun _ _ _ => Ok [];
     Reviews.get_file_content := fun _ _ _ =>
       Raise (mkExn ValueError "File not found in repository.");
     Reviews.get_commit_files := fun _ _ => Ok [];
     Reviews.get_pull_request_files := fun _ _ => Ok [] |}.

(** A whole-repository scan with three of the agents. *)
Definition scan_request : ReviewRequest :=
  {| repository_url := "https://github.com/owner/repo";
     file_path := None; commit_sha := None; pull_request_id := None;
     scan_entire_repo := Some true;
     agent_types := Some [QUALITY; SECURITY; DOCUMENTATION] |}.

(** A local-mode request for a file that does not exist. *)
Definition local_request : ReviewRequest :=
  {| repository_url := "local";
     file_path := Some "missing.py"; commit_sha := None; pull_request_id := None;
     scan_entire_repo := None; agent_types := None |}.

Definition empty_db : Database.Tables :=
  {| Database.repositories := []; Database.reviews := [];
     Database.review_results := []; Database.agent_metrics := [];
     Database.feedback := [] |}.

(** What the examples show of an agent result. *)
Definition summary (r : AgentResult) : AgentType * bool * Q * nat :=
  (agent_type r, success r, this (execution_time r), length (issues r)).

End Examples.


(** ** Notions used to state the properties *)

Module Statements.
Import PyStr Schemas Exceptions BaseAgent ToolReports.

(** The agent the orchestrator constructs for an agent type. *)
Definition agent_of (w : Orchestrator.World) (t : AgentType) : Agent :=
  match t with
  | QUALITY => QualityAgent.new (Orchestrator.tools w)
  | SECURITY => SecurityAgent.new (Orchestrator.tools w)
  | PERFORMANCE => PerformanceAgent.new (Orchestrator.tools w)
  | DOCUMENTATION => DocumentationAgent.new (Orchestrator.ast_parse w)
  end.

(** What [review_code] reports for one agent type: the result of the
    agent's [review], or the failed result made up for a task that raised. *)
Definition outcome_of (w : Orchestrator.World) (code file_path : string)
    (t : AgentType) : AgentResult :=
  match Orchestrator.review (Orchestrator.running w (agent_of w t)) code file_path with
  | Ok r => r
  | Raise e => Orchestrator.failed_result t e
  end.

(** The failure shape of a wrapper: [success] false, the message under
    [error], and the [issues] key holding the empty list, except for radon,
    whose failure dictionaries have no such key. *)
Definition is_failure (t : StaticAnalysis.tool) (msg : string) (d : gmap string json)
    : Prop :=
  d !! "success" = Some (JBool false) /\
  d !! "error" = Some (JStr msg) /\
  d !! "issues" = match t with
                  | StaticAnalysis.Radon => None
                  | _ => Some (JList [])
                  end.

(** An exception raised while a wrapper reads what its commands printed,
    all of them having run: [json.loads] on the output of pylint or bandit,
    the [data.get] of the bandit wrapper on a value that is no dictionary,
    the line parser of the flake8 wrapper, and [json.loads] on the output of
    either radon command, the output of [cc] being read first.  An empty
    output is not read. *)
Inductive read_failure (env : StaticAnalysis.Env) (temp_path : string)
    : StaticAnalysis.tool -> exn -> Prop :=
| pylint_json out e :
    StaticAnalysis.subprocess_run env ["pylint"; "--output-format=json"; temp_path]
      = Ok out ->
    nonempty (StaticAnalysis.stdout out) = true ->
    StaticAnalysis.json_loads env (StaticAnalysis.stdout out) = Raise e ->
    read_failure env temp_path StaticAnalysis.Pylint e
| flake8_lines out e :
    StaticAnalysis.subprocess_run env ["flake8"; "--format=json"; temp_path] = Ok out ->
    StaticAnalysis.parse_flake8_output (StaticAnalysis.stdout out) = Raise e ->
    read_failure env temp_path StaticAnalysis.Flake8 e
| bandit_json out e :
    StaticAnalysis.subprocess_run env ["bandit"; "-f"; "json"; temp_path] = Ok out ->
    nonempty (StaticAnalysis.stdout out) = true ->
    StaticAnalysis.json_loads env (StaticAnalysis.stdout out) = Raise e ->
    read_failure env temp_path StaticAnalysis.Bandit e
| bandit_get out data key dflt e :
    StaticAnalysis.subprocess_run env ["bandit"; "-f"; "json"; temp_path] = Ok out ->
    nonempty (StaticAnalysis.stdout out) = true ->
    StaticAnalysis.json_loads env (StaticAnalysis.stdout out) = Ok data ->
    StaticAnalysis.json_get data key dflt = Raise e ->
    read_failure env temp_path StaticAnalysis.Bandit e
| radon_complexity_json cc mi e :
    StaticAnalysis.subprocess_run env ["radon"; "cc"; "-j"; temp_path] = Ok cc ->
    StaticAnalysis.subprocess_run env ["radon"; "mi"; "-j"; temp_path] = Ok mi ->
    nonempty (StaticAnalysis.stdout cc) = true ->
    StaticAnalysis.json_loads env (StaticAnalysis.stdout cc) = Raise e ->
    read_failure env temp_path StaticAnalysis.Radon e
| radon_maintainability_json cc mi e :
    StaticAnalysis.subprocess_run env ["radon"; "cc"; "-j"; temp_path] = Ok cc ->
    StaticAnalysis.subprocess_run env ["radon"; "mi"; "-j"; temp_path] = Ok mi ->
    (nonempty (StaticAnalysis.stdout cc) = true ->
     exists data, StaticAnalysis.json_loads env (StaticAnalysis.stdout cc) = Ok data) ->
    nonempty (StaticAnalysis.stdout mi) = true ->
    StaticAnalysis.json_loads env (StaticAnalysis.stdout mi) = Raise e ->
    read_failure env temp_path StaticAnalysis.Radon e.

(** The tool an issue names in its metadata, if it names one. *)
Definition tool_of (issue : Issue) : option json :=
  match metadata issue with
  | Some m => m !! "tool"
  | None => None
  end.

(** The visits of the scan loops: every issue with the per-file result it
    belongs to and the path of its file, in the order in which the three
    nested loops reach it. *)
Definition visits (review_code : Reviews.reviewer) (request : ReviewRequest)
    (files : list Reviews.FileInfo) : list (string * AgentResult * Issue) :=
  concat (map (fun f =>
    concat (map (fun r => map (fun i => (Reviews.path f, r, i)) (issues r))
              (review_code (Reviews.content f) (Reviews.path f)
                 (Reviews.requested_agents request))))
    files).

(** The visits that belong to results of one agent type. *)
Definition visits_of (t : AgentType) (v : list (string * AgentResult * Issue))
    : list (string * AgentResult * Issue) :=
  List.filter (fun x => bool_decide (agent_type (snd (fst x)) = t)) v.

(** [agent_results_dict.get(t)]. *)
Definition dict_get (t : AgentType) (d : Reviews.results_dict)
    : option Reviews.aggregate :=
  snd <$> List.find (fun kv => bool_decide (fst kv = t)) d.

Definition sum_times (times : list Qc) : Qc := foldr Qcplus 0%Qc times.

(** The three nested loops as one loop over the visits. *)
Definition visit (review : Database.Review) (st : Reviews.scan_state)
    (x : string * AgentResult * Issue) : Reviews.scan_state :=
  Reviews.scan_issue review (fst (fst x)) (snd (fst x)) st (snd x).

(** What the dictionary holds for each agent type after the visits [v]. *)
Definition aggregates (d : Reviews.results_dict) (v : list (string * AgentResult * Issue))
    : Prop :=
  forall t,
    match dict_get t d with
    | None => visits_of t v = []
    | Some a =>
        visits_of t v <> [] /\
        Reviews.agg_issues a = map (fun x => Reviews.issue_with_path (fst (fst x)) (snd x)) (visits_of t v) /\
        Reviews.total_time a = sum_times (map (fun x => execution_time (snd (fst x))) (visits_of t v)) /\
        Reviews.agg_success a = forallb (fun x => success (snd (fst x))) (visits_of t v)
    end.

(** A response of the not-found class: status 404, with some detail. *)
Definition is_not_found {A} (r : result A) : Prop :=
  exists detail, r = Raise (mkExn (HTTPException 404) detail).

End Statements.

(** ** Notions for the stored reviews *)

Module Stored.
Import PyStr Schemas Exceptions Database Reviews Statements.

(** The visits of the single-file tail of [create_review]: every issue of
    every result, with the one path. *)
Definition single_visits (file_path : string) (found : list AgentResult)
    : list (string * AgentResult * Issue) :=
  concat (map (fun r => map (fun i => (file_path, r, i)) (issues r)) found).

(** The issue a visit puts in the response: the issue found, with the
    path stamped on. *)
Definition stamped_issue (x : string * AgentResult * Issue) : Issue :=
  issue_with_path (fst (fst x)) (snd x).

(** The row a visit leaves in [review_results], its key apart. *)
Definition row_of_visit (rid : nat) (x : string * AgentResult * Issue)
    (row : ReviewResult) : Prop :=
  rr_review_id row = rid /\
  rr_agent_type row = AgentType_value (agent_type (snd (fst x))) /\
  rr_severity row = Severity_value (severity (snd x)) /\
  rr_issue_type row = issue_type (snd x) /\
  rr_message row = message (stamped_issue x) /\
  rr_line_number row = line_number (snd x) /\
  rr_suggestion row = suggestion (snd x) /\
  rr_meta_data row = metadata (stamped_issue x).

(** The issue [get_review] builds from a row. *)
Definition issue_of_row (row : ReviewResult) (issue : Issue) : Prop :=
  Severity_value (severity issue) = rr_severity row /\
  issue_type issue = rr_issue_type row /\
  message issue = rr_message row /\
  line_number issue = rr_line_number row /\
  suggestion issue = rr_suggestion row /\
  metadata issue = rr_meta_data row.

(** [db.add(ReviewResult(...))] for a visit. *)
Definition add_visit (review : Review) (s : Session)
    (x : string * AgentResult * Issue) : Session :=
  add_result review (agent_type (snd (fst x))) (snd x) (stamped_issue x) s.

(** All the issues an [agent_results_dict] holds. *)
Definition dict_issues (d : results_dict) : list Issue :=
  concat (map (fun kv => agg_issues (snd kv)) d).

(** What a successful [create_review] leaves behind, [v] being the visits
    it made: one more review, completed, under a key no review had; one
    more row per visit; the repositories as they were. *)
Definition stores (db db' : Tables) (response : ReviewResponse)
    (v : list (string * AgentResult * Issue)) : Prop :=
  exists (review : Review) (rows : list ReviewResult),
    reviews db' = (reviews db ++ [review])%list /\
    Database.review_id review = next_id (map Database.review_id (reviews db)) /\
    Schemas.review_id response = Database.review_id review /\
    review_status review = "completed" /\
    review_completed review = true /\
    review_results db' = (review_results db ++ rows)%list /\
    Forall2 (row_of_visit (Database.review_id review)) v rows /\
    repositories db' = repositories db /\
    status response = "completed" /\
    total_issues response = length v /\
    concat (map issues (results response)) ≡ₚ map stamped_issue v.

(** A call that does not raise an [HTTPException]. *)
Definition no_http {A} (r : result A) : Prop :=
  forall e, r = Raise e -> is_http e = false.

(** The file system and the GitHub integration raise exceptions of
    their own, never an [HTTPException]. *)
Definition plain_sources (src : Sources) : Prop :=
  (forall p, no_http (read_file src p)) /\
  (forall url sha, no_http (get_all_python_files src url sha)) /\
  (forall url dir sha, no_http (get_python_files_in_directory src url dir sha)) /\
  (forall url p sha, no_http (get_file_content src url p sha)) /\
  (forall url sha, no_http (get_commit_files src url sha)) /\
  (forall url pr, no_http (get_pull_request_files src url pr)).

(** The status codes [create_review] answers a failed request with. *)
Definition client_error (e : exn) : Prop :=
  exn_class e = HTTPException 400 \/ exn_class e = HTTPException 404.

(** Every result row belongs to a review. *)
Definition rows_have_reviews (db : Tables) : Prop :=
  forall row, In row (review_results db) ->
    exists review, In review (reviews db) /\ Database.review_id review = rr_review_id row.

(** The groups [get_review] collects: one per key, none empty. *)
Definition grouped (d : list (string * list Issue)) : Prop :=
  NoDup (map fst d) /\ Forall (fun kv => snd kv <> []) d.

(** The results [get_review] returns are one per agent type, each with
    issues, and carry no trace of how the run went. *)
Definition regrouped (found : list AgentResult) : Prop :=
  NoDup (map agent_type found) /\
  Forall (fun r => success r = true /\ execution_time r = 0%Qc /\ issues r <> [] /\
                   error_message r = None /\ result_metadata r = None) found.

End Stored.

(** ** Notions for the checks that go through a file line by line *)

Module Lines.
Import PyStr Schemas.

(** The issue names a line of the file: a number from 1 to the number of
    lines [code.split("\n")] gives. *)
Definition points_into (code : string) (issue : Issue) : Prop :=
  exists n : nat,
    line_number issue = Some (Z.of_nat n) /\
    (1 <= n <= length (split newline code))%nat.

(** Every character of the text passes the test. *)
Definition all_chars (test : ascii -> bool) (s : string) : bool :=
  forallb test (list_ascii_of_string s).

(** One of the two quotation marks. *)
Definition is_quote (c : ascii) : bool := chr_eqb c dquote || chr_eqb c squote.

End Lines.

(** ** Notions for the walks through a repository *)

Module Walks.
Import PyStr Exceptions GitHub.

(** The test of the walks for a Python file. *)
Definition python_file (it : item) : bool :=
  String.eqb (item_type it) "file" && endswith (item_name it) ".py".

(** A directory [get_files_recursive] goes into: not one of [skip_dirs],
    no name starting with a dot. *)
Definition entered (it : item) : bool :=
  String.eqb (item_type it) "dir"
  && negb (existsb (String.eqb (item_name it)) skip_dirs)
  && negb (startswith (item_name it) ".").

(** The entries [get_files_recursive] comes to, starting from a listing:
    those of the listing, and those of the listings of the directories it
    goes into, as far as these could be read. *)
Inductive visible : list item -> item -> Prop :=
| visible_here (items : list item) (it : item) :
    In it items -> visible items it
| visible_below (items below : list item) (dir it : item) :
    In dir items -> entered dir = true ->
    item_listing dir = Ok below -> visible below it ->
    visible items it.

(** The entry of the result for a file whose content was fetched. *)
Definition info_of (it : item) (content : string) : Reviews.FileInfo :=
  Reviews.mkFileInfo (item_path it) content (item_size it).

End Walks.

(** ** More concrete inputs *)

Module MoreExamples.
Import PyStr Schemas Exceptions Database.

(** A database with one completed review and one row of it, whose
    severity is no value of [Severity]. *)
Definition odd_db : Tables :=
  {| repositories := [mkRepository 1 "repo" "https://github.com/owner/repo" "github" "owner"];
     reviews := [mkReview 1 1 None None "a.py" "completed" true];
     review_results :=
       [mkReviewResult 1 1 "quality" "urgent" "C0103" "[a.py] Bad name" (Some 1) None None];
     agent_metrics := [];
     feedback := [] |}.

(** A repository [owner/repo]: [a.py] and a text file at the root, a
    hook under [.git], [b.py] under [src], and a directory [venv] that
    cannot be listed.  Every other path is answered with a 404. *)
Definition text_file (text : string) : GitHub.ContentFile :=
  {| GitHub.decoded_content := Ok text; GitHub.content_attribute := None |}.

Definition not_found : exn := mkExn RuntimeError "404 Not Found".

Definition root_listing : list GitHub.item :=
  [ GitHub.Item "file" "a.py" "a.py" 13 (Ok []);
    GitHub.Item "file" "README.md" "README.md" 20 (Ok []);
    GitHub.Item "dir" ".git" ".git" 0
      (Ok [GitHub.Item "file" "hook.py" ".git/hook.py" 5 (Ok [])]);
    GitHub.Item "dir" "src" "src" 0
      (Ok [GitHub.Item "file" "b.py" "src/b.py" 9 (Ok [])]);
    GitHub.Item "dir" "venv" "venv" 0 (Raise not_found) ].

Definition repo0 : GitHub.Repo :=
  {| GitHub.get_contents := fun path _ =>
       if String.eqb path "a.py" then Ok (GitHub.ContentsFile (text_file "x = compute()"))
       else if String.eqb path "src/b.py" then Ok (GitHub.ContentsFile (text_file "import os"))
       else if String.eqb path ".git/hook.py" then Ok (GitHub.ContentsFile (text_file "pass"))
       else Raise not_found;
     GitHub.get_listing := fun path _ =>
       if String.eqb path "" || String.eqb path "/" then Ok root_listing
       else Raise not_found;
     GitHub.get_pull := fun _ => Raise not_found;
     GitHub.get_commit := fun _ => Raise not_found |}.

Definition github0 : GitHub.Github :=
  {| GitHub.get_repo := fun path =>
       if String.eqb path "owner/repo" then Ok repo0 else Raise not_found |}.

(** Bytes that are ASCII text decode to themselves. *)
Definition env_github (token : option string) : GitHub.Env :=
  {| GitHub.settings_github_token := token;
     GitHub.connect := fun _ => github0;
     GitHub.utf8_decode := fun bytes => Some bytes;
     GitHub.b64decode := fun text => Ok text |}.

(** Three loops one within the other, and the same lines with the loops
    one after the other. *)
Definition text_of (lines : list string) : string :=
  match lines with
  | [] => ""
  | first :: rest => fold_left (fun text line => text ++ String newline line) rest first
  end.

Definition loops_within : string :=
  text_of [ "for a in rows:";
            "    mark(a)";
            "    for b in rows:";
            "        mark(b)";
            "        for c in rows:";
            "            return c" ].

Definition loops_after : string :=
  text_of [ "for a in rows:";
            "    mark(a)";
            "for b in rows:";
            "    mark(b)";
            "for c in rows:";
            "    return c" ].

(** The same three loops, none of them left by [return] or [break]. *)
Definition loops_without_exit : string :=
  text_of [ "for a in rows:";
            "    for b in rows:";
            "        for c in rows:";
            "            mark(a, b, c)" ].

(** Ollama is set up and its server is down. *)
Definition model_down : LLM.Model :=
  {| LLM.complete := fun _ => Raise (mkExn OSError "Connection refused") |}.

Definition env_llm : LLM.Env :=
  {| LLM.LANGCHAIN_AVAILABLE := true;
     LLM.Ollama := fun _ _ => Ok model_down;
     LLM.ChatOpenAI := fun _ => Ok model_down |}.

Definition settings_llm : LLM.Settings :=
  {| LLM.llm_provider := "Ollama";
     LLM.ollama_base_url := "http://localhost:11434";
     LLM.ollama_model := "llama2";
     LLM.openai_api_key := None |}.

(** A password in capital letters, closed by the other quotation mark. *)
Definition secret_line : string :=
  "DB_PASSWORD  = " ++ String squote ("hunter2" ++ String dquote " # fixme").

Definition secret_code : string := text_of ["import os"; secret_line].

(** A remote request for one file. *)
Definition file_request : ReviewRequest :=
  {| repository_url := "https://github.com/owner/repo";
     file_path := Some "a.py"; commit_sha := None; pull_request_id := None;
     scan_entire_repo := None; agent_types := None |}.

End MoreExamples.
(** ** The state-and-exception combinators *)

Section Combinators.
Import Exceptions.
Context {S A : Type}.

Lemma try_except_ok (body : stx S A) handler s s' a :
  body s = (s', Ok a) -> try_except body handler s = (s', Ok a).
Proof. intros H. unfold try_except. by rewrite H. Qed.

Lemma try_except_caught (body : stx S A) handler s s' e h :
  body s = (s', Raise e) -> handler e = Some h ->
  try_except body handler s = h s'.
Proof. intros H Hh. unfold try_except. by rewrite H, Hh. Qed.

Lemma try_except_passed (body : stx S A) handler s s' e :
  body s = (s', Raise e) -> handler e = None ->
  try_except body handler s = (s', Raise e).
Proof. intros H Hh. unfold try_except. by rewrite H, Hh. Qed.

End Combinators.

(** ** Lists *)

Lemma map_is_fmap {A B} (f : A -> B) (l : list A) : map f l = f <$> l.
Proof. induction l as [|x l IH]; [done|]. cbn. by rewrite IH. Qed.

(** ** Strings and regular expressions *)

Section RegexProperties.
Import PyStr Regex.

Lemma append_cons (c : ascii) (s1 s2 : string) :
  (String c s1 ++ s2)%string = String c (s1 ++ s2).
Proof. reflexivity. Qed.

Lemma append_nil_l (s : string) : ("" ++ s)%string = s.
Proof. reflexivity. Qed.

Lemma append_nil_r (s : string) : (s ++ "")%string = s.
Proof. induction s as [|c s IH]; [done|]. rewrite append_cons. by f_equal. Qed.

Lemma append_assoc (s1 s2 s3 : string) :
  ((s1 ++ s2) ++ s3)%string = (s1 ++ (s2 ++ s3))%string.
Proof. induction s1 as [|c s1 IH]; [done|]. rewrite !append_cons. by f_equal. Qed.

Lemma append_eq_nil (s1 s2 : string) :
  (s1 ++ s2)%string = "" -> s1 = "" /\ s2 = "".
Proof. destruct s1; [done|discriminate]. Qed.

(** [String.prefix] finds its first argument at the start of the second. *)
Lemma prefix_split (p s : string) :
  String.prefix p s = true <-> exists rest, s = (p ++ rest)%string.
Proof.
  revert p. induction s as [|c' s IH]; intros [|c p]; cbn [String.prefix].
  - split; [by exists ""|done].
  - split; [done | intros [rest Hrest]; discriminate].
  - split; [by exists (String c' s)|done].
  - destruct (Ascii.ascii_dec c c') as [->|Hne].
    + rewrite IH. split; intros [rest Hrest]; exists rest.
      * rewrite append_cons. congruence.
      * rewrite append_cons in Hrest. congruence.
    + split; [done|]. intros [rest Hrest]. rewrite append_cons in Hrest. congruence.
Qed.

(** [contains] finds the substring anywhere. *)
Lemma contains_split (p s : string) :
  contains p s = true <-> exists before rest, s = (before ++ p ++ rest)%string.
Proof.
  induction s as [|c s IH]; cbn [contains].
  - rewrite orb_false_r, prefix_split. split.
    + intros [rest Hrest]. by exists "", rest.
    + intros (before & rest & H). symmetry in H.
      apply append_eq_nil in H as [-> H]. eauto.
  - rewrite orb_true_iff, prefix_split, IH. split.
    + intros [[rest Hrest]|(before & rest & ->)].
      * by exists "", rest.
      * by exists (String c before), rest.
    + intros (before & rest & H). destruct before as [|c' before].
      * left. eauto.
      * right. rewrite append_cons in H. injection H as _ ->. eauto.
Qed.

Lemma nullable_matches (r : regex) : nullable r = true <-> matches r "".
Proof.
  induction r as [| |p|r1 IH1 r2 IH2|r1 IH1 r2 IH2|r IH]; cbn.
  - split; [done|]. inversion 1.
  - split; [constructor|done].
  - split; [done|]. inversion 1.
  - rewrite andb_true_iff, IH1, IH2. split.
    + intros [H1 H2]. exact (matches_cat _ _ "" "" H1 H2).
    + inversion 1 as [| |? ? s1 s2 H1 H2 [E1 E2] E3| | | |]; subst.
      apply append_eq_nil in E3 as [-> ->]. done.
  - rewrite orb_true_iff, IH1, IH2. split.
    + intros [H|H]; [by apply matches_alt_l | by apply matches_alt_r].
    + inversion 1; subst; eauto.
  - split; [constructor|done].
Qed.

(** A match of [Star r] on a string that starts with [c] begins with a
    match of [r] on a non-empty piece. *)
Lemma matches_star_cons (r : regex) (s : string) :
  matches (Star r) s ->
  forall c s', s = String c s' ->
  exists s1 s2, s' = (s1 ++ s2)%string /\ matches r (String c s1) /\ matches (Star r) s2.
Proof.
  intros H. remember (Star r) as r' eqn:Hr. revert r Hr.
  induction H as [| | | | | |r0 s1 s2 H1 _ H2 IH2]; intros q Hq a s' Hs; try discriminate.
  injection Hq as ->. destruct s1 as [|c1 s1].
  - rewrite append_nil_l in Hs. by apply IH2.
  - rewrite append_cons in Hs. injection Hs as -> <-. eauto.
Qed.

Lemma deriv_matches (c : ascii) (r : regex) (s : string) :
  matches (deriv c r) s <-> matches r (String c s).
Proof.
  revert s. induction r as [| |p|r1 IH1 r2 IH2|r1 IH1 r2 IH2|r IH]; intros s; cbn.
  - split; inversion 1.
  - split; inversion 1.
  - destruct (p c) eqn:Hp.
    + split.
      * inversion 1; subst. by constructor.
      * inversion 1; subst. constructor.
    + split; [inversion 1|]. inversion 1; subst. congruence.
  - assert (Hcat : matches (Cat (deriv c r1) r2) s <->
                   exists s1 s2, s = (s1 ++ s2)%string /\
                     matches r1 (String c s1) /\ matches r2 s2).
    { split.
      - inversion 1 as [| |? ? s1 s2 H1 H2| | | |]; subst.
        exists s1, s2. by rewrite <- IH1.
      - intros (s1 & s2 & -> & H1 & H2). apply matches_cat; [by apply IH1|done]. }
    assert (Hgoal : matches (Cat r1 r2) (String c s) <->
              (exists s1 s2, s = (s1 ++ s2)%string /\
                 matches r1 (String c s1) /\ matches r2 s2)
              \/ (matches r1 "" /\ matches r2 (String c s))).
    { split.
      - inversion 1 as [| |? ? s1 s2 H1 H2 [E1 E2] E3| | | |]; subst.
        destruct s1 as [|c1 s1].
        + rewrite append_nil_l in E3. right. by subst.
        + rewrite append_cons in E3. injection E3 as -> <-. left. eauto.
      - intros [(s1 & s2 & -> & H1 & H2)|[H1 H2]].
        + exact (matches_cat _ _ (String c s1) s2 H1 H2).
        + exact (matches_cat _ _ "" (String c s) H1 H2). }
    rewrite Hgoal. destruct (nullable r1) eqn:Hn.
    + split.
      * inversion 1; subst.
        -- left. by apply Hcat.
        -- right. split; [by apply nullable_matches | by apply IH2].
      * intros [H|[H1 H2]].
        -- apply matches_alt_l. by apply Hcat.
        -- apply matches_alt_r. by apply IH2.
    + rewrite Hcat. split; [eauto|].
      intros [H|[H1 H2]]; [done|].
      apply nullable_matches in H1. congruence.
  - split.
    + inversion 1; subst; [apply matches_alt_l | apply matches_alt_r]; by (apply IH1 || apply IH2).
    + inversion 1; subst; [apply matches_alt_l | apply matches_alt_r]; by (apply IH1 || apply IH2).
  - split.
    + inversion 1 as [| |? ? s1 s2 H1 H2| | | |]; subst.
      exact (matches_star_app _ (String c s1) s2 (proj1 (IH _) H1) H2).
    + intros H. destruct (matches_star_cons _ _ H c s eq_refl) as (s1 & s2 & -> & H1 & H2).
      apply matches_cat; [by apply IH|done].
Qed.

(** [match_prefix] finds a match at the start of the string. *)
Lemma match_prefix_matches (r : regex) (s : string) :
  match_prefix r s = true <->
  exists found rest, s = (found ++ rest)%string /\ matches r found.
Proof.
  revert r. induction s as [|c s IH]; intros r; cbn [match_prefix].
  - rewrite orb_false_r, nullable_matches. split.
    + intros H. by exists "", "".
    + intros (found & rest & H & Hm). symmetry in H.
      apply append_eq_nil in H as [-> _]. done.
  - rewrite orb_true_iff, nullable_matches, IH. split.
    + intros [H|(found & rest & -> & Hm)].
      * by exists "", (String c s).
      * exists (String c found), rest. split; [done|]. by apply deriv_matches.
    + intros (found & rest & H & Hm). destruct found as [|c' found].
      * by left.
      * right. rewrite append_cons in H. injection H as <- ->.
        exists found, rest. split; [done|]. by apply deriv_matches.
Qed.

(** [search] finds a match anywhere in the string. *)
Lemma search_matches (r : regex) (s : string) :
  search r s = true <->
  exists before found rest,
    s = (before ++ found ++ rest)%string /\ matches r found.
Proof.
  induction s as [|c s IH]; cbn [search].
  - rewrite orb_false_r, match_prefix_matches. split.
    + intros (found & rest & H & Hm). by exists "", found, rest.
    + intros (before & found & rest & H & Hm). symmetry in H.
      apply append_eq_nil in H as [-> H]. eauto.
  - rewrite orb_true_iff, match_prefix_matches, IH. split.
    + intros [(found & rest & H & Hm)|(before & found & rest & -> & Hm)].
      * by exists "", found, rest.
      * by exists (String c before), found, rest.
    + intros (before & found & rest & H & Hm). destruct before as [|c' before].
      * left. rewrite append_nil_l in H. eauto.
      * right. rewrite append_cons in H. injection H as _ ->. eauto.
Qed.

(** A literal matches itself and nothing else. *)
Lemma matches_lit (p s : string) : matches (lit p) s <-> s = p.
Proof.
  revert s. induction p as [|c p IH]; intros s; cbn.
  - split; [by inversion 1 | intros ->; constructor].
  - split.
    + inversion 1 as [| |? ? s1 s2 H1 H2| | | |]; subst.
      inversion H1 as [|? c' Hc| | | | |]; subst.
      apply IH in H2 as ->. unfold chr_eqb in Hc. apply Ascii.eqb_eq in Hc as ->. done.
    + intros ->. apply (matches_cat _ _ (String c "") p).
      * constructor. unfold chr_eqb. apply Ascii.eqb_refl.
      * by apply IH.
Qed.

(** The pattern of the insecure-randomness scan finds exactly the three
    spellings. *)
Lemma search_random_pattern (line : string) :
  search SecurityAgent.random_pattern line = true <->
  contains "random.randint" line = true
  \/ contains "random.choice" line = true
  \/ contains "random.random" line = true.
Proof.
  rewrite search_matches, !contains_split. unfold SecurityAgent.random_pattern. split.
  - intros (before & found & rest & -> & Hm).
    inversion Hm as [| |? ? s1 s2 H1 H2| | | |]; subst.
    apply (matches_lit "random.") in H1 as ->.
    inversion H2 as [| | |? ? ? H3|? ? ? H3| |]; subst.
    + apply (matches_lit "randint") in H3 as ->. left. by exists before, rest.
    + inversion H3 as [| | |? ? ? H4|? ? ? H4| |]; subst.
      * apply (matches_lit "choice") in H4 as ->. right; left. by exists before, rest.
      * apply (matches_lit "random") in H4 as ->. right; right. by exists before, rest.
  - intros [(before & rest & ->)|[(before & rest & ->)|(before & rest & ->)]].
    + exists before, "random.randint", rest. split; [done|].
      apply (matches_cat _ _ "random." "randint"); [by apply matches_lit|].
      apply matches_alt_l. by apply matches_lit.
    + exists before, "random.choice", rest. split; [done|].
      apply (matches_cat _ _ "random." "choice"); [by apply matches_lit|].
      apply matches_alt_r, matches_alt_l. by apply matches_lit.
    + exists before, "random.random", rest. split; [done|].
      apply (matches_cat _ _ "random." "random"); [by apply matches_lit|].
      apply matches_alt_r, matches_alt_r. by apply matches_lit.
Qed.

End RegexProperties.

(** ** The base agent *)

Section BaseAgentProperties.
Import Schemas Exceptions BaseAgent.

Lemma review_try_ok (self : Agent) code file_path found l :
  analyze self code file_path = Ok found ->
  review_try self code file_path l =
    ({| local_issues := found; local_error_message := local_error_message l;
        local_success := local_success l |}, Ok tt).
Proof.
  intros H. unfold review_try, try_except, mbind, stx_bind, lift, modify.
  by rewrite H.
Qed.

Lemma review_try_raise (self : Agent) code file_path e l :
  analyze self code file_path = Raise e ->
  review_try self code file_path l =
    ({| local_issues := local_issues l; local_error_message := Some (str e);
        local_success := false |}, Ok tt).
Proof.
  intros H. unfold review_try, try_except, mbind, stx_bind, lift, modify.
  by rewrite H.
Qed.




End BaseAgentProperties.

(** ** The orchestrator *)

Section OrchestratorProperties.
Import Schemas Exceptions BaseAgent Orchestrator Statements.

Lemma agents_lookup (w : World) (t : AgentType) :
  agents (new w) !! t = Some (running w (agent_of w t)).
Proof. by destruct t. Qed.

Lemma agent_of_type (w : World) (t : AgentType) : self_agent_type (agent_of w t) = t.
Proof. by destruct t. Qed.

Lemma review_agent_type (self : Agent) t0 t1 code file_path r :
  BaseAgent.review self t0 t1 code file_path = Ok r ->
  agent_type r = self_agent_type self.
Proof.
  unfold BaseAgent.review.
  destruct (review_try self code file_path _) as [locals [[]|e]]; cbn; [|done].
  by intros [= <-].
Qed.

Lemma outcome_of_type (w : World) code file_path (t : AgentType) :
  agent_type (outcome_of w code file_path t) = t.
Proof.
  unfold outcome_of, running; cbn.
  destruct (clock w _ code file_path) as [t0 t1].
  destruct (BaseAgent.review _ t0 t1 code file_path) as [r|e] eqn:Hr; [|done].
  apply review_agent_type in Hr. by rewrite Hr, agent_of_type.
Qed.

Lemma review_code_outcomes (w : World) code file_path (given : list AgentType) :
  imap (fun i result =>
          match result with
          | Raise e => failed_result (given !!! i) e
          | Ok r => r
          end)
       (omap (fun agent_type =>
                (fun agent => review agent code file_path)
                  <$> agents (new w) !! agent_type) given)
  = map (outcome_of w code file_path) given.
Proof.
  assert (Hom : omap (fun agent_type =>
                        (fun agent => review agent code file_path)
                          <$> agents (new w) !! agent_type) given
                = (fun t => review (running w (agent_of w t)) code file_path) <$> given).
  { induction given as [|t l IH]; [done|].
    cbn [omap list_omap]. rewrite agents_lookup. cbn [fmap option_fmap option_map].
    cbn [omap] in IH. rewrite IH. done. }
  rewrite Hom, imap_fmap, map_is_fmap.
  rewrite <- (imap_const (outcome_of w code file_path) given).
  apply imap_ext. intros i t Hi. cbn.
  unfold outcome_of. by rewrite (list_lookup_total_correct _ _ _ Hi).
Qed.

(** C2, as the code has it.  With [agent_types] absent, [review_code]
    returns the results of the four agents in the order quality, security,
    performance, documentation.  With a list given, it returns one result
    per element of the list, in the order of the list, each carrying the
    agent type asked for; an empty list yields an empty list of results and
    is not replaced by the four types. *)
Theorem C2_review_code_follows_given_order
    (w : World) (code file_path : string) :
  review_code (new w) code file_path None
    = map (outcome_of w code file_path) [QUALITY; SECURITY; PERFORMANCE; DOCUMENTATION] /\
  (forall given : list AgentType,
     review_code (new w) code file_path (Some given)
       = map (outcome_of w code file_path) given /\
     map agent_type (review_code (new w) code file_path (Some given)) = given) /\
  map agent_type (review_code (new w) code file_path None)
    = [QUALITY; SECURITY; PERFORMANCE; DOCUMENTATION] /\
  review_code (new w) code file_path (Some []) = [].
Proof.
  assert (Htypes : forall l, map agent_type (map (outcome_of w code file_path) l) = l).
  { intros l. rewrite map_map. rewrite <- (map_id l) at 2.
    apply map_ext. intros t. apply outcome_of_type. }
  assert (Hgiven : forall given,
            review_code (new w) code file_path (Some given)
              = map (outcome_of w code file_path) given).
  { intros given. unfold review_code. apply review_code_outcomes. }
  assert (Hnone : review_code (new w) code file_path None
                    = map (outcome_of w code file_path) list_AgentType).
  { unfold review_code. apply review_code_outcomes. }
  split; [exact Hnone|]. split; [|split].
  - intros given. split; [apply Hgiven|]. rewrite Hgiven. apply Htypes.
  - rewrite Hnone. apply Htypes.
  - apply Hgiven.
Qed.

(** C2, as the specification states it, fails: called with the empty list the
    orchestrator runs no agent at all instead of all four. *)
Lemma C2_counterexample :
  review_code (new Examples.world0) Examples.code_b "b.py" (Some []) = [] /\
  map agent_type (review_code (new Examples.world0) Examples.code_b "b.py" (Some []))
    <> [QUALITY; SECURITY; PERFORMANCE; DOCUMENTATION].
Proof. split; [reflexivity | discriminate]. Qed.

End OrchestratorProperties.

(** ** The documentation agent *)

Section DocumentationAgentProperties.
Import Schemas Exceptions BaseAgent DocumentationAgent.

(** When the parser returns a tree the four checks run in order and their
    issues are concatenated. *)
Lemma analyze_parsed (ast_parse : parser) code file_path tree :
  ast_parse code = Ok tree ->
  analyze ast_parse code file_path =
    Ok (_check_module_docstring code file_path
          ++ _check_function_docstrings tree code
          ++ _check_class_docstrings tree code
          ++ _check_complex_code_comments tree code)%list.
Proof.
  intros H. unfold analyze, analyze_body, try_except, mbind, stx_bind, lift, extend,
    modify, get. rewrite H. cbn. by rewrite <- !app_assoc.
Qed.

(** C8, as the code has it.  When [ast.parse] raises on the source text,
    what [analyze] does depends on the class of the exception.  For a
    [SyntaxError] it returns exactly one issue: severity HIGH, type
    [syntax_error], suggestion ["Fix syntax errors first"]; nothing from the
    module-docstring, function-docstring, class-docstring and complex-code
    checks is in the list.  Any other exception is not caught: [analyze]
    raises it and returns no issue. *)
Theorem C8_syntax_error_yields_single_issue
    (ast_parse : parser) (code file_path : string) (e : exn) :
  ast_parse code = Raise e ->
  (exn_class e = SyntaxError ->
   exists issue,
     analyze ast_parse code file_path = Ok [issue] /\
     severity issue = HIGH /\
     issue_type issue = "syntax_error" /\
     suggestion issue = Some "Fix syntax errors first") /\
  (exn_class e <> SyntaxError ->
   analyze ast_parse code file_path = Raise e).
Proof.
  intros Hparse.
  assert (Hrun : analyze ast_parse code file_path =
                 if decide (exn_class e = SyntaxError)
                 then Ok [syntax_error_issue] else Raise e).
  { unfold analyze, analyze_body, try_except, mbind, stx_bind, lift, extend, modify, get.
    rewrite Hparse. cbn. by destruct (decide (exn_class e = SyntaxError)). }
  split; intros Hclass; rewrite Hrun.
  - rewrite decide_True by done. exists syntax_error_issue. by repeat split.
  - by rewrite decide_False.
Qed.

Lemma C8_witness :
  let ast_parse : parser := fun _ => Raise (mkExn SyntaxError "invalid syntax") in
  ast_parse "def f(:" = Raise (mkExn SyntaxError "invalid syntax") /\
  exn_class (mkExn SyntaxError "invalid syntax") = SyntaxError /\
  exists issue,
    analyze ast_parse "def f(:" "bad.py" = Ok [issue] /\
    severity issue = HIGH /\
    issue_type issue = "syntax_error" /\
    suggestion issue = Some "Fix syntax errors first".
Proof.
  intros ast_parse. split; [reflexivity|]. split; [reflexivity|].
  apply (C8_syntax_error_yields_single_issue ast_parse "def f(:" "bad.py"
           (mkExn SyntaxError "invalid syntax")); reflexivity.
Defined.

(** C8, as the specification states it, fails: on a source text for which
    the parser gives up with an exception that is no [SyntaxError], here the
    one raised when the recursion limit is reached, [analyze] returns no
    list of issues at all but raises that exception. *)
Lemma C8_counterexample :
  Orchestrator.ast_parse Examples.world0 Examples.code_a
    = Raise (mkExn RuntimeError "maximum recursion depth exceeded") /\
  analyze (Orchestrator.ast_parse Examples.world0) Examples.code_a "a.py"
    = Raise (mkExn RuntimeError "maximum recursion depth exceeded") /\
  (forall issue,
     analyze (Orchestrator.ast_parse Examples.world0) Examples.code_a "a.py"
       <> Ok [issue]).
Proof. split; [reflexivity|]. split; [reflexivity|]. intros issue. discriminate. Qed.

End DocumentationAgentProperties.

(** ** Clearing the reviews *)

Section ClearProperties.
Import Schemas Exceptions Database Reviews.

(** C9. Served on any database, [clear_all_reviews] sends two bulk
    statements, first the one that deletes every row of [review_results]
    and then the one that deletes every row of [reviews], and commits.
    Between the two statements the results are gone and the reviews still
    there; afterwards both tables are empty, the repositories (and the two
    tables no route writes) are as before, and the payload reports success
    with the numbers of reviews and of review results the database held.
    On a database without reviews and results both numbers are 0. *)
Theorem C9_clear_all_reviews (db : Tables) :
  exists (s1 s : Session) (payload : ClearResponse),
    clear_all_reviews (open_session db) = (s, Ok payload) /\
    statements s = [DeleteFrom ReviewResultTable; DeleteFrom ReviewTable] /\
    delete_all_review_results (open_session db)
      = (s1, Ok (length (review_results db))) /\
    statements s1 = [DeleteFrom ReviewResultTable] /\
    review_results (working s1) = [] /\
    reviews (working s1) = reviews db /\
    serve clear_all_reviews db = (committed s, Ok payload) /\
    working s = committed s /\
    review_results (committed s) = [] /\
    reviews (committed s) = [] /\
    repositories (committed s) = repositories db /\
    agent_metrics (committed s) = agent_metrics db /\
    feedback (committed s) = feedback db /\
    clear_success payload = true /\
    deleted_reviews payload = length (reviews db) /\
    deleted_results payload = length (review_results db) /\
    (reviews db = [] -> review_results db = [] ->
     deleted_reviews payload = 0%nat /\ deleted_results payload = 0%nat).
Proof.
  eexists _, _, _. split; [reflexivity|]. split; [reflexivity|].
  split; [reflexivity|]. split; [reflexivity|]. split; [reflexivity|].
  split; [reflexivity|]. split; [reflexivity|]. split; [reflexivity|].
  cbn. repeat (split; [reflexivity|]).
  intros -> ->. done.
Qed.

Lemma C9_witness :
  let db := {| repositories := [mkRepository 1 "r" "https://github.com/o/r" "github" "o"];
               reviews := []; review_results := [];
               agent_metrics := []; feedback := [] |} in
  reviews db = [] /\ review_results db = [] /\
  exists s payload,
    clear_all_reviews (open_session db) = (s, Ok payload) /\
    statements s = [DeleteFrom ReviewResultTable; DeleteFrom ReviewTable] /\
    serve clear_all_reviews db = (db, Ok payload) /\
    deleted_reviews payload = 0%nat /\ deleted_results payload = 0%nat.
Proof.
  intros db. split; [reflexivity|]. split; [reflexivity|].
  destruct (C9_clear_all_reviews db)
    as (s1 & s & payload & Hrun & Hsent & _ & _ & _ & _ & Hserve & _ & Hresults
        & Hreviews & Hrepos & Hmetrics & Hfeedback & _ & _ & _ & Hzero).
  exists s, payload. split; [exact Hrun|]. split; [exact Hsent|].
  split; [|apply Hzero; reflexivity].
  rewrite Hserve. f_equal.
  destruct (committed s) as [repos revs results metrics fb].
  cbn in Hresults, Hreviews, Hrepos, Hmetrics, Hfeedback. by subst.
Defined.

End ClearProperties.

(** ** The complexity thresholds of the quality and performance agents *)

Section ComplexityProperties.
Import Schemas Exceptions BaseAgent ToolReports Statements.

Lemma radon_metadata_complexity (a b c : json) :
  ({[ "tool" := a; "complexity" := b; "function" := c ]} : gmap string json)
    !! "complexity" = Some b.
Proof. rewrite lookup_insert_ne by done. apply lookup_insert_eq. Qed.

Lemma quality_issue_complexity func c func' c' :
  QualityAgent.complexity_issue func c = QualityAgent.complexity_issue func' c' ->
  c = c'.
Proof.
  intros H.
  apply (f_equal (fun i => match metadata i with
                           | Some m => m !! "complexity"
                           | None => None
                           end)) in H.
  cbv [QualityAgent.complexity_issue _create_issue metadata from_option id] in H.
  rewrite !radon_metadata_complexity in H. congruence.
Qed.

Lemma performance_issue_complexity func c func' c' :
  PerformanceAgent.complexity_issue func c = PerformanceAgent.complexity_issue func' c' ->
  c = c'.
Proof.
  intros H.
  apply (f_equal (fun i => match metadata i with
                           | Some m => m !! "complexity"
                           | None => None
                           end)) in H.
  cbv [PerformanceAgent.complexity_issue _create_issue metadata from_option id] in H.
  rewrite !radon_metadata_complexity in H. congruence.
Qed.

(** What the radon loop of the quality agent emits: for a successful
    report, the issues of the function entries above the threshold. *)
Lemma quality_radon_issues_in (report : RadonReport) (issue : Issue) :
  In issue (QualityAgent.radon_issues report) <->
  radon_success report = true /\
  exists key functions func,
    In (key, RadonFunctions functions) (radon_complexity report) /\
    In func functions /\
    10 < default 0 (rf_complexity func) /\
    issue = QualityAgent.complexity_issue func (default 0 (rf_complexity func)).
Proof.
  unfold QualityAgent.radon_issues. destruct (radon_success report); cbn.
  2: { split; [done | by intros [? _]]. }
  rewrite in_concat. split.
  - intros (l & Hl & Hin). apply in_map_iff in Hl as ([key entry] & <- & Hentry).
    unfold QualityAgent.radon_file_issues in Hin. cbn in Hin.
    destruct entry as [functions|other]; [|done].
    apply in_concat in Hin as (l' & Hl' & Hin').
    apply in_map_iff in Hl' as (func & <- & Hfunc).
    unfold QualityAgent.radon_function_issues in Hin'.
    destruct (10 <? default 0 (rf_complexity func)) eqn:Hc; [|done].
    destruct Hin' as [<-|[]]. split; [done|].
    exists key, functions, func. repeat split; try done. by apply Z.ltb_lt.
  - intros (_ & key & functions & func & Hentry & Hfunc & Hc & ->).
    exists (QualityAgent.radon_file_issues (key, RadonFunctions functions)).
    split; [apply in_map_iff; eauto|].
    unfold QualityAgent.radon_file_issues. cbn. apply in_concat.
    exists (QualityAgent.radon_function_issues func).
    split; [apply in_map_iff; eauto|].
    unfold QualityAgent.radon_function_issues.
    apply Z.ltb_lt in Hc. rewrite Hc. by left.
Qed.

Lemma performance_radon_issues_in (report : RadonReport) (issue : Issue) :
  In issue (PerformanceAgent.radon_issues report) <->
  radon_success report = true /\
  exists key functions func,
    In (key, RadonFunctions functions) (radon_complexity report) /\
    In func functions /\
    15 < default 0 (rf_complexity func) /\
    issue = PerformanceAgent.complexity_issue func (default 0 (rf_complexity func)).
Proof.
  unfold PerformanceAgent.radon_issues. destruct (radon_success report); cbn.
  2: { split; [done | by intros [? _]]. }
  rewrite in_concat. split.
  - intros (l & Hl & Hin). apply in_map_iff in Hl as ([key entry] & <- & Hentry).
    unfold PerformanceAgent.radon_file_issues in Hin. cbn in Hin.
    destruct entry as [functions|other]; [|done].
    apply in_concat in Hin as (l' & Hl' & Hin').
    apply in_map_iff in Hl' as (func & <- & Hfunc).
    unfold PerformanceAgent.radon_function_issues in Hin'.
    destruct (15 <? default 0 (rf_complexity func)) eqn:Hc; [|done].
    destruct Hin' as [<-|[]]. split; [done|].
    exists key, functions, func. repeat split; try done. by apply Z.ltb_lt.
  - intros (_ & key & functions & func & Hentry & Hfunc & Hc & ->).
    exists (PerformanceAgent.radon_file_issues (key, RadonFunctions functions)).
    split; [apply in_map_iff; eauto|].
    unfold PerformanceAgent.radon_file_issues. cbn. apply in_concat.
    exists (PerformanceAgent.radon_function_issues func).
    split; [apply in_map_iff; eauto|].
    unfold PerformanceAgent.radon_function_issues.
    apply Z.ltb_lt in Hc. rewrite Hc. by left.
Qed.

(** The tool named in the metadata tells the issues of the three loops of
    the quality agent apart. *)
Lemma tool_of_pylint_issue (item : PylintItem) :
  tool_of (QualityAgent.pylint_issue item) = Some (JStr "pylint").
Proof. cbv [tool_of QualityAgent.pylint_issue _create_issue metadata]. cbn [default from_option id]. apply lookup_insert_eq. Qed.

Lemma tool_of_flake8_issue (item : Flake8Item) :
  tool_of (QualityAgent.flake8_issue item) = Some (JStr "flake8").
Proof. cbv [tool_of QualityAgent.flake8_issue _create_issue metadata]. cbn [default from_option id]. apply lookup_singleton_eq. Qed.

Lemma tool_of_quality_complexity_issue (func : RadonFunction) (c : Z) :
  tool_of (QualityAgent.complexity_issue func c) = Some (JStr "radon").
Proof. cbv [tool_of QualityAgent.complexity_issue _create_issue metadata]. cbn [default from_option id]. apply lookup_insert_eq. Qed.

(** Membership in a list that a successful run has extended. *)
Lemma in_if_app {A} (b : bool) (l m : list A) (x : A) :
  In x (if b then (l ++ m)%list else l) <-> In x l \/ (b = true /\ In x m).
Proof.
  destruct b; [rewrite in_app_iff|]; split.
  - intros [H|H]; [by left|by right].
  - intros [H|[_ H]]; [by left|by right].
  - by left.
  - intros [H|[? _]]; done.
Qed.

(** The list [analyze] of the quality agent returns: the issues of the
    pylint findings and of the flake8 findings, each when the run
    succeeded, and the issues of the radon loop. *)
Lemma quality_analyze_in (tools : Tools) (code file_path : string) (issue : Issue) :
  exists found,
    QualityAgent.analyze tools code file_path = Ok found /\
    (In issue found <->
     (rep_success (pylint tools code file_path) = true /\
      exists item, In item (rep_issues (pylint tools code file_path)) /\
                   issue = QualityAgent.pylint_issue item)
     \/ (rep_success (flake8 tools code file_path) = true /\
         exists item, In item (rep_issues (flake8 tools code file_path)) /\
                      issue = QualityAgent.flake8_issue item)
     \/ In issue (QualityAgent.radon_issues (radon tools code file_path))).
Proof.
  unfold QualityAgent.analyze. eexists. split; [reflexivity|].
  rewrite in_app_iff, !in_if_app, !in_map_iff. cbn [In]. split.
  - intros [[[[]|(Hs & item & <- & Hin)]|(Hs & item & <- & Hin)]|Hin].
    + left. eauto.
    + right. left. eauto.
    + right. by right.
  - intros [(Hs & item & Hin & ->)|[(Hs & item & Hin & ->)|Hin]].
    + left. left. right. eauto.
    + left. right. eauto.
    + by right.
Qed.

(** The four line checks of the performance agent emit no issue of type
    [high_complexity]. *)
Lemma in_concat_map_iff {A B} (f : A -> list B) (l : list A) (y : B) :
  In y (concat (map f l)) <-> exists x, In x l /\ In y (f x).
Proof.
  rewrite in_concat. split.
  - intros (l' & Hl' & Hy). apply in_map_iff in Hl' as (x & <- & Hx). eauto.
  - intros (x & Hx & Hy). exists (f x). split; [|done]. apply in_map_iff. eauto.
Qed.

Lemma nested_loops_step_types (st : PerformanceAgent.loop_state) (entry : nat * string) :
  List.Forall (fun i => issue_type i = "nested_loops") (PerformanceAgent.found st) ->
  List.Forall (fun i => issue_type i = "nested_loops")
    (PerformanceAgent.found (PerformanceAgent.nested_loops_step st entry)).
Proof.
  intros Hst. unfold PerformanceAgent.nested_loops_step. destruct entry as [line_num line].
  repeat match goal with
         | |- context [if ?b then _ else _] => destruct b
         end; cbn [PerformanceAgent.found]; try done.
  apply List.Forall_app. split; [done|]. by constructor.
Qed.

Lemma nested_loops_types (code file_path : string) (issue : Issue) :
  In issue (PerformanceAgent._check_nested_loops code file_path) ->
  issue_type issue = "nested_loops".
Proof.
  unfold PerformanceAgent._check_nested_loops.
  assert (Hfold : forall l st,
            List.Forall (fun i => issue_type i = "nested_loops") (PerformanceAgent.found st) ->
            List.Forall (fun i => issue_type i = "nested_loops")
              (PerformanceAgent.found (fold_left PerformanceAgent.nested_loops_step l st))).
  { induction l as [|entry l IH]; intros st Hst; [done|].
    cbn [fold_left]. apply IH. by apply nested_loops_step_types. }
  intros Hin.
  pose proof (Hfold (PyStr.enumerate 1 (PyStr.split PyStr.newline code))
                (PerformanceAgent.mkLoopState 0 0 0 []) (@List.Forall_nil _ _)) as Hall.
  rewrite List.Forall_forall in Hall. by apply Hall.
Qed.

Lemma performance_line_checks_types (code file_path : string) (issue : Issue) :
  In issue (PerformanceAgent._check_nested_loops code file_path
            ++ PerformanceAgent._check_string_concatenation code file_path
            ++ PerformanceAgent._check_list_comprehension_opportunities code file_path
            ++ PerformanceAgent._check_inefficient_operations code file_path)%list ->
  issue_type issue <> "high_complexity".
Proof.
  rewrite !in_app_iff. intros [Hin|[Hin|[Hin|Hin]]].
  - apply nested_loops_types in Hin. by rewrite Hin.
  - unfold PerformanceAgent._check_string_concatenation in Hin.
    apply in_concat_map_iff in Hin as ([line_num line] & _ & Hin).
    repeat match type of Hin with
           | context [if ?b then _ else _] => destruct b
           end; cbn [In] in Hin; try done.
    by destruct Hin as [<-|[]].
  - unfold PerformanceAgent._check_list_comprehension_opportunities in Hin.
    apply in_concat_map_iff in Hin as ([i line] & _ & Hin).
    repeat match type of Hin with
           | context [if ?b then _ else _] => destruct b
           | context [match ?o with Some _ => _ | None => _ end] => destruct o
           end; cbn [In] in Hin; try done.
    by destruct Hin as [<-|[]].
  - unfold PerformanceAgent._check_inefficient_operations in Hin.
    apply in_concat_map_iff in Hin as ([line_num line] & _ & Hin).
    apply in_concat_map_iff in Hin as ([pattern suggestion] & _ & Hin).
    destruct (Regex.search pattern line); cbn [In] in Hin; [|done].
    by destruct Hin as [<-|[]].
Qed.

(** C5. Take a function entry of the complexity report radon returned
    with success for the code under review, and let [complexity] be its
    complexity value.  The list of issues the quality agent's [analyze]
    returns holds the entry's [high_complexity] issue, of severity MEDIUM,
    exactly when [complexity > 10]; the list the performance agent's
    [analyze] returns holds the entry's [high_complexity] issue, of
    severity HIGH, exactly when [complexity > 15].  Nothing else in the two
    lists comes from radon: an issue of the quality agent that names radon
    as its tool, and an issue of the performance agent of type
    [high_complexity], is the issue of an entry of the report above the
    threshold of the agent. *)
Theorem C5_complexity_thresholds
    (tools : Tools) (code file_path : string)
    (key : string) (functions : list RadonFunction) (func : RadonFunction) :
  let report := radon tools code file_path in
  let complexity := default 0 (rf_complexity func) in
  radon_success report = true ->
  In (key, RadonFunctions functions) (radon_complexity report) ->
  In func functions ->
  exists quality performance,
    QualityAgent.analyze tools code file_path = Ok quality /\
    PerformanceAgent.analyze tools code file_path = Ok performance /\
    (In (QualityAgent.complexity_issue func complexity) quality <-> 10 < complexity) /\
    severity (QualityAgent.complexity_issue func complexity) = MEDIUM /\
    issue_type (QualityAgent.complexity_issue func complexity) = "high_complexity" /\
    (In (PerformanceAgent.complexity_issue func complexity) performance
       <-> 15 < complexity) /\
    severity (PerformanceAgent.complexity_issue func complexity) = HIGH /\
    issue_type (PerformanceAgent.complexity_issue func complexity) = "high_complexity" /\
    (forall issue,
       In issue quality -> tool_of issue = Some (JStr "radon") ->
       exists key' functions' func',
         In (key', RadonFunctions functions') (radon_complexity report) /\
         In func' functions' /\
         10 < default 0 (rf_complexity func') /\
         issue = QualityAgent.complexity_issue func' (default 0 (rf_complexity func'))) /\
    (forall issue,
       In issue performance -> issue_type issue = "high_complexity" ->
       exists key' functions' func',
         In (key', RadonFunctions functions') (radon_complexity report) /\
         In func' functions' /\
         15 < default 0 (rf_complexity func') /\
         issue = PerformanceAgent.complexity_issue func'
                   (default 0 (rf_complexity func'))).
Proof.
  intros report complexity Hsuccess Hentry Hfunc.
  assert (Hquality : forall issue found,
            QualityAgent.analyze tools code file_path = Ok found ->
            tool_of issue = Some (JStr "radon") ->
            (In issue found <-> In issue (QualityAgent.radon_issues report))).
  { intros issue found Hfound Htool.
    destruct (quality_analyze_in tools code file_path issue) as (found' & Hfound' & Hin).
    rewrite Hfound in Hfound'. injection Hfound' as <-. rewrite Hin. split.
    - intros [(_ & item & _ & ->)|[(_ & item & _ & ->)|Hradon]]; [| |done].
      + rewrite tool_of_pylint_issue in Htool. discriminate.
      + rewrite tool_of_flake8_issue in Htool. discriminate.
    - intros Hradon. right. by right. }
  assert (Hperformance : forall issue,
            issue_type issue = "high_complexity" ->
            (In issue (PerformanceAgent.radon_issues report
                       ++ PerformanceAgent._check_nested_loops code file_path
                       ++ PerformanceAgent._check_string_concatenation code file_path
                       ++ PerformanceAgent._check_list_comprehension_opportunities
                            code file_path
                       ++ PerformanceAgent._check_inefficient_operations code file_path)%list
             <-> In issue (PerformanceAgent.radon_issues report))).
  { intros issue Htype. rewrite in_app_iff. split; [|by left].
    intros [Hradon|Hline]; [done|].
    by apply performance_line_checks_types in Hline. }
  eexists _, (PerformanceAgent.radon_issues report
              ++ PerformanceAgent._check_nested_loops code file_path
              ++ PerformanceAgent._check_string_concatenation code file_path
              ++ PerformanceAgent._check_list_comprehension_opportunities code file_path
              ++ PerformanceAgent._check_inefficient_operations code file_path)%list.
  split; [reflexivity|].
  split; [unfold PerformanceAgent.analyze; fold report; cbn [app];
          by rewrite <- !app_assoc|].
  split; [|split; [done|split; [done|split; [|split; [done|split; [done|split]]]]]].
  - rewrite (Hquality _ _ eq_refl (tool_of_quality_complexity_issue _ _)).
    rewrite quality_radon_issues_in. split.
    + intros (_ & key' & functions' & func' & _ & _ & Hc & Heq).
      apply quality_issue_complexity in Heq. unfold complexity in *. by rewrite Heq.
    + intros Hc. split; [done|]. by exists key, functions, func.
  - rewrite (Hperformance (PerformanceAgent.complexity_issue func complexity) eq_refl).
    rewrite performance_radon_issues_in. split.
    + intros (_ & key' & functions' & func' & _ & _ & Hc & Heq).
      apply performance_issue_complexity in Heq. unfold complexity in *. by rewrite Heq.
    + intros Hc. split; [done|]. by exists key, functions, func.
  - intros issue Hin Htool.
    apply (Hquality _ _ eq_refl Htool) in Hin.
    apply quality_radon_issues_in in Hin as (_ & Hin). exact Hin.
  - intros issue Hin Htype.
    apply (Hperformance _ Htype) in Hin.
    apply performance_radon_issues_in in Hin as (_ & Hin). exact Hin.
Qed.

Lemma C5_witness :
  let report := radon Examples.tools_radon "def handle(): pass" "t.py" in
  radon_success report = true /\
  In ("/tmp/tmpab12cd.py", RadonFunctions [Examples.radon_function11])
     (radon_complexity report) /\
  In Examples.radon_function11 [Examples.radon_function11] /\
  exists quality performance,
    QualityAgent.analyze Examples.tools_radon "def handle(): pass" "t.py" = Ok quality /\
    PerformanceAgent.analyze Examples.tools_radon "def handle(): pass" "t.py"
      = Ok performance /\
    In (QualityAgent.complexity_issue Examples.radon_function11 11) quality /\
    ~ In (PerformanceAgent.complexity_issue Examples.radon_function11 11) performance.
Proof.
  intros report.
  assert (Hentry : In ("/tmp/tmpab12cd.py", RadonFunctions [Examples.radon_function11])
                      (radon_complexity report)) by (left; reflexivity).
  assert (Hfunc : In Examples.radon_function11 [Examples.radon_function11])
    by (left; reflexivity).
  split; [reflexivity|]. split; [exact Hentry|]. split; [exact Hfunc|].
  destruct (C5_complexity_thresholds Examples.tools_radon "def handle(): pass" "t.py"
              "/tmp/tmpab12cd.py" [Examples.radon_function11] Examples.radon_function11
              eq_refl Hentry Hfunc)
    as (quality & performance & Hq & Hp & Hquality & _ & _ & Hperformance & _).
  exists quality, performance. split; [exact Hq|]. split; [exact Hp|]. split.
  - apply Hquality. reflexivity.
  - intros Hin. apply Hperformance in Hin. discriminate Hin.
Defined.

End ComplexityProperties.

(** ** [enumerate] *)

Section EnumerateProperties.
Import PyStr.
Context {A : Type}.

Lemma enumerate_in (start : nat) (l : list A) (n : nat) (x : A) :
  In (n, x) (enumerate start l) <-> (start <= n)%nat /\ l !! (n - start)%nat = Some x.
Proof.
  revert start. induction l as [|y l IH]; intros start; cbn.
  - split; [done | by intros [_ ?]].
  - rewrite IH. split.
    + intros [[= <- <-]|[Hle Hl]].
      * split; [lia|]. by rewrite Nat.sub_diag.
      * split; [lia|]. replace (n - start)%nat with (S (n - S start)) by lia. done.
    + intros [Hle Hl]. destruct (decide (n = start)) as [->|Hne].
      * left. rewrite Nat.sub_diag in Hl. cbn in Hl. congruence.
      * right. split; [lia|].
        replace (n - start)%nat with (S (n - S start)) in Hl by lia. done.
Qed.

Lemma enumerate_functional (start : nat) (l : list A) (n : nat) (x y : A) :
  In (n, x) (enumerate start l) -> In (n, y) (enumerate start l) -> x = y.
Proof. rewrite !enumerate_in. intros [_ Hx] [_ Hy]. congruence. Qed.

End EnumerateProperties.

(** ** The security agent: insecure randomness *)

Section InsecureRandomProperties.
Import PyStr Schemas Exceptions BaseAgent SecurityAgent Statements.

(** What the scan emits: the issue of each line that meets the three
    conditions. *)
Lemma insecure_random_in (code file_path : string) (issue : Issue) :
  In issue (_check_insecure_random code file_path) <->
  exists line_num line,
    In (line_num, line) (enumerate 1 (split newline code)) /\
    Regex.search random_pattern line = true /\
    contains "secrets" (lower code) = false /\
    existsb (fun keyword => contains keyword (lower line)) security_keywords = true /\
    issue = insecure_random_issue line_num line.
Proof.
  unfold _check_insecure_random. rewrite in_concat. split.
  - intros (l & Hl & Hin). apply in_map_iff in Hl as ([line_num line] & <- & Hline).
    cbn beta iota in Hin.
    destruct (Regex.search random_pattern line) eqn:Hre; cbn [andb negb] in Hin; [|done].
    destruct (contains "secrets" (lower code)) eqn:Hsec; cbn [andb negb] in Hin; [done|].
    destruct (existsb _ security_keywords) eqn:Hkw; [|done].
    destruct Hin as [<-|[]]. by exists line_num, line.
  - intros (line_num & line & Hline & Hre & Hsec & Hkw & ->).
    eexists. split.
    + apply in_map_iff. exists (line_num, line). split; [reflexivity|done].
    + cbn beta iota. rewrite Hre, Hsec. cbn [negb andb]. rewrite Hkw. by left.
Qed.

(** The other three sources of issues of the security agent never yield
    the issue of the insecure-randomness scan: a bandit finding names its
    tool, the two other scans have types of their own. *)
Lemma tool_of_bandit_issue (item : ToolReports.BanditItem) :
  tool_of (bandit_issue item) = Some (JStr "bandit").
Proof.
  cbv [tool_of bandit_issue _create_issue metadata].
  cbn [default from_option id]. apply lookup_insert_eq.
Qed.

Lemma tool_of_insecure_random_issue (line_num : nat) (line : string) :
  tool_of (insecure_random_issue line_num line) = None.
Proof.
  cbv [tool_of insecure_random_issue _create_issue metadata].
  cbn [default from_option id]. by apply lookup_singleton_ne.
Qed.

Lemma hardcoded_secrets_types (code file_path : string) (issue : Issue) :
  In issue (_check_hardcoded_secrets code file_path) ->
  issue_type issue = "hardcoded_secret".
Proof.
  unfold _check_hardcoded_secrets. rewrite in_concat.
  intros (l & Hl & Hin). apply in_map_iff in Hl as ([line_num line] & <- & _).
  apply in_concat in Hin as (l & Hl & Hin).
  apply in_map_iff in Hl as ([name message] & <- & _).
  destruct (Regex.search (secret_pattern name) line); [|done].
  by destruct Hin as [<-|[]].
Qed.

Lemma sql_injection_types (code file_path : string) (issue : Issue) :
  In issue (_check_sql_injection code file_path) ->
  issue_type issue = "sql_injection".
Proof.
  unfold _check_sql_injection. rewrite in_concat.
  intros (l & Hl & Hin). apply in_map_iff in Hl as ([line_num line] & <- & _).
  destruct (Regex.search sql_pattern line); [by destruct Hin as [<-|[]]|].
  destruct (Regex.search sql_f_string line); [|done].
  by destruct Hin as [<-|[]].
Qed.

(** The list [analyze] of the security agent returns: the issues of the
    bandit findings when the run succeeded, and those of the three scans. *)
Lemma security_analyze_in (tools : ToolReports.Tools) (code file_path : string)
    (issue : Issue) :
  exists found,
    analyze tools code file_path = Ok found /\
    (In issue found <->
     (ToolReports.rep_success (ToolReports.bandit tools code file_path) = true /\
      exists item,
        In item (ToolReports.rep_issues (ToolReports.bandit tools code file_path)) /\
        issue = bandit_issue item)
     \/ In issue (_check_hardcoded_secrets code file_path)
     \/ In issue (_check_sql_injection code file_path)
     \/ In issue (_check_insecure_random code file_path)).
Proof.
  unfold analyze. eexists. split; [reflexivity|].
  rewrite !in_app_iff, in_if_app, in_map_iff. cbn [In]. split.
  - intros [[[[[]|(Hs & item & <- & Hin)]|Hin]|Hin]|Hin].
    + left. eauto.
    + right. by left.
    + right. right. by left.
    + right. right. by right.
  - intros [(Hs & item & Hin & ->)|[Hin|[Hin|Hin]]].
    + left. left. left. right. eauto.
    + left. left. by right.
    + left. by right.
    + by right.
Qed.

(** Among the issues [analyze] returns, those of type [insecure_random]
    that name no tool are the issues of the insecure-randomness scan. *)
Lemma security_analyze_scan (tools : ToolReports.Tools) (code file_path : string)
    (issue : Issue) (found : list Issue) :
  analyze tools code file_path = Ok found ->
  issue_type issue = "insecure_random" ->
  tool_of issue = None ->
  (In issue found <-> In issue (_check_insecure_random code file_path)).
Proof.
  intros Hfound Htype Htool.
  destruct (security_analyze_in tools code file_path issue) as (found' & Hfound' & Hin).
  rewrite Hfound in Hfound'. injection Hfound' as <-. rewrite Hin. split.
  - intros [(_ & item & _ & ->)|[Hsecret|[Hsql|Hrandom]]]; [| | |done].
    + rewrite tool_of_bandit_issue in Htool. discriminate.
    + apply hardcoded_secrets_types in Hsecret. rewrite Htype in Hsecret. discriminate.
    + apply sql_injection_types in Hsql. rewrite Htype in Hsql. discriminate.
  - intros Hrandom. right. right. by right.
Qed.

(** C6. Take a line of the source text, numbered from 1.  The list of
    issues the security agent's [analyze] returns holds the
    [insecure_random] issue of that line, of severity HIGH and carrying the
    number of the line, exactly when the line matches
    [random\.(randint|choice|random)], the lowercased line contains one of
    password, token, key, secret, auth, and the lowercased text of the whole
    file does not contain ["secrets"].  Every issue of type
    [insecure_random] in the list that is not a finding of bandit is the
    issue of a line that meets the three conditions, and has severity HIGH;
    when ["secrets"] occurs anywhere in the file the list holds no such
    issue, for no line.  A line matches the pattern exactly when it
    contains [random.randint], [random.choice] or [random.random]. *)
Theorem C6_insecure_random
    (tools : ToolReports.Tools) (code file_path : string)
    (line_num : nat) (line : string) :
  In (line_num, line) (enumerate 1 (split newline code)) ->
  exists found,
    analyze tools code file_path = Ok found /\
    (In (insecure_random_issue line_num line) found
       <-> Regex.search random_pattern line = true /\
           existsb (fun keyword => contains keyword (lower line))
             ["password"; "token"; "key"; "secret"; "auth"] = true /\
           contains "secrets" (lower code) = false) /\
    severity (insecure_random_issue line_num line) = HIGH /\
    issue_type (insecure_random_issue line_num line) = "insecure_random" /\
    Schemas.line_number (insecure_random_issue line_num line)
      = Some (Z.of_nat line_num) /\
    (forall issue,
       In issue found -> issue_type issue = "insecure_random" -> tool_of issue = None ->
       severity issue = HIGH /\
       exists n l,
         In (n, l) (enumerate 1 (split newline code)) /\
         Regex.search random_pattern l = true /\
         existsb (fun keyword => contains keyword (lower l))
           ["password"; "token"; "key"; "secret"; "auth"] = true /\
         contains "secrets" (lower code) = false /\
         issue = insecure_random_issue n l) /\
    (contains "secrets" (lower code) = true ->
     forall n l, ~ In (insecure_random_issue n l) found) /\
    (Regex.search random_pattern line = true <->
       contains "random.randint" line = true
       \/ contains "random.choice" line = true
       \/ contains "random.random" line = true).
Proof.
  intros Hline.
  destruct (security_analyze_in tools code file_path
              (insecure_random_issue line_num line)) as (found & Hfound & _).
  exists found. split; [exact Hfound|].
  split; [|split; [done|split; [done|split; [done|split; [|split]]]]];
    [| | |apply search_random_pattern].
  - rewrite (security_analyze_scan _ _ _ (insecure_random_issue line_num line) _
               Hfound eq_refl (tool_of_insecure_random_issue _ _)).
    rewrite insecure_random_in. split.
    + intros (n' & line' & Hline' & Hre & Hsec & Hkw & Heq).
      assert (n' = line_num) as ->.
      { apply (f_equal Schemas.line_number) in Heq. cbn in Heq. injection Heq. lia. }
      rewrite (enumerate_functional _ _ _ _ _ Hline Hline'). done.
    + intros (Hre & Hkw & Hsec). by exists line_num, line.
  - intros issue Hin Htype Htool.
    apply (security_analyze_scan _ _ _ _ _ Hfound Htype Htool) in Hin.
    apply insecure_random_in in Hin as (n & l & Hl & Hre & Hsec & Hkw & ->).
    split; [done|]. by exists n, l.
  - intros Hsec n l Hin.
    apply (security_analyze_scan _ _ _ (insecure_random_issue n l) _
             Hfound eq_refl (tool_of_insecure_random_issue _ _)) in Hin.
    apply insecure_random_in in Hin as (? & ? & _ & _ & Hsec' & _). congruence.
Qed.

Lemma C6_witness :
  In (2%nat, Examples.random_line) (enumerate 1 (split newline Examples.random_code)) /\
  exists found,
    analyze Examples.tools0 Examples.random_code "t.py" = Ok found /\
    In (insecure_random_issue 2 Examples.random_line) found /\
    severity (insecure_random_issue 2 Examples.random_line) = HIGH.
Proof.
  assert (Hline : In (2%nat, Examples.random_line)
                     (enumerate 1 (split newline Examples.random_code)))
    by (right; left; reflexivity).
  split; [exact Hline|].
  destruct (C6_insecure_random Examples.tools0 Examples.random_code "t.py" 2
              Examples.random_line Hline)
    as (found & Hfound & Hiff & Hsev & _).
  exists found. split; [exact Hfound|]. split; [|exact Hsev].
  apply Hiff. repeat split; reflexivity.
Defined.

End InsecureRandomProperties.

(** ** The tool wrappers *)

Section WrapperProperties.
Import PyStr Exceptions StaticAnalysis Statements.

(** Removing the temporary file the wrapper has just created succeeds. *)
Lemma unlink_created (temp_path : string) (fs : gset string) :
  os_unlink temp_path ({[temp_path]} ∪ fs)
    = (({[temp_path]} ∪ fs) ∖ {[temp_path]}, Ok tt).
Proof.
  unfold os_unlink. destruct (decide (temp_path ∈ {[temp_path]} ∪ fs)) as [|Hn]; [done|].
  exfalso. apply Hn. apply elem_of_union_l, elem_of_singleton. done.
Qed.

Lemma not_in_after_unlink (temp_path : string) (fs : gset string) :
  temp_path ∉ ({[temp_path]} ∪ fs) ∖ {[temp_path]}.
Proof. intros [_ Hn]%elem_of_difference. apply Hn. by apply elem_of_singleton. Qed.

Ltac unfold_wrapper :=
  unfold run, run_pylint, run_flake8, run_bandit, run_radon, try_except, try_finally,
    with_temp_file, handlers, lift, mbind, mret, stx_bind, stx_ret;
  cbn beta iota zeta.

Ltac step_wrapper :=
  match goal with
  | |- context [os_unlink ?p ({[?p]} ∪ ?fs)] => rewrite (unlink_created p fs)
  | |- context [match named_temporary_file ?env with _ => _ end] =>
      destruct (named_temporary_file env) eqn:?
  | |- context [match write ?env ?c with _ => _ end] =>
      destruct (write env c) as [[]|] eqn:?
  | |- context [match subprocess_run ?env ?argv with _ => _ end] =>
      destruct (subprocess_run env argv) eqn:?
  | |- context [nonempty ?s] => destruct (nonempty s) eqn:?
  | |- context [match json_loads ?env ?s with _ => _ end] =>
      destruct (json_loads env s) eqn:?
  | |- context [match json_get ?d ?k ?v with _ => _ end] =>
      destruct (json_get d k v) eqn:?
  | |- context [match parse_flake8_output ?s with _ => _ end] =>
      destruct (parse_flake8_output s) eqn:?
  | |- context [decide (?a = ?b)] => destruct (decide (a = b))
  end; cbn beta iota zeta.

Lemma wrappers_return (t : tool) (env : Env) (code file_path : string)
    (fs : gset string) :
  exists fs' d, run t env code file_path fs = (fs', Ok d).
Proof.
  destruct t; unfold_wrapper; repeat step_wrapper; eauto.
Qed.

(** A subprocess call that raised ends the wrapper with the failure
    shape: the message is ["Timeout"] for a [TimeoutExpired] and the text of
    the exception otherwise; the temporary file is gone. *)
Lemma wrappers_subprocess_failure (t : tool) (env : Env) (code file_path : string)
    (fs : gset string) (temp_path : string) (e : exn) :
  named_temporary_file env = Ok temp_path ->
  write env code = Ok tt ->
  subprocess_failure env (commands t temp_path) = Some e ->
  exists fs' d,
    run t env code file_path fs = (fs', Ok d) /\
    (temp_path ∉ fs') /\
    is_failure t (if decide (exn_class e = TimeoutExpired) then "Timeout" else str e) d.
Proof.
  intros Htmp Hwrite Hfail.
  destruct t; unfold_wrapper; rewrite Htmp, Hwrite; cbn beta iota zeta;
    cbn [subprocess_failure commands] in Hfail;
    repeat match type of Hfail with
    | context [subprocess_run ?env ?argv] =>
        destruct (subprocess_run env argv) eqn:?; cbn beta iota zeta
    end;
    try discriminate; injection Hfail as ->;
    rewrite unlink_created; cbn beta iota zeta;
    destruct (decide (exn_class e = TimeoutExpired)); cbn beta iota zeta;
    (eexists _, _; split; [reflexivity|]; split; [apply not_in_after_unlink|]);
    by repeat split.
Qed.

(** The same when every command ran and reading what was printed raised:
    in [json.loads], in the line parser of flake8, or in [data.get]. *)
Lemma wrappers_read_failure (t : tool) (env : Env) (code file_path : string)
    (fs : gset string) (temp_path : string) (e : exn) :
  named_temporary_file env = Ok temp_path ->
  write env code = Ok tt ->
  read_failure env temp_path t e ->
  exists fs' d,
    run t env code file_path fs = (fs', Ok d) /\
    (temp_path ∉ fs') /\
    is_failure t (if decide (exn_class e = TimeoutExpired) then "Timeout" else str e) d.
Proof.
  intros Htmp Hwrite Hread.
  destruct Hread as [out e Hrun Hout Hjson
                    |out e Hrun Hparse
                    |out e Hrun Hout Hjson
                    |out data key dflt e Hrun Hout Hjson Hget
                    |cc mi e Hcc Hmi Hout Hjson
                    |cc mi e Hcc Hmi Hfirst Hout Hjson];
    unfold_wrapper; rewrite Htmp, Hwrite; cbn beta iota zeta.
  - rewrite Hrun. cbn beta iota zeta. rewrite Hout, Hjson. cbn beta iota zeta.
    rewrite unlink_created. cbn beta iota zeta.
    destruct (decide (exn_class e = TimeoutExpired)); cbn beta iota zeta;
      (eexists _, _; split; [reflexivity|]; split; [apply not_in_after_unlink|]);
      by repeat split.
  - rewrite Hrun. cbn beta iota zeta. rewrite Hparse. cbn beta iota zeta.
    rewrite unlink_created. cbn beta iota zeta.
    destruct (decide (exn_class e = TimeoutExpired)); cbn beta iota zeta;
      (eexists _, _; split; [reflexivity|]; split; [apply not_in_after_unlink|]);
      by repeat split.
  - rewrite Hrun. cbn beta iota zeta. rewrite Hout, Hjson. cbn beta iota zeta.
    rewrite unlink_created. cbn beta iota zeta.
    destruct (decide (exn_class e = TimeoutExpired)); cbn beta iota zeta;
      (eexists _, _; split; [reflexivity|]; split; [apply not_in_after_unlink|]);
      by repeat split.
  - assert (Hresults : json_get data "results" (JList []) = Raise e).
    { unfold json_get in *. destruct data; try done.
      by destruct (List.find _ _). }
    rewrite Hrun. cbn beta iota zeta. rewrite Hout, Hjson. cbn beta iota zeta.
    rewrite Hresults. cbn beta iota zeta.
    rewrite unlink_created. cbn beta iota zeta.
    destruct (decide (exn_class e = TimeoutExpired)); cbn beta iota zeta;
      (eexists _, _; split; [reflexivity|]; split; [apply not_in_after_unlink|]);
      by repeat split.
  - rewrite Hcc. cbn beta iota zeta. rewrite Hmi. cbn beta iota zeta.
    rewrite Hout, Hjson. cbn beta iota zeta.
    rewrite unlink_created. cbn beta iota zeta.
    destruct (decide (exn_class e = TimeoutExpired)); cbn beta iota zeta;
      (eexists _, _; split; [reflexivity|]; split; [apply not_in_after_unlink|]);
      by repeat split.
  - rewrite Hcc. cbn beta iota zeta. rewrite Hmi. cbn beta iota zeta.
    destruct (nonempty (stdout cc)) eqn:Hnonempty; cbn beta iota zeta.
    + destruct (Hfirst eq_refl) as [data ->]. cbn beta iota zeta.
      rewrite Hout, Hjson. cbn beta iota zeta.
      rewrite unlink_created. cbn beta iota zeta.
      destruct (decide (exn_class e = TimeoutExpired)); cbn beta iota zeta;
        (eexists _, _; split; [reflexivity|]; split; [apply not_in_after_unlink|]);
        by repeat split.
    + rewrite Hout, Hjson. cbn beta iota zeta.
      rewrite unlink_created. cbn beta iota zeta.
      destruct (decide (exn_class e = TimeoutExpired)); cbn beta iota zeta;
        (eexists _, _; split; [reflexivity|]; split; [apply not_in_after_unlink|]);
        by repeat split.
Qed.

(** C4. None of the four wrappers raises: each call returns a dictionary.
    When a subprocess call of the wrapper times out, the dictionary has
    [success] false and ["Timeout"] under [error], with the empty list
    under [issues] for pylint, flake8 and bandit and no [issues] key for
    radon.  When a subprocess call raises anything else, or every command
    ran and reading what one of them printed raised (in [json.loads] for
    pylint, bandit and either command of radon, in [data.get] for bandit, in
    the line parser for flake8), the dictionary has the same shape with the
    text of the exception under [error]. *)
Theorem C4_wrappers_never_raise
    (t : tool) (env : Env) (code file_path : string) (fs : gset string) :
  (exists fs' d, run t env code file_path fs = (fs', Ok d)) /\
  (forall temp_path e,
     named_temporary_file env = Ok temp_path ->
     write env code = Ok tt ->
     subprocess_failure env (commands t temp_path) = Some e ->
     exn_class e = TimeoutExpired ->
     exists fs' d,
       run t env code file_path fs = (fs', Ok d) /\ is_failure t "Timeout" d) /\
  (forall temp_path e,
     named_temporary_file env = Ok temp_path ->
     write env code = Ok tt ->
     subprocess_failure env (commands t temp_path) = Some e ->
     exn_class e <> TimeoutExpired ->
     exists fs' d,
       run t env code file_path fs = (fs', Ok d) /\ is_failure t (str e) d) /\
  (forall temp_path e,
     named_temporary_file env = Ok temp_path ->
     write env code = Ok tt ->
     read_failure env temp_path t e ->
     exn_class e <> TimeoutExpired ->
     exists fs' d,
       run t env code file_path fs = (fs', Ok d) /\ is_failure t (str e) d).
Proof.
  split; [apply wrappers_return|]. split; [|split].
  - intros temp_path e Htmp Hwrite Hfail Hclass.
    destruct (wrappers_subprocess_failure t env code file_path fs temp_path e)
      as (fs' & d & Hrun & _ & Hd); try done.
    rewrite decide_True in Hd by done. eauto.
  - intros temp_path e Htmp Hwrite Hfail Hclass.
    destruct (wrappers_subprocess_failure t env code file_path fs temp_path e)
      as (fs' & d & Hrun & _ & Hd); try done.
    rewrite decide_False in Hd by done. eauto.
  - intros temp_path e Htmp Hwrite Hread Hclass.
    destruct (wrappers_read_failure t env code file_path fs temp_path e)
      as (fs' & d & Hrun & _ & Hd); try done.
    rewrite decide_False in Hd by done. eauto.
Qed.

Lemma C4_witness :
  (named_temporary_file Examples.env_timeout = Ok "/tmp/tmpab12cd.py" /\
   write Examples.env_timeout "x = 1" = Ok tt /\
   subprocess_failure Examples.env_timeout (commands Radon "/tmp/tmpab12cd.py")
     = Some (mkExn TimeoutExpired "Command timed out after 30 seconds") /\
   exn_class (mkExn TimeoutExpired "Command timed out after 30 seconds") = TimeoutExpired /\
   exists fs' d,
     run Radon Examples.env_timeout "x = 1" "t.py" ∅ = (fs', Ok d) /\
     is_failure Radon "Timeout" d) /\
  (named_temporary_file Examples.env_radon_mi = Ok "/tmp/tmpab12cd.py" /\
   write Examples.env_radon_mi "x = 1" = Ok tt /\
   read_failure Examples.env_radon_mi "/tmp/tmpab12cd.py" Radon
     (mkExn ValueError "Expecting value: line 1 column 1 (char 0)") /\
   exists fs' d,
     run Radon Examples.env_radon_mi "x = 1" "t.py" ∅ = (fs', Ok d) /\
     is_failure Radon "Expecting value: line 1 column 1 (char 0)" d).
Proof.
  split.
  - split; [reflexivity|]. split; [reflexivity|]. split; [reflexivity|].
    split; [reflexivity|].
    destruct (C4_wrappers_never_raise Radon Examples.env_timeout "x = 1" "t.py" ∅)
      as (_ & Htimeout & _).
    exact (Htimeout "/tmp/tmpab12cd.py"
             (mkExn TimeoutExpired "Command timed out after 30 seconds")
             eq_refl eq_refl eq_refl eq_refl).
  - assert (Hread : read_failure Examples.env_radon_mi "/tmp/tmpab12cd.py" Radon
                      (mkExn ValueError "Expecting value: line 1 column 1 (char 0)")).
    { apply (radon_maintainability_json _ _ (mkCompleted "{}" "") (mkCompleted "ERROR" ""));
        try reflexivity.
      intros _. exists (JDict []). reflexivity. }
    split; [reflexivity|]. split; [reflexivity|]. split; [exact Hread|].
    destruct (C4_wrappers_never_raise Radon Examples.env_radon_mi "x = 1" "t.py" ∅)
      as (_ & _ & _ & Hparse).
    apply (Hparse "/tmp/tmpab12cd.py"
             (mkExn ValueError "Expecting value: line 1 column 1 (char 0)")
             eq_refl eq_refl Hread).
    discriminate.
Defined.

End WrapperProperties.

(** ** The flake8 parser *)

Section Flake8Properties.
Import PyStr Exceptions StaticAnalysis Statements.

Lemma int_or_raise_class (s : string) (e : exn) :
  int_or_raise s = Raise e -> exn_class e = ValueError.
Proof. unfold int_or_raise. destruct (PyStr.int s); [done|]. by intros [= <-]. Qed.

Lemma first_token_class (s : string) (e : exn) :
  first_token s = Raise e -> exn_class e = IndexError.
Proof.
  unfold first_token. destruct (nonempty s); [|done].
  destruct (split_ws s); [|done]. by intros [= <-].
Qed.

Lemma parse_flake8_line_class (line : string) (e : exn) :
  parse_flake8_line line = Raise e -> exn_class e <> TimeoutExpired.
Proof.
  unfold parse_flake8_line. destruct (nonempty line); [|done].
  destruct (splitn ":" line 3) as [|p0 [|p1 [|p2 [|p3 rest]]]]; try done.
  unfold mbind, result_bind.
  destruct (int_or_raise p1) as [ln|e1] eqn:H1.
  2: { intros [= <-]. by rewrite (int_or_raise_class _ _ H1). }
  destruct (int_or_raise p2) as [col|e2] eqn:H2.
  2: { intros [= <-]. by rewrite (int_or_raise_class _ _ H2). }
  destruct (first_token p3) as [tok|e3] eqn:H3; [done|].
  intros [= <-]. by rewrite (first_token_class _ _ H3).
Qed.

(** A line with fewer than four fields is skipped without a trace. *)
Lemma parse_flake8_line_skips (line : string) :
  (length (splitn ":" line 3) < 4)%nat -> parse_flake8_line line = Ok None.
Proof.
  unfold parse_flake8_line. intros Hlen. destruct (nonempty line); [|done].
  destruct (splitn ":" line 3) as [|p0 [|p1 [|p2 [|p3 rest]]]]; try done.
  cbn in Hlen. lia.
Qed.

(** A line with four fields whose line or column field [int] rejects
    makes the parser raise. *)
Lemma parse_flake8_line_raises (line p0 p1 p2 p3 : string) (rest : list string) :
  splitn ":" line 3 = p0 :: p1 :: p2 :: p3 :: rest ->
  PyStr.int p1 = None \/ PyStr.int p2 = None ->
  exists e, parse_flake8_line line = Raise e.
Proof.
  intros Hsplit Hint. unfold parse_flake8_line.
  destruct (nonempty line) eqn:Hne.
  2: { destruct line; [|done]. done. }
  rewrite Hsplit. unfold mbind, result_bind, int_or_raise.
  destruct (PyStr.int p1); [|eauto].
  destruct Hint as [Hbad|Hbad]; [done|]. rewrite Hbad. eauto.
Qed.

(** One raising line makes the whole loop raise, whatever was collected
    before. *)
Lemma parse_flake8_lines_raise (lines : list string) (issues : list json)
    (line : string) (e : exn) :
  In line lines ->
  parse_flake8_line line = Raise e ->
  exists e', parse_flake8_lines lines issues = Raise e' /\ exn_class e' <> TimeoutExpired.
Proof.
  revert issues. induction lines as [|l lines IH]; intros issues Hin Hline; [done|].
  cbn [parse_flake8_lines]. unfold mbind, result_bind.
  destruct (parse_flake8_line l) as [found|e1] eqn:Hl.
  - destruct Hin as [->|Hin]; [congruence|]. by apply IH.
  - exists e1. split; [done|]. by apply (parse_flake8_line_class l).
Qed.

(** C10. The flake8 parser skips a line silently only when the line has
    fewer than four colon-separated fields.  When some line of the output
    has four fields and its line or column field is not an integer for
    [int], the conversion raises inside the loop and [run_flake8] returns
    the failure dictionary: [success] false, an error message, and an empty
    [issues] list, whatever the other lines of the output held. *)
Theorem C10_flake8_bad_number_fails_whole_run
    (env : Env) (code file_path : string) (fs : gset string)
    (temp_path : string) (out : CompletedProcess)
    (line p0 p1 p2 p3 : string) (rest : list string) :
  named_temporary_file env = Ok temp_path ->
  write env code = Ok tt ->
  subprocess_run env ["flake8"; "--format=json"; temp_path] = Ok out ->
  nonempty (stdout out) = true ->
  In line (split newline (strip (stdout out))) ->
  splitn ":" line 3 = p0 :: p1 :: p2 :: p3 :: rest ->
  PyStr.int p1 = None \/ PyStr.int p2 = None ->
  (forall skipped, (length (splitn ":" skipped 3) < 4)%nat ->
     parse_flake8_line skipped = Ok None) /\
  (exists e, parse_flake8_line line = Raise e) /\
  exists fs' msg,
    run_flake8 env code file_path fs
      = (fs', Ok {[ "success" := JBool false; "issues" := JList [];
                    "error" := JStr msg ]}).
Proof.
  intros Htmp Hwrite Hrun Hout Hline Hsplit Hint.
  split; [apply parse_flake8_line_skips|].
  destruct (parse_flake8_line_raises _ _ _ _ _ _ Hsplit Hint) as [e He].
  split; [eauto|].
  destruct (parse_flake8_lines_raise _ [] _ _ Hline He) as (e' & He' & Hclass).
  unfold run_flake8, try_except, try_finally, with_temp_file, handlers, lift,
    mbind, mret, stx_bind, stx_ret.
  rewrite Htmp, Hwrite. cbn beta iota zeta. rewrite Hrun. cbn beta iota zeta.
  unfold parse_flake8_output. rewrite Hout, He'. cbn beta iota zeta.
  rewrite unlink_created. cbn beta iota zeta.
  rewrite decide_False by done. eauto.
Qed.

Lemma C10_witness :
  named_temporary_file Examples.env_flake8 = Ok "/tmp/tmpab12cd.py" /\
  write Examples.env_flake8 "x = 1" = Ok tt /\
  subprocess_run Examples.env_flake8 ["flake8"; "--format=json"; "/tmp/tmpab12cd.py"]
    = Ok (mkCompleted Examples.flake8_stdout "") /\
  nonempty Examples.flake8_stdout = true /\
  In "t.py:x:1: W291 trailing whitespace"
     (split newline (strip Examples.flake8_stdout)) /\
  splitn ":" "t.py:x:1: W291 trailing whitespace" 3
    = ["t.py"; "x"; "1"; " W291 trailing whitespace"] /\
  (PyStr.int "x" = None \/ PyStr.int "1" = None) /\
  parse_flake8_line "t.py:1:80: E501 line too long"
    = Ok (Some (JDict [("path", JStr "t.py"); ("line", JInt 1); ("column", JInt 80);
                       ("code", JStr "E501"); ("message", JStr "E501 line too long")])) /\
  exists fs' msg,
    run_flake8 Examples.env_flake8 "x = 1" "t.py" ∅
      = (fs', Ok {[ "success" := JBool false; "issues" := JList [];
                    "error" := JStr msg ]}).
Proof.
  assert (Hline : In "t.py:x:1: W291 trailing whitespace"
                     (split newline (strip Examples.flake8_stdout)))
    by (right; left; reflexivity).
  split; [reflexivity|]. split; [reflexivity|]. split; [reflexivity|].
  split; [reflexivity|]. split; [exact Hline|]. split; [reflexivity|].
  split; [left; reflexivity|]. split; [reflexivity|].
  exact (proj2 (proj2 (C10_flake8_bad_number_fails_whole_run Examples.env_flake8
           "x = 1" "t.py" ∅ "/tmp/tmpab12cd.py" (mkCompleted Examples.flake8_stdout "")
           "t.py:x:1: W291 trailing whitespace" "t.py" "x" "1" " W291 trailing whitespace" []
           eq_refl eq_refl eq_refl eq_refl Hline eq_refl (or_introl eq_refl)))).
Defined.

End Flake8Properties.

(** ** The aggregation of the scans *)

Section ScanProperties.
Import PyStr Schemas Exceptions Database Reviews Statements.

Lemma fold_left_concat_map {A B C} (f : A -> C -> A) (g : B -> list C)
    (l : list B) (a : A) :
  fold_left f (concat (map g l)) a = fold_left (fun a b => fold_left f (g b) a) l a.
Proof.
  revert a. induction l as [|b l IH]; intros a; [done|].
  cbn. by rewrite fold_left_app, IH.
Qed.

Lemma fold_left_map {A B C} (f : A -> C -> A) (g : B -> C) (l : list B) (a : A) :
  fold_left f (map g l) a = fold_left (fun a b => f a (g b)) l a.
Proof. revert a. induction l as [|b l IH]; intros a; [done|]. cbn. by rewrite IH. Qed.

Lemma scan_files_visits (review_code : reviewer) (request : ReviewRequest)
    (review : Review) (files : list FileInfo) (st : scan_state) :
  fold_left (scan_file review_code request review) files st
    = fold_left (visit review) (visits review_code request files) st.
Proof.
  unfold visits. rewrite fold_left_concat_map. revert st.
  induction files as [|f files IH]; intros st; [done|].
  cbn [fold_left]. rewrite <- IH. f_equal.
  unfold scan_file. rewrite fold_left_concat_map.
  generalize (review_code (content f) (path f) (requested_agents request)).
  intros rs. revert st. induction rs as [|r rs IHr]; intros st; [done|].
  cbn [fold_left]. rewrite <- IHr. f_equal.
  unfold scan_result. by rewrite fold_left_map.
Qed.

Lemma dict_get_alter (f : aggregate -> aggregate) (k t : AgentType) (d : results_dict) :
  dict_get t (dict_alter f k d)
    = if decide (t = k) then f <$> dict_get t d else dict_get t d.
Proof.
  unfold dict_get, dict_alter. induction d as [|[k' a] d IH]; cbn [map List.find fst snd].
  - destruct (decide (t = k)); reflexivity.
  - destruct (decide (k' = k)) as [->|Hk].
    + rewrite (bool_decide_true (k = k)) by done. cbn [fst].
      destruct (decide (k = t)) as [->|Ht].
      * rewrite (bool_decide_true (t = t)) by done. by rewrite decide_True.
      * rewrite (bool_decide_false (k = t)) by done. apply IH.
    + rewrite (bool_decide_false (k' = k)) by done. cbn [fst].
      destruct (decide (k' = t)) as [->|Ht].
      * rewrite (bool_decide_true (t = t)) by done. by rewrite decide_False.
      * rewrite (bool_decide_false (k' = t)) by done. apply IH.
Qed.

Lemma dict_get_alter_same (f : aggregate -> aggregate) (k : AgentType) (d : results_dict) :
  dict_get k (dict_alter f k d) = f <$> dict_get k d.
Proof. rewrite dict_get_alter. by rewrite decide_True. Qed.

Lemma dict_get_alter_other (f : aggregate -> aggregate) (k t : AgentType)
    (d : results_dict) :
  t <> k -> dict_get t (dict_alter f k d) = dict_get t d.
Proof. intros H. rewrite dict_get_alter. by rewrite decide_False. Qed.

Lemma dict_get_snoc (k t : AgentType) (a : aggregate) (d : results_dict) :
  dict_get t (d ++ [(k, a)])%list
    = match dict_get t d with
      | Some x => Some x
      | None => if decide (t = k) then Some a else None
      end.
Proof.
  unfold dict_get. induction d as [|[k' a'] d IH]; cbn [app List.find fst snd].
  - destruct (decide (t = k)) as [->|Ht].
    + by rewrite bool_decide_true.
    + rewrite bool_decide_false by done. done.
  - destruct (decide (k' = t)) as [->|Ht].
    + by rewrite !bool_decide_true.
    + rewrite !bool_decide_false by done. apply IH.
Qed.

Lemma dict_mem_get (k : AgentType) (d : results_dict) :
  dict_mem k d = match dict_get k d with Some _ => true | None => false end.
Proof.
  unfold dict_mem, dict_get. induction d as [|[k' a'] d IH]; cbn [existsb List.find fst]; [done|].
  destruct (bool_decide (k' = k)); [done|]. apply IH.
Qed.

Lemma visits_of_snoc (t : AgentType) (v : list (string * AgentResult * Issue))
    (x : string * AgentResult * Issue) :
  visits_of t (v ++ [x])%list
    = (visits_of t v ++ if decide (agent_type (snd (fst x)) = t) then [x] else [])%list.
Proof.
  unfold visits_of. rewrite List.filter_app. cbn [List.filter].
  destruct (decide (agent_type (snd (fst x)) = t)).
  - by rewrite bool_decide_true.
  - by rewrite bool_decide_false.
Qed.

Lemma sum_times_snoc (times : list Qc) (q : Qc) :
  sum_times (times ++ [q])%list = (sum_times times + q)%Qc.
Proof.
  unfold sum_times. induction times as [|p times IH]; cbn [app foldr].
  - ring.
  - rewrite IH. ring.
Qed.

Lemma forallb_snoc {A} (f : A -> bool) (l : list A) (x : A) :
  forallb f (l ++ [x])%list = forallb f l && f x.
Proof. rewrite forallb_app. cbn. by rewrite andb_true_r. Qed.

Lemma visit_aggregates (review : Review) (st : scan_state)
    (v : list (string * AgentResult * Issue)) (x : string * AgentResult * Issue) :
  aggregates (agent_results_dict st) v ->
  aggregates (agent_results_dict (visit review st x)) (v ++ [x])%list.
Proof.
  intros Hinv t. specialize (Hinv t).
  destruct x as [[p r] i]. unfold visit, scan_issue. cbn [fst snd agent_results_dict].
  rewrite visits_of_snoc. cbn [fst snd].
  set (d := agent_results_dict st) in *.
  set (d1 := if negb (dict_mem (agent_type r) d)
             then (d ++ [(agent_type r,
                          {| agg_issues := []; total_time := 0%Qc;
                             agg_success := true |})])%list
             else d).
  assert (Hd1 : dict_get t d1
            = match dict_get t d with
              | Some a => Some a
              | None => if decide (t = agent_type r)
                        then Some {| agg_issues := []; total_time := 0%Qc;
                                     agg_success := true |}
                        else None
              end).
  { unfold d1. rewrite dict_mem_get.
    destruct (dict_get (agent_type r) d) as [a|] eqn:Hk; cbn [negb].
    - destruct (dict_get t d) as [a'|] eqn:Ht; [done|].
      destruct (decide (t = agent_type r)) as [->|]; [congruence|done].
    - apply dict_get_snoc. }
  destruct (decide (agent_type r = t)) as [<-|Hne].
  - rewrite decide_True in Hd1 by done.
    destruct (success r) eqn:Hs; cbn [negb]; rewrite !dict_get_alter_same, Hd1;
      destruct (dict_get (agent_type r) d) as [a|]; cbn [fmap option_fmap option_map];
      cbn [agg_issues total_time agg_success];
      rewrite ?map_app, ?forallb_snoc; cbn [map fst snd]; rewrite ?sum_times_snoc.
    + destruct Hinv as (Hne & Hi & Ht & Hsucc).
      rewrite Hi, Ht, Hsucc, Hs, andb_true_r. split; [|done]. by destruct (visits_of _ v).
    + rewrite Hinv. cbn. split; [done|]. split; [done|]. split; [ring|]. by rewrite Hs.
    + destruct Hinv as (Hne & Hi & Ht & Hsucc).
      rewrite Hi, Ht, Hs, andb_false_r. split; [|done]. by destruct (visits_of _ v).
    + rewrite Hinv. cbn. split; [done|]. split; [done|]. split; [ring|]. by rewrite Hs.
  - rewrite decide_False in Hd1 by done.
    rewrite app_nil_r.
    destruct (negb (success r)); rewrite !dict_get_alter_other by done;
      rewrite Hd1; by destruct (dict_get t d).
Qed.

Lemma visits_aggregate (review : Review) (l v : list (string * AgentResult * Issue))
    (st : scan_state) :
  aggregates (agent_results_dict st) v ->
  aggregates (agent_results_dict (fold_left (visit review) l st)) (v ++ l)%list /\
  scan_total_issues (fold_left (visit review) l st)
    = (scan_total_issues st + length l)%nat.
Proof.
  revert v st. induction l as [|x l IH]; intros v st Hinv.
  - rewrite app_nil_r. cbn. split; [done|lia].
  - cbn [fold_left].
    destruct (IH (v ++ [x])%list (visit review st x)) as [Hagg Htotal].
    { by apply visit_aggregates. }
    rewrite <- app_assoc in Hagg. split; [exact Hagg|].
    rewrite Htotal. destruct x as [[p r] i]. cbn. lia.
Qed.

(** What the scan loops compute, for any files and any orchestrator.  An
    agent type gets an entry only if one of its per-file results has an
    issue; the entry holds the path-stamped issues in the order visited, the
    execution time of a per-file result added once for each of its issues,
    and the conjunction of the success flags of the per-file results that
    have issues. *)
Lemma scan_aggregates_per_issue (review_code : reviewer) (request : ReviewRequest)
    (review : Review) (files : list FileInfo) (s : Session) :
  let st := fold_left (scan_file review_code request review) files
              {| session := s; scan_total_issues := 0; agent_results_dict := [] |} in
  aggregates (agent_results_dict st) (visits review_code request files) /\
  scan_total_issues st = length (visits review_code request files).
Proof.
  cbn zeta. rewrite scan_files_visits.
  apply (visits_aggregate review (visits review_code request files) []).
  intros t. reflexivity.
Qed.

End ScanProperties.

(** ** The review routes *)

Section ReviewRouteProperties.
Import PyStr Schemas Exceptions Database Reviews Statements.

(** Looking the repository up, or creating it, touches no other table. *)
Lemma get_or_create_repository_frame (url : string) (db : Tables) :
  exists s repo,
    get_or_create_repository url (open_session db) = (s, Ok repo) /\
    committed s = working s /\
    reviews (working s) = reviews db /\
    review_results (working s) = review_results db.
Proof.
  unfold get_or_create_repository.
  destruct (List.find _ (repositories (working (open_session db)))) as [repo|].
  - by eexists _, _.
  - destruct (if contains "github.com" url then _ else _) as [platform [owner name]].
    by eexists _, _.
Qed.

(** C7, as the code has it.  A create-review request in local mode whose
    file does not exist fails with status 400 and the detail
    ["Local file not found: <path>"]; a get-review request for an id no
    review has fails with status 404 and the detail ["Review not found"].
    Neither adds a row to [reviews] or [review_results]. *)
Theorem C7_missing_resources :
  (forall (src : Sources) (review_code : reviewer) (request : ReviewRequest)
          (db : Tables) (path : string),
     file_path request = Some path ->
     nonempty path = true ->
     startswith (repository_url request) "http" = false ->
     os_path_exists src path = false ->
     exists db',
       serve (create_review src review_code request) db
         = (db', Raise (mkExn (HTTPException 400) ("Local file not found: " ++ path))) /\
       reviews db' = reviews db /\
       review_results db' = review_results db) /\
  (forall (db : Tables) (wanted : nat),
     (forall r, In r (reviews db) -> Database.review_id r <> wanted) ->
     serve (get_review wanted) db
       = (db, Raise (mkExn (HTTPException 404) "Review not found"))).
Proof.
  split.
  - intros src review_code request db path Hpath Hne Hlocal Hmissing.
    destruct (get_or_create_repository_frame (repository_url request) db)
      as (s & repo & Hrepo & Hcommitted & Hreviews & Hresults).
    exists (committed s). rewrite Hcommitted. split; [|done].
    unfold serve, create_review, try_except, mbind, stx_bind.
    rewrite Hrepo. unfold fetch_code. rewrite Hpath. cbn [default from_option id].
    rewrite Hne, Hlocal, Hmissing. cbn. by rewrite Hcommitted.
  - intros db wanted Hid.
    unfold serve, get_review, mbind, stx_bind, get. cbn beta iota zeta.
    destruct (List.find _ (reviews (working (open_session db)))) as [r|] eqn:Hfind; [|done].
    apply find_some in Hfind as [Hin Heq]. apply Nat.eqb_eq in Heq.
    by destruct (Hid r Hin).
Qed.

Lemma C7_witness :
  file_path Examples.local_request = Some "missing.py" /\
  nonempty "missing.py" = true /\
  startswith (repository_url Examples.local_request) "http" = false /\
  os_path_exists Examples.sources0 "missing.py" = false /\
  (forall r, In r (reviews Examples.empty_db) -> Database.review_id r <> 7%nat) /\
  (exists db',
     serve (create_review Examples.sources0
              (Orchestrator.review_code (Orchestrator.new Examples.world0))
              Examples.local_request) Examples.empty_db
       = (db', Raise (mkExn (HTTPException 400) "Local file not found: missing.py")) /\
     reviews db' = [] /\ review_results db' = []) /\
  serve (get_review 7) Examples.empty_db
    = (Examples.empty_db, Raise (mkExn (HTTPException 404) "Review not found")).
Proof.
  assert (Hid : forall r, In r (reviews Examples.empty_db) -> Database.review_id r <> 7%nat)
    by (intros r []).
  split; [reflexivity|]. split; [reflexivity|]. split; [reflexivity|].
  split; [reflexivity|]. split; [exact Hid|].
  split.
  - exact (proj1 C7_missing_resources Examples.sources0
             (Orchestrator.review_code (Orchestrator.new Examples.world0))
             Examples.local_request Examples.empty_db "missing.py"
             eq_refl eq_refl eq_refl eq_refl).
  - exact (proj2 C7_missing_resources Examples.empty_db 7%nat Hid).
Defined.

(** C7, as the specification states it, fails: the local-mode request for a
    missing file is answered with status 400, not with a response of the
    404 class. *)
Lemma C7_counterexample :
  snd (serve (create_review Examples.sources0
                (Orchestrator.review_code (Orchestrator.new Examples.world0))
                Examples.local_request) Examples.empty_db)
    = Raise (mkExn (HTTPException 400) "Local file not found: missing.py") /\
  ~ is_not_found
      (snd (serve (create_review Examples.sources0
                     (Orchestrator.review_code (Orchestrator.new Examples.world0))
                     Examples.local_request) Examples.empty_db)).
Proof.
  assert (H : snd (serve (create_review Examples.sources0
                (Orchestrator.review_code (Orchestrator.new Examples.world0))
                Examples.local_request) Examples.empty_db)
    = Raise (mkExn (HTTPException 400) "Local file not found: missing.py"))
    by reflexivity.
  split; [exact H|]. rewrite H. intros [detail Hd]. discriminate.
Qed.

(** C1, at an input where the code departs from the specification.  The
    repository holds [a.py] and [b.py].  For [a.py] the quality agent
    reports two issues in half a second, the security agent none, and the
    documentation agent fails; for [b.py] the quality and the documentation
    agent report one issue each, the security agent none.  The merged
    response has no result for the security agent; the quality result
    carries 3/2 seconds, the time of [a.py] having been added once per
    issue, where the two files took 1 second; the documentation result
    carries [success = true] and 1/4 second, the failed run on [a.py] having
    left no trace. *)
Theorem C1_scan_aggregation_example :
  map Examples.summary
    (Orchestrator.review_code (Orchestrator.new Examples.world0)
       Examples.code_a "a.py" (Some [QUALITY; SECURITY; DOCUMENTATION]))
    = [(QUALITY, true, 1 # 2, 2%nat); (SECURITY, true, 1 # 4, 0%nat);
       (DOCUMENTATION, false, 1 # 4, 0%nat)] /\
  map Examples.summary
    (Orchestrator.review_code (Orchestrator.new Examples.world0)
       Examples.code_b "b.py" (Some [QUALITY; SECURITY; DOCUMENTATION]))
    = [(QUALITY, true, 1 # 2, 1%nat); (SECURITY, true, 1 # 4, 0%nat);
       (DOCUMENTATION, true, 1 # 4, 1%nat)] /\
  match snd (serve (create_review Examples.sources0
                      (Orchestrator.review_code (Orchestrator.new Examples.world0))
                      Examples.scan_request) Examples.empty_db) with
  | Ok response =>
      map Examples.summary (results response)
        = [(QUALITY, true, 3 # 2, 3%nat); (DOCUMENTATION, true, 1 # 4, 1%nat)] /\
      total_issues response = 4%nat /\
      resp_file_path response = "Repository scan (2 files)"
  | Raise _ => False
  end.
Proof. vm_compute. repeat split. Qed.

End ReviewRouteProperties.

(* ================================================================== *)
(** * Further properties *)
(* ================================================================== *)

(** ** Strings: [strip] *)

Section StripProperties.
Import PyStr.

Lemma lstrip_head (s : string) :
  lstrip s = "" \/ exists c s', lstrip s = String c s' /\ is_space c = false.
Proof.
  induction s as [|c s IH]; [by left|].
  cbn [lstrip]. destruct (is_space c) eqn:Hc; [done|]. right. by exists c, s.
Qed.

Lemma rstrip_cons (c : ascii) (s : string) :
  is_space c = false -> rstrip (String c s) = String c (rstrip s).
Proof. intros Hc. cbn [rstrip]. destruct (rstrip s); by rewrite ?Hc. Qed.

Lemma rstrip_idempotent (s : string) : rstrip (rstrip s) = rstrip s.
Proof.
  induction s as [|c s IH]; [done|].
  cbn [rstrip]. destruct (rstrip s) as [|c' r] eqn:Hr.
  - destruct (is_space c) eqn:Hc; [done|]. cbn [rstrip]. by rewrite Hc.
  - cbn [rstrip] in IH |- *. by rewrite IH.
Qed.

Lemma prefix_append (p s : string) : String.prefix p (p ++ s) = true.
Proof. apply prefix_split. by exists s. Qed.

(** [s.strip().strip()] is [s.strip()]. *)
Lemma strip_idempotent (s : string) : strip (strip s) = strip s.
Proof.
  unfold strip. destruct (lstrip_head s) as [->|(c & s' & -> & Hc)]; [done|].
  rewrite rstrip_cons by done. cbn [lstrip]. rewrite Hc.
  by rewrite rstrip_cons, rstrip_idempotent.
Qed.

End StripProperties.

Section IndentationFacts.
Import PyStr Schemas Exceptions BaseAgent PerformanceAgent.

Lemma nested_loops_step_stripped (st : loop_state) (n : nat) (line : string) :
  nested_loops_step st (n, strip line) = nested_loops_step st (n, line).
Proof. unfold nested_loops_step. by rewrite strip_idempotent. Qed.

Lemma nested_loops_stripped (lines1 lines2 : list string) (start : nat) (st : loop_state) :
  map strip lines1 = map strip lines2 ->
  fold_left nested_loops_step (enumerate start lines1) st
    = fold_left nested_loops_step (enumerate start lines2) st.
Proof.
  revert lines2 start st.
  induction lines1 as [|l1 lines1 IH]; intros [|l2 lines2] start st Hlines; try done.
  injection Hlines as Hl Hlines. cbn [enumerate fold_left].
  rewrite <- (nested_loops_step_stripped st start l1), Hl, nested_loops_step_stripped.
  by apply IH.
Qed.

(** X17. [_check_nested_loops] does not see indentation: two files whose
    lines agree once stripped get the same issues, so that loops that
    follow one another count as deep as loops that lie within one
    another. *)
Theorem nested_loops_ignore_indentation (code1 code2 file_path1 file_path2 : string) :
  map strip (split newline code1) = map strip (split newline code2) ->
  _check_nested_loops code1 file_path1 = _check_nested_loops code2 file_path2.
Proof.
  intros Hlines. unfold _check_nested_loops. by rewrite (nested_loops_stripped _ _ _ _ Hlines).
Qed.

Lemma nested_loops_ignore_indentation_witness :
  map strip (split newline MoreExamples.loops_after)
    = map strip (split newline MoreExamples.loops_within) /\
  _check_nested_loops MoreExamples.loops_after "after.py"
    = _check_nested_loops MoreExamples.loops_within "within.py" /\
  length (_check_nested_loops MoreExamples.loops_within "within.py") = 1%nat.
Proof.
  assert (Hlines : map strip (split newline MoreExamples.loops_after)
                    = map strip (split newline MoreExamples.loops_within))
    by (vm_compute; reflexivity).
  split; [exact Hlines|]. split; [|vm_compute; reflexivity].
  exact (nested_loops_ignore_indentation MoreExamples.loops_after MoreExamples.loops_within
           "after.py" "within.py" Hlines).
Defined.

End IndentationFacts.

(** ** What [create_review] stores *)

Section StoredProperties.
Import PyStr Schemas Exceptions Database Reviews Statements Stored.

Lemma next_id_fresh (ids : list nat) : ~ In (next_id ids) ids.
Proof.
  assert (H : forall n, In n ids -> (n < next_id ids)%nat).
  { unfold next_id. induction ids as [|m ids IH]; intros n; cbn; [done|].
    intros [->|Hin]; [lia|]. specialize (IH n Hin). lia. }
  intros Hin. specialize (H _ Hin). lia.
Qed.

Lemma tables_eta (db : Tables) :
  set_repositories (repositories db) db = db.
Proof. by destruct db. Qed.

(** The repository of a request: found by its URL, or added as a new row
    with this URL when no row has it. *)
Lemma get_or_create_repository_spec (url : string) (db : Tables) :
  exists repo rows,
    get_or_create_repository url (open_session db)
      = (open_session (set_repositories rows db), Ok repo) /\
    In repo rows /\ repo_url repo = url /\
    (rows = repositories db \/
     (rows = (repositories db ++ [repo])%list /\
      (forall r, In r (repositories db) -> repo_url r <> url) /\
      repo_id repo = next_id (map repo_id (repositories db)))).
Proof.
  unfold get_or_create_repository. cbn [working open_session].
  destruct (List.find _ (repositories db)) as [repo|] eqn:Hfind.
  - exists repo, (repositories db). rewrite tables_eta.
    apply find_some in Hfind as [Hin Heq]. apply String.eqb_eq in Heq.
    by repeat split; [..|left].
  - destruct (if contains "github.com" url then _ else _) as [platform [owner name]].
    eexists _, _. split; [reflexivity|]. split; [apply in_app_iff; right; by left|].
    split; [done|]. right. split; [done|]. split; [|done].
    intros r Hin Hurl. apply (find_none _ _ Hfind) in Hin.
    apply String.eqb_neq in Hin. done.
Qed.

End StoredProperties.

Section VisitProperties.
Import PyStr Schemas Exceptions Database Reviews Statements Stored.

Lemma add_visit_row (review : Review) (s : Session) (x : string * AgentResult * Issue) :
  exists row,
    row_of_visit (Database.review_id review) x row /\
    committed (add_visit review s x) = committed s /\
    review_results (working (add_visit review s x))
      = (review_results (working s) ++ [row])%list /\
    reviews (working (add_visit review s x)) = reviews (working s) /\
    repositories (working (add_visit review s x)) = repositories (working s).
Proof. eexists. split; [|by repeat split]. by repeat split. Qed.

Lemma add_visits_rows (review : Review) (l : list (string * AgentResult * Issue))
    (s : Session) :
  exists rows,
    Forall2 (row_of_visit (Database.review_id review)) l rows /\
    committed (fold_left (add_visit review) l s) = committed s /\
    review_results (working (fold_left (add_visit review) l s))
      = (review_results (working s) ++ rows)%list /\
    reviews (working (fold_left (add_visit review) l s)) = reviews (working s) /\
    repositories (working (fold_left (add_visit review) l s)) = repositories (working s).
Proof.
  revert s. induction l as [|x l IH]; intros s.
  - exists []. cbn. rewrite app_nil_r. by repeat split.
  - cbn [fold_left].
    destruct (add_visit_row review s x) as (row & Hrow & Hc & Hr & Hv & Hp).
    destruct (IH (add_visit review s x)) as (rows & Hrows & Hc' & Hr' & Hv' & Hp').
    exists (row :: rows). split; [by constructor|].
    rewrite Hc', Hr', Hv', Hp', Hc, Hr, Hv, Hp, <- app_assoc. done.
Qed.

Lemma add_visits_statements (review : Review)
    (l : list (string * AgentResult * Issue)) (s : Session) :
  statements (fold_left (add_visit review) l s) = statements s.
Proof. revert s. induction l as [|x l IH]; intros s; [done|]. cbn [fold_left]. by rewrite IH. Qed.

Lemma visit_session (review : Review) (l : list (string * AgentResult * Issue))
    (st : scan_state) :
  session (fold_left (visit review) l st) = fold_left (add_visit review) l (session st).
Proof. revert st. induction l as [|x l IH]; intros st; [done|]. cbn [fold_left]. by rewrite IH. Qed.

Lemma save_results_visits (review : Review) (file_path : string)
    (found : list AgentResult) (s : Session) :
  save_results review file_path found s
    = fold_left (add_visit review) (single_visits file_path found) s.
Proof.
  unfold save_results, single_visits. rewrite fold_left_concat_map.
  revert s. induction found as [|r found IH]; intros s; [done|].
  cbn [fold_left]. rewrite <- IH. f_equal. by rewrite fold_left_map.
Qed.

Lemma dict_alter_keys (f : aggregate -> aggregate) (k : AgentType) (d : results_dict) :
  map fst (dict_alter f k d) = map fst d.
Proof.
  unfold dict_alter. rewrite map_map. apply map_ext. intros [k' a]. cbn.
  by destruct (bool_decide (k' = k)).
Qed.

Lemma dict_alter_same_issues (f : aggregate -> aggregate) (k : AgentType)
    (d : results_dict) :
  (forall a, agg_issues (f a) = agg_issues a) ->
  dict_issues (dict_alter f k d) = dict_issues d.
Proof.
  intros Hf. unfold dict_issues, dict_alter. rewrite map_map. f_equal.
  apply map_ext. intros [k' a]. cbn. destruct (bool_decide (k' = k)); cbn; [apply Hf|done].
Qed.

Lemma dict_alter_absent (f : aggregate -> aggregate) (k : AgentType) (d : results_dict) :
  ~ In k (map fst d) -> dict_alter f k d = d.
Proof.
  intros Hk. unfold dict_alter. rewrite <- (map_id d) at 2. apply map_ext_in.
  intros [k' a] Hin. cbn. rewrite bool_decide_false; [done|].
  intros ->. apply Hk. apply in_map_iff. by exists (k, a).
Qed.

Lemma dict_alter_append (k : AgentType) (i : Issue) (d : results_dict) :
  NoDup (map fst d) -> In k (map fst d) ->
  dict_issues (dict_alter (fun a => {| agg_issues := (agg_issues a ++ [i])%list;
                                       total_time := total_time a;
                                       agg_success := agg_success a |}) k d)
    ≡ₚ (dict_issues d ++ [i])%list.
Proof.
  unfold dict_issues. induction d as [|[k' a] d IH]; intros Hnd Hin; [done|].
  cbn [map fst] in Hnd, Hin. apply NoDup_cons in Hnd as [Hk' Hnd].
  cbn [dict_alter map fst snd concat].
  destruct (decide (k' = k)) as [->|Hne].
  - rewrite bool_decide_true by done. cbn [snd agg_issues].
    fold (dict_alter (fun a => {| agg_issues := (agg_issues a ++ [i])%list;
                                  total_time := total_time a;
                                  agg_success := agg_success a |}) k d).
    rewrite dict_alter_absent.
    2: { intros H. apply Hk'. by apply list_elem_of_In. }
    rewrite <- !app_assoc. apply Permutation_app_head. apply Permutation_app_comm.
  - rewrite bool_decide_false by done. cbn [snd].
    rewrite <- app_assoc. apply Permutation_app_head. apply IH; [done|].
    destruct Hin as [Hin|Hin]; [done|done].
Qed.

Lemma dict_mem_keys (k : AgentType) (d : results_dict) :
  dict_mem k d = true <-> In k (map fst d).
Proof.
  unfold dict_mem. rewrite existsb_exists, in_map_iff. split.
  - intros ([k' a] & Hin & Hk). apply bool_decide_eq_true in Hk. cbn in Hk. subst.
    by exists (k, a).
  - intros ([k' a] & Hk & Hin). cbn in Hk. subst. exists (k, a). split; [done|].
    by apply bool_decide_eq_true.
Qed.

Lemma visit_dict (review : Review) (st : scan_state) (x : string * AgentResult * Issue) :
  NoDup (map fst (agent_results_dict st)) ->
  NoDup (map fst (agent_results_dict (visit review st x))) /\
  dict_issues (agent_results_dict (visit review st x))
    ≡ₚ (dict_issues (agent_results_dict st) ++ [stamped_issue x])%list.
Proof.
  intros Hnd. destruct x as [[p r] i]. unfold visit, scan_issue.
  cbn [fst snd agent_results_dict]. set (d := agent_results_dict st) in *.
  set (d1 := if negb (dict_mem (agent_type r) d)
             then (d ++ [(agent_type r,
                          {| agg_issues := []; total_time := 0%Qc;
                             agg_success := true |})])%list
             else d).
  assert (H1 : NoDup (map fst d1) /\ In (agent_type r) (map fst d1) /\
               dict_issues d1 = dict_issues d).
  { unfold d1. destruct (dict_mem (agent_type r) d) eqn:Hmem; cbn [negb].
    - split; [done|]. split; [by apply dict_mem_keys|done].
    - assert (Hk : ~ In (agent_type r) (map fst d)).
      { intros H. apply dict_mem_keys in H. congruence. }
      rewrite map_app. cbn [map fst]. split.
      + apply NoDup_app. split; [done|]. split.
        * intros k Hin [<-|[]]%list_elem_of_In. apply Hk. by apply list_elem_of_In.
        * apply NoDup_singleton.
      + split; [apply in_app_iff; right; by left|].
        unfold dict_issues. rewrite map_app, concat_app. cbn. by rewrite app_nil_r. }
  destruct H1 as (Hnd1 & Hin1 & Hi1).
  split.
  - destruct (negb (success r)); by rewrite !dict_alter_keys.
  - rewrite <- Hi1.
    destruct (negb (success r)); rewrite !dict_alter_same_issues by done;
      by apply dict_alter_append.
Qed.

Lemma visits_dict (review : Review) (l : list (string * AgentResult * Issue))
    (st : scan_state) :
  NoDup (map fst (agent_results_dict st)) ->
  NoDup (map fst (agent_results_dict (fold_left (visit review) l st))) /\
  dict_issues (agent_results_dict (fold_left (visit review) l st))
    ≡ₚ (dict_issues (agent_results_dict st) ++ map stamped_issue l)%list.
Proof.
  revert st. induction l as [|x l IH]; intros st Hnd.
  - cbn. by rewrite app_nil_r.
  - cbn [fold_left map]. destruct (visit_dict review st x Hnd) as [Hnd1 Hp1].
    destruct (IH _ Hnd1) as [Hnd2 Hp2]. split; [done|].
    rewrite Hp2, Hp1, <- app_assoc. done.
Qed.

Lemma aggregated_results_issues (d : results_dict) :
  concat (map issues (aggregated_results d)) = dict_issues d.
Proof.
  unfold aggregated_results, dict_issues. rewrite map_map. f_equal.
  apply map_ext. by intros [k a].
Qed.

End VisitProperties.

Section CreateProperties.
Import PyStr Schemas Exceptions Database Reviews Statements Stored.

Lemma complete_fresh (rid : nat) (f : Review -> Review) (l : list Review) :
  ~ In rid (map Database.review_id l) ->
  map (fun r => if Nat.eqb (Database.review_id r) rid then f r else r) l = l.
Proof.
  intros Hfresh. rewrite <- (map_id l) at 2. apply map_ext_in. intros r Hin.
  destruct (Nat.eqb_spec (Database.review_id r) rid) as [Heq|]; [|done].
  destruct Hfresh. rewrite <- Heq. by apply in_map.
Qed.

Lemma create_pending_review_returns (repo : Repository) (request : ReviewRequest)
    (file_path : string) (s : Session) :
  exists s1 review, create_pending_review repo request file_path s = (s1, Ok review).
Proof. by eexists _, _. Qed.

(** A review is created as pending, the rows of the visits [l] are added
    and the review is completed: what the database holds afterwards. *)
Lemma review_stored (repo : Repository) (request : ReviewRequest) (file_path : string)
    (db : Tables) (l : list (string * AgentResult * Issue))
    (response : ReviewResponse) (review : Review) (s1 : Session) :
  create_pending_review repo request file_path (open_session db) = (s1, Ok review) ->
  Schemas.review_id response = Database.review_id review ->
  status response = "completed" ->
  total_issues response = length l ->
  concat (map issues (results response)) ≡ₚ map stamped_issue l ->
  exists db',
    complete_review review (fold_left (add_visit review) l s1) = (open_session db', Ok tt) /\
    stores db db' response l.
Proof.
  unfold create_pending_review. cbn [working open_session]. intros [= <- <-].
  intros Hid Hstatus Htotal Hperm.
  set (review := {| Database.review_id := next_id (map Database.review_id (reviews db));
                    review_repository_id := repo_id repo;
                    review_commit_sha := commit_sha request;
                    review_pull_request_id := pull_request_id request;
                    review_file_path := file_path;
                    review_status := "pending";
                    review_completed := false |}) in *.
  set (s1 := commit (on_working (fun t => set_reviews (reviews t ++ [review])%list t)
                       (open_session db))).
  destruct (add_visits_rows review l s1) as (rows & Hrows & Hc & Hr & Hv & Hp).
  unfold complete_review, commit, on_working. cbn [working statements].
  rewrite add_visits_statements.
  eexists. split; [reflexivity|].
  eexists _, rows. cbn [reviews review_results repositories set_reviews working commit
                        on_working committed].
  rewrite Hv, Hr, Hp. cbn [s1 working commit on_working open_session reviews
                           review_results repositories set_reviews].
  rewrite map_app, complete_fresh by apply next_id_fresh.
  cbn [map Database.review_id review]. rewrite Nat.eqb_refl.
  split; [reflexivity|]. by repeat split.
Qed.

Lemma capped_files (all_files : list FileInfo) :
  (if (max_files <? length all_files)%nat then take max_files all_files else all_files)
    = take max_files all_files.
Proof.
  destruct (Nat.ltb_spec max_files (length all_files)); [done|].
  symmetry. by apply take_ge.
Qed.

(** A scan always goes through; it stores the visits of the first
    [max_files] files. *)
Lemma scan_stores (review_code : reviewer) (repo : Repository) (request : ReviewRequest)
    (all_files : list FileInfo) (display : nat -> nat -> string * string) (db : Tables) :
  exists db' response,
    scan review_code repo request all_files display (open_session db)
      = (open_session db', Ok response) /\
    stores db db' response (visits review_code request (take max_files all_files)).
Proof.
  unfold scan. rewrite capped_files.
  destruct (display _ _) as [stored_display returned_display].
  unfold mbind, stx_bind.
  destruct (create_pending_review_returns repo request stored_display (open_session db))
    as (s1 & review & Hc).
  rewrite Hc. unfold get, modify, mret, stx_ret. cbn beta iota zeta.
  rewrite scan_files_visits.
  set (l := visits review_code request (take max_files all_files)).
  set (st0 := {| session := s1; scan_total_issues := 0; agent_results_dict := [] |}).
  destruct (visits_dict review l st0) as [Hnd Hperm]; [constructor|].
  destruct (visits_aggregate review l [] st0) as [_ Htotal]; [by intros t|].
  rewrite visit_session.
  edestruct (review_stored repo request stored_display db l) as (db' & Hdone & Hstores);
    [exact Hc| | | | |].
  5: { cbn [session st0]. rewrite Hdone. eexists _, _. split; [reflexivity|exact Hstores]. }
  all: cbn [Schemas.review_id status total_issues results]; try done.
  rewrite aggregated_results_issues, Hperm. done.
Qed.

(** So does the review of one file. *)
Lemma review_single_stores (review_code : reviewer) (repo : Repository)
    (request : ReviewRequest) (code file_path : string) (db : Tables) :
  exists db' response,
    review_single review_code repo request code file_path (open_session db)
      = (open_session db', Ok response) /\
    stores db db' response
      (single_visits file_path (review_code code file_path (requested_agents request))).
Proof.
  unfold review_single. unfold mbind, stx_bind.
  destruct (create_pending_review_returns repo request file_path (open_session db))
    as (s1 & review & Hc).
  rewrite Hc. unfold modify, mret, stx_ret. cbn beta iota zeta.
  rewrite save_results_visits.
  set (found := review_code code file_path (requested_agents request)).
  edestruct (review_stored repo request file_path db (single_visits file_path found))
    as (db' & Hdone & Hstores); [exact Hc| | | | |].
  5: { rewrite Hdone. eexists _, _. split; [reflexivity|exact Hstores]. }
  all: cbn [Schemas.review_id status total_issues results]; try done.
  - unfold single_visits. rewrite !length_concat, !map_map. f_equal.
    apply map_ext. intros r. by rewrite length_map.
  - unfold single_visits. rewrite map_map. cbn [issues stamped_result].
    induction found as [|r found IH]; [done|].
    cbn [map concat]. rewrite map_app, IH, map_map. done.
Qed.

End CreateProperties.

Section FetchProperties.
Import PyStr Schemas Exceptions Database Reviews Statements Stored.

Lemma not_found_text (detail : string) :
  contains "404" (http_error_text 404 detail) = true.
Proof. reflexivity. Qed.

Ltac fetch_unfold :=
  unfold try_except, value_error_is_404, first_file, http_exception, raise, lift,
    mbind, stx_bind, mret, stx_ret, fmap, stx_fmap;
  cbn beta iota zeta.

(** A source raised [e]: under [plain_sources] it is no [HTTPException]. *)
Ltac source_raised :=
  eexists _, _; (split; [reflexivity|]); (split; [reflexivity|]);
  let Hplain := fresh "Hplain" in
  let Hhttp := fresh "Hhttp" in
  intros Hplain Hhttp;
  first
    [ by (left + right)
    | exfalso; destruct Hplain as (H1 & H2 & H3 & H4 & H5 & H6);
      match goal with
      | Heq : _ = Raise ?e |- _ =>
          first [ rewrite (H1 _ _ Heq) in Hhttp | rewrite (H2 _ _ _ Heq) in Hhttp
                | rewrite (H3 _ _ _ _ Heq) in Hhttp | rewrite (H4 _ _ _ _ Heq) in Hhttp
                | rewrite (H5 _ _ _ Heq) in Hhttp | rewrite (H6 _ _ _ Heq) in Hhttp ];
          discriminate
      end ].

(** What the inner [try] block of [create_review] does to the database:
    nothing, unless it returns the response of a scan. *)
Lemma fetch_code_outcome (src : Sources) (review_code : reviewer) (repo : Repository)
    (request : ReviewRequest) (db : Tables) :
  exists s r,
    fetch_code src review_code repo request (open_session db) = (s, r) /\
    match r with
    | Ok (Returned response) =>
        exists db' v, s = open_session db' /\ stores db db' response v
    | Ok (Code _ _) => s = open_session db
    | Raise e =>
        s = open_session db /\
        (plain_sources src -> is_http e = true -> client_error e)
    end.
Proof.
  unfold fetch_code.
  repeat match goal with
  | |- context [if ?b then _ else _] =>
      lazymatch b with
      | context [if _ then _ else _] => fail
      | _ => destruct b eqn:?
      end
  end.
  - fetch_unfold. destruct (read_file src _) as [code|e] eqn:Hsrc.
    + (eexists _, _; split; [reflexivity|]; reflexivity).
    + source_raised.
  - fetch_unfold. source_raised.
  - fetch_unfold. destruct (get_all_python_files src _ _) as [[|f files]|e] eqn:Hsrc.
    + source_raised.
    + destruct (scan_stores review_code repo request (f :: files) repository_display db)
        as (db' & response & -> & Hstores).
      eexists _, _. split; [reflexivity|]. eexists _, _. split; [reflexivity|exact Hstores].
    + source_raised.
  - fetch_unfold.
    destruct (get_python_files_in_directory src _ _ _) as [[|f files]|e] eqn:Hsrc.
    + source_raised.
    + destruct (scan_stores review_code repo request (f :: files)
                  (directory_display (strip (default "" (file_path request)))) db)
        as (db' & response & -> & Hstores).
      eexists _, _. split; [reflexivity|]. eexists _, _. split; [reflexivity|exact Hstores].
    + destruct (decide (exn_class e = ValueError)); source_raised.
  - fetch_unfold. destruct (get_file_content src _ _ _) as [code|e] eqn:Hsrc.
    + destruct (negb (nonempty code) || negb (nonempty (strip code))).
      * source_raised.
      * (eexists _, _; split; [reflexivity|]; reflexivity).
    + destruct (decide (exn_class e = ValueError)); source_raised.
  - fetch_unfold. destruct (get_commit_files src _ _) as [[|f files]|e] eqn:Hsrc.
    + source_raised.
    + (eexists _, _; split; [reflexivity|]; reflexivity).
    + source_raised.
  - fetch_unfold. destruct (get_pull_request_files src _ _) as [[|f files]|e] eqn:Hsrc.
    + source_raised.
    + (eexists _, _; split; [reflexivity|]; reflexivity).
    + destruct (contains "404" (str e) || contains "Not Found" (str e)); source_raised.
  - fetch_unfold. source_raised.
  - fetch_unfold. source_raised.
Qed.

End FetchProperties.

Section CreateReviewProperties.
Import PyStr Schemas Exceptions Database Reviews Statements Stored.

(** [create_review] from the database it is served on to the one it
    leaves: the repository row first, then either a failure that changes
    nothing more, or a stored review. *)
Lemma create_review_outcome (src : Sources) (review_code : reviewer)
    (request : ReviewRequest) (db : Tables) :
  exists repo rows db' r,
    serve (create_review src review_code request) db = (db', r) /\
    In repo rows /\ repo_url repo = repository_url request /\
    (rows = repositories db \/
     (rows = (repositories db ++ [repo])%list /\
      (forall r, In r (repositories db) -> repo_url r <> repository_url request) /\
      repo_id repo = next_id (map repo_id (repositories db)))) /\
    match r with
    | Ok response => exists v, stores (set_repositories rows db) db' response v
    | Raise e =>
        db' = set_repositories rows db /\ is_http e = true /\
        (plain_sources src -> client_error e)
    end.
Proof.
  destruct (get_or_create_repository_spec (repository_url request) db)
    as (repo & rows & Hrepo & Hin & Hurl & Hrows).
  set (db_r := set_repositories rows db) in *.
  destruct (fetch_code_outcome src review_code repo request db_r)
    as (s & r & Hfetch & Hr).
  unfold serve, create_review, try_except, mbind, stx_bind.
  rewrite Hrepo, Hfetch.
  destruct r as [[response|code file_path]|e].
  - destruct Hr as (db' & v & -> & Hstores). cbn.
    exists repo, rows. eexists _, _. split; [reflexivity|]. eauto 10.
  - subst s.
    destruct (review_single_stores review_code repo request code file_path db_r)
      as (db' & response & -> & Hstores). cbn.
    exists repo, rows. eexists _, _. split; [reflexivity|]. eauto 10.
  - destruct Hr as [-> Hclass].
    destruct (is_http e) eqn:Hhttp.
    + rewrite Hhttp. cbn.
      exists repo, rows. eexists _, _. split; [reflexivity|]. eauto 10.
    + unfold http_exception, raise. cbn.
      exists repo, rows. eexists _, _. split; [reflexivity|].
      split; [done|]. split; [done|]. split; [done|]. split; [done|]. split; [done|].
      intros _. by left.
Qed.

End CreateReviewProperties.

(** ** What [get_review] reads back *)

Section GetReviewProperties.
Import PyStr Schemas Exceptions Database Reviews Statements Stored.

Lemma Severity_of_value_value (s : Severity) : Severity_of_value (Severity_value s) = Ok s.
Proof. by destruct s. Qed.

Lemma Severity_of_value_ok (text : string) (s : Severity) :
  Severity_of_value text = Ok s -> Severity_value s = text.
Proof.
  unfold Severity_of_value.
  destruct (List.find _ _) as [v|] eqn:Hfind; [|done].
  intros [= <-]. apply find_some in Hfind as [_ Heq]. by apply String.eqb_eq in Heq.
Qed.

Lemma Severity_of_value_raise (text : string) (e : exn) :
  Severity_of_value text = Raise e ->
  exn_class e = ValueError /\ forall s, Severity_value s <> text.
Proof.
  unfold Severity_of_value.
  destruct (List.find _ _) as [v|] eqn:Hfind; [done|].
  intros [= <-]. split; [done|]. intros s Hs.
  assert (Hin : In s [CRITICAL; HIGH; MEDIUM; LOW; INFO]) by (destruct s; cbn; tauto).
  apply (find_none _ _ Hfind) in Hin. apply String.eqb_neq in Hin. done.
Qed.

Lemma Severity_value_inj (s1 s2 : Severity) :
  Severity_value s1 = Severity_value s2 -> s1 = s2.
Proof. by destruct s1, s2. Qed.

Lemma AgentType_of_value_value (t : AgentType) :
  AgentType_of_value (AgentType_value t) = Ok t.
Proof. by destruct t. Qed.

Lemma AgentType_of_value_ok (text : string) (t : AgentType) :
  AgentType_of_value text = Ok t -> AgentType_value t = text.
Proof.
  unfold AgentType_of_value.
  destruct (List.find _ _) as [v|] eqn:Hfind; [|done].
  intros [= <-]. apply find_some in Hfind as [_ Heq]. by apply String.eqb_eq in Heq.
Qed.

Lemma AgentType_of_value_raise (text : string) (e : exn) :
  AgentType_of_value text = Raise e ->
  exn_class e = ValueError /\ forall t, AgentType_value t <> text.
Proof.
  unfold AgentType_of_value.
  destruct (List.find _ _) as [v|] eqn:Hfind; [done|].
  intros [= <-]. split; [done|]. intros t Ht.
  assert (Hin : In t list_AgentType) by (destruct t; cbn; tauto).
  apply (find_none _ _ Hfind) in Hin. apply String.eqb_neq in Hin. done.
Qed.

Lemma AgentType_value_inj (t1 t2 : AgentType) :
  AgentType_value t1 = AgentType_value t2 -> t1 = t2.
Proof. by destruct t1, t2. Qed.

Lemma group_issue_keys (d : list (string * list Issue)) (key : string) (issue : Issue) :
  map fst (group_issue d key issue)
    = if existsb (fun kv => String.eqb (fst kv) key) d then map fst d
      else (map fst d ++ [key])%list.
Proof.
  unfold group_issue. destruct (existsb _ d).
  - rewrite map_map. apply map_ext. intros [k l]. cbn. by destruct (String.eqb k key).
  - by rewrite map_app.
Qed.

Lemma group_member (d : list (string * list Issue)) (key : string) :
  existsb (fun kv => String.eqb (fst kv) key) d = true <-> In key (map fst d).
Proof.
  rewrite existsb_exists, in_map_iff. split.
  - intros ([k l] & Hin & Hk). apply String.eqb_eq in Hk. cbn in Hk. subst. by exists (key, l).
  - intros ([k l] & Hk & Hin). cbn in Hk. subst. exists (key, l). split; [done|].
    by apply String.eqb_eq.
Qed.

Lemma group_issue_grouped (d : list (string * list Issue)) (key : string) (issue : Issue) :
  grouped d ->
  grouped (group_issue d key issue) /\
  concat (map snd (group_issue d key issue)) ≡ₚ (concat (map snd d) ++ [issue])%list.
Proof.
  intros [Hnd Hne]. split; [split|].
  - rewrite group_issue_keys. destruct (existsb _ d) eqn:Hmem; [done|].
    apply NoDup_app. split; [done|]. split; [|apply NoDup_singleton].
    intros k Hin [<-|[]]%list_elem_of_In.
    apply list_elem_of_In, group_member in Hin. congruence.
  - unfold group_issue. destruct (existsb _ d).
    + apply Forall_forall. intros kv [[k l] [<- Hin]]%list_elem_of_In%in_map_iff.
      rewrite Forall_forall in Hne. apply list_elem_of_In in Hin.
      specialize (Hne _ Hin). cbn in *.
      destruct (String.eqb k key); cbn; [|done]. by destruct l.
    + apply Forall_app. split; [done|]. by constructor.
  - unfold group_issue. destruct (existsb _ d) eqn:Hmem.
    + apply group_member in Hmem. clear Hne.
      induction d as [|[k l] d IH]; [done|].
      cbn [map fst] in Hnd. apply NoDup_cons in Hnd as [Hk Hnd].
      cbn [map fst snd concat].
      destruct (String.eqb_spec k key) as [->|Hneq].
      * cbn [snd].
        assert (Hrest : map (fun kv : string * list Issue =>
                               if String.eqb (fst kv) key
                               then (fst kv, (snd kv ++ [issue])%list) else kv) d = d).
        { rewrite <- (map_id d) at 2. apply map_ext_in. intros [k' l'] Hin'. cbn.
          destruct (String.eqb_spec k' key) as [->|]; [|done].
          destruct Hk. apply list_elem_of_In, in_map_iff. by exists (key, l'). }
        rewrite Hrest, <- !app_assoc. apply Permutation_app_head, Permutation_app_comm.
      * rewrite <- app_assoc. apply Permutation_app_head. apply IH; [done|].
        by destruct Hmem as [Hmem|Hmem].
    + rewrite map_app, concat_app. cbn. by rewrite ?app_nil_r.
Qed.

(** The loop over the rows of a review: when every severity reads back,
    the groups hold one issue per row. *)
Lemma group_rows_spec (rows : list ReviewResult) (d g : list (string * list Issue)) :
  group_rows rows d = Ok g ->
  grouped d ->
  exists found,
    Forall2 issue_of_row rows found /\
    grouped g /\
    concat (map snd g) ≡ₚ (concat (map snd d) ++ found)%list /\
    (forall k, In k (map fst g) <-> In k (map fst d) \/ In k (map rr_agent_type rows)).
Proof.
  revert d. induction rows as [|row rows IH]; intros d Hg Hd.
  - injection Hg as <-. exists []. split; [constructor|]. split; [done|].
    rewrite app_nil_r. split; [done|]. intros k. cbn. tauto.
  - cbn [group_rows] in Hg. unfold mbind, result_bind in Hg.
    destruct (Severity_of_value (rr_severity row)) as [sev|e] eqn:Hsev; [|done].
    set (issue := {| severity := sev; issue_type := rr_issue_type row;
                     message := rr_message row; line_number := rr_line_number row;
                     suggestion := rr_suggestion row; metadata := rr_meta_data row |}) in *.
    destruct (group_issue_grouped d (rr_agent_type row) issue Hd) as [Hd1 Hp1].
    destruct (IH _ Hg Hd1) as (found & Hfound & Hgrouped & Hperm & Hkeys).
    exists (issue :: found). split.
    { constructor; [|done]. apply Severity_of_value_ok in Hsev. by repeat split. }
    split; [done|]. split.
    { rewrite Hperm, Hp1, <- app_assoc. done. }
    intros k. rewrite Hkeys, group_issue_keys. cbn [map In].
    destruct (existsb _ d) eqn:Hmem.
    + apply group_member in Hmem. split; [tauto|].
      intros [?|[<-|?]]; tauto.
    + rewrite in_app_iff. cbn. tauto.
Qed.

Lemma group_rows_raise (rows : list ReviewResult) (d : list (string * list Issue))
    (e : exn) :
  group_rows rows d = Raise e -> exn_class e = ValueError.
Proof.
  revert d. induction rows as [|row rows IH]; intros d; [done|].
  cbn [group_rows]. unfold mbind, result_bind.
  destruct (Severity_of_value (rr_severity row)) as [sev|e'] eqn:Hsev.
  - apply IH.
  - intros [= <-]. by apply Severity_of_value_raise in Hsev as [? _].
Qed.

Lemma group_rows_returns (rows : list ReviewResult) (d : list (string * list Issue)) :
  Forall (fun row => exists s, rr_severity row = Severity_value s) rows ->
  exists g, group_rows rows d = Ok g.
Proof.
  revert d. induction rows as [|row rows IH]; intros d Hrows; [by eexists|].
  apply Forall_cons in Hrows as [[s Hs] Hrows].
  cbn [group_rows]. rewrite Hs, Severity_of_value_value. cbn. by apply IH.
Qed.

Lemma group_rows_bad_severity (rows : list ReviewResult) (d : list (string * list Issue))
    (row : ReviewResult) :
  In row rows -> (forall s, Severity_value s <> rr_severity row) ->
  exists e, group_rows rows d = Raise e.
Proof.
  revert d. induction rows as [|r rows IH]; intros d Hin Hbad; [done|].
  cbn [group_rows]. unfold mbind, result_bind.
  destruct (Severity_of_value (rr_severity r)) as [sev|e] eqn:Hsev; [|by eexists].
  destruct Hin as [->|Hin]; [|by apply IH].
  apply Severity_of_value_ok in Hsev. by destruct (Hbad sev).
Qed.

Lemma stored_results_spec (g : list (string * list Issue)) (found : list AgentResult) :
  stored_results g = Ok found ->
  map (fun r => (AgentType_value (agent_type r), issues r)) found = g /\
  Forall (fun r => success r = true /\ execution_time r = 0%Qc /\
                   error_message r = None /\ result_metadata r = None) found.
Proof.
  revert found. induction g as [|[k l] g IH]; intros found.
  - intros [= <-]. by split.
  - cbn [stored_results]. unfold mbind, result_bind.
    destruct (AgentType_of_value k) as [t|e] eqn:Ht; [|done].
    destruct (stored_results g) as [others|e]; [|done].
    intros [= <-]. destruct (IH others eq_refl) as [Hmap Hall].
    apply AgentType_of_value_ok in Ht. cbn. rewrite Hmap, Ht. split; [done|].
    by constructor.
Qed.

Lemma stored_results_raise (g : list (string * list Issue)) (e : exn) :
  stored_results g = Raise e -> exn_class e = ValueError.
Proof.
  induction g as [|[k l] g IH]; [done|].
  cbn [stored_results]. unfold mbind, result_bind.
  destruct (AgentType_of_value k) as [t|e'] eqn:Ht.
  - destruct (stored_results g) as [others|e']; [done|]. intros [= <-]. by apply IH.
  - intros [= <-]. by apply AgentType_of_value_raise in Ht as [? _].
Qed.

Lemma stored_results_returns (g : list (string * list Issue)) :
  (forall k, In k (map fst g) -> exists t, k = AgentType_value t) ->
  exists found, stored_results g = Ok found.
Proof.
  induction g as [|[k l] g IH]; intros Hkeys; [by eexists|].
  cbn [stored_results]. destruct (Hkeys k) as [t ->]; [by left|].
  rewrite AgentType_of_value_value. cbn.
  destruct IH as [others ->]; [|by eexists].
  intros k' Hin. apply Hkeys. by right.
Qed.

Lemma stored_results_bad_key (g : list (string * list Issue)) (k : string) :
  In k (map fst g) -> (forall t, AgentType_value t <> k) ->
  exists e, stored_results g = Raise e.
Proof.
  induction g as [|[k' l] g IH]; intros Hin Hbad; [done|].
  cbn [stored_results]. unfold mbind, result_bind.
  destruct (AgentType_of_value k') as [t|e] eqn:Ht; [|by eexists].
  destruct Hin as [Hk|Hin].
  - cbn in Hk. subst k'. apply AgentType_of_value_ok in Ht. by destruct (Hbad t).
  - destruct (IH Hin Hbad) as [e ->]. by eexists.
Qed.

Lemma stored_results_regrouped (g : list (string * list Issue)) (found : list AgentResult) :
  grouped g -> stored_results g = Ok found ->
  regrouped found /\ concat (map issues found) = concat (map snd g).
Proof.
  intros [Hnd Hne] Hfound. apply stored_results_spec in Hfound as [Hmap Hall].
  subst g. rewrite !map_map in *. cbn [fst snd] in *. split; [|done]. split.
  - rewrite <- (map_map agent_type AgentType_value) in Hnd.
    eapply (NoDup_fmap_1 AgentType_value). by rewrite <- map_is_fmap.
  - rewrite Forall_forall in Hne. rewrite Forall_forall in Hall.
    apply Forall_forall. intros r Hin.
    destruct (Hall r Hin) as (? & ? & ? & ?).
    specialize (Hne (AgentType_value (agent_type r), issues r)). cbn in Hne.
    repeat split; try done. apply Hne. apply list_elem_of_In, in_map_iff.
    exists r. split; [done|]. by apply list_elem_of_In.
Qed.

End GetReviewProperties.

Section ReviewStoreProperties.
Import PyStr Schemas Exceptions Database Reviews Statements Stored.

Lemma find_fresh_snoc {A} (f : A -> bool) (l : list A) (x : A) :
  (forall y, In y l -> f y = false) -> f x = true ->
  List.find f (l ++ [x])%list = Some x.
Proof.
  intros Hl Hx. induction l as [|y l IH]; cbn.
  - by rewrite Hx.
  - rewrite (Hl y) by (by left). apply IH. intros z Hz. apply Hl. by right.
Qed.

Lemma filter_none {A} (P : A -> Prop) `{forall x, Decision (P x)} (l : list A) :
  (forall x, In x l -> ~ P x) -> filter P l = [].
Proof.
  induction l as [|x l IH]; intros Hl; [done|].
  rewrite filter_cons, decide_False by (apply Hl; by left).
  apply IH. intros y Hy. apply Hl. by right.
Qed.

Lemma filter_all {A} (P : A -> Prop) `{forall x, Decision (P x)} (l : list A) :
  (forall x, In x l -> P x) -> filter P l = l.
Proof.
  induction l as [|x l IH]; intros Hl; [done|].
  rewrite filter_cons, decide_True by (apply Hl; by left).
  f_equal. apply IH. intros y Hy. apply Hl. by right.
Qed.

(** What [get_review] answers once the review is found. *)
Lemma get_review_found (db : Tables) (wanted : nat) (review : Review) :
  List.find (fun r => Nat.eqb (Database.review_id r) wanted) (reviews db) = Some review ->
  serve (get_review wanted) db
    = (db,
       groups ← group_rows (filter (fun row => rr_review_id row = wanted)
                              (review_results db)) [];
       found ← stored_results groups;
       Ok {| Schemas.review_id := Database.review_id review;
             resp_repository_url :=
               match List.find (fun r => Nat.eqb (repo_id r) (review_repository_id review))
                       (repositories db) with
               | Some r => repo_url r
               | None => ""
               end;
             resp_file_path := review_file_path review;
             status := review_status review;
             results := found;
             total_issues :=
               length (filter (fun row => rr_review_id row = wanted)
                         (review_results db)) |}).
Proof.
  intros Hfind. unfold serve, get_review, mbind, stx_bind, get. cbn beta iota zeta.
  cbn [working open_session]. rewrite Hfind. unfold lift, result_bind.
  destruct (group_rows _ []) as [groups|e]; [|done].
  by destruct (stored_results groups) as [found|e].
Qed.

Lemma get_review_outcome (db db' : Tables) (wanted : nat) (r : result ReviewResponse) :
  serve (get_review wanted) db = (db', r) ->
  db' = db /\
  match List.find (fun r => Nat.eqb (Database.review_id r) wanted) (reviews db) with
  | None => r = Raise (mkExn (HTTPException 404) "Review not found")
  | Some review => (db', r) = serve (get_review wanted) db
  end.
Proof.
  intros Hserve. split.
  - revert Hserve. unfold serve, get_review, mbind, stx_bind, get. cbn beta iota zeta.
    destruct (List.find _ _) as [review|]; [|by intros [= <- _]].
    unfold lift. destruct (group_rows _ []) as [groups|e]; [|by intros [= <- _]].
    destruct (stored_results groups) as [found|e]; by intros [= <- _].
  - destruct (List.find _ _) as [review|] eqn:Hfind; [done|].
    revert Hserve. unfold serve, get_review, mbind, stx_bind, get. cbn beta iota zeta.
    cbn [working open_session]. rewrite Hfind. by intros [= _ <-].
Qed.

Lemma rows_read_back (rid : nat) (v : list (string * AgentResult * Issue))
    (rows : list ReviewResult) (found : list Issue) :
  Forall2 (row_of_visit rid) v rows -> Forall2 issue_of_row rows found ->
  found = map stamped_issue v.
Proof.
  intros Hrows. revert found. induction Hrows as [|x row v rows Hx Hrows IH]; intros found Hfound.
  - by inversion Hfound.
  - inversion Hfound as [|? issue ? found' Hissue Hfound']; subst. cbn [map]. f_equal.
    + destruct Hx as (_ & _ & Hsev & Htype & Hmsg & Hline & Hsugg & Hmeta).
      destruct Hissue as (Hsev' & Htype' & Hmsg' & Hline' & Hsugg' & Hmeta').
      rewrite Hsev in Hsev'. apply Severity_value_inj in Hsev'.
      destruct issue, x as [[p r] i]. unfold stamped_issue, issue_with_path in *. cbn in *.
      congruence.
    + by apply IH.
Qed.

End ReviewStoreProperties.

Section ReviewRoutesFacts.
Import PyStr Schemas Exceptions Database Reviews Statements Stored.

(** X1. A [create_review] request that fails is answered with an
    [HTTPException]; its status is 400 or 404 when the file system and
    the GitHub integration raise no [HTTPException] of their own.  The
    failure comes before any review is created: the [reviews] and
    [review_results] tables are as they were.  The repository row of the
    request may have been added all the same. *)
Theorem create_review_failure_adds_no_review
    (src : Sources) (review_code : reviewer) (request : ReviewRequest)
    (db db' : Tables) (e : exn) :
  serve (create_review src review_code request) db = (db', Raise e) ->
  is_http e = true /\
  (plain_sources src -> client_error e) /\
  reviews db' = reviews db /\
  review_results db' = review_results db /\
  (repositories db' = repositories db \/
   exists repo,
     repositories db' = (repositories db ++ [repo])%list /\
     repo_url repo = repository_url request).
Proof.
  intros Hserve.
  destruct (create_review_outcome src review_code request db)
    as (repo & rows & db1 & r & Hrun & Hin & Hurl & Hrows & Hr).
  rewrite Hserve in Hrun. injection Hrun as <- <-.
  destruct Hr as (-> & Hhttp & Hclass).
  split; [done|]. split; [done|]. split; [done|]. split; [done|].
  cbn [repositories set_repositories].
  destruct Hrows as [->|(-> & _ & _)]; [by left|right; eauto].
Qed.

Lemma create_review_failure_adds_no_review_witness :
  serve (create_review Examples.sources0
           (Orchestrator.review_code (Orchestrator.new Examples.world0))
           Examples.local_request) Examples.empty_db
    = (set_repositories [mkRepository 1 "unknown" "local" "unknown" "unknown"]
         Examples.empty_db,
       Raise (mkExn (HTTPException 400) "Local file not found: missing.py")) /\
  reviews (set_repositories [mkRepository 1 "unknown" "local" "unknown" "unknown"]
             Examples.empty_db) = [] /\
  review_results (set_repositories [mkRepository 1 "unknown" "local" "unknown" "unknown"]
                    Examples.empty_db) = [].
Proof.
  split; [reflexivity|].
  destruct (create_review_failure_adds_no_review Examples.sources0
              (Orchestrator.review_code (Orchestrator.new Examples.world0))
              Examples.local_request Examples.empty_db _ _ eq_refl)
    as (_ & _ & Hreviews & Hresults & _).
  split; [exact Hreviews | exact Hresults].
Defined.

(** X2. A [create_review] request that succeeds answers ["completed"]
    and leaves exactly one more review, stored as completed under the key
    it returns, which no review had before.  It leaves one more
    [review_results] row per issue of the response, each under that key,
    and [total_issues] is the number of issues in the results returned. *)
Theorem create_review_success_is_stored
    (src : Sources) (review_code : reviewer) (request : ReviewRequest)
    (db db' : Tables) (response : ReviewResponse) :
  serve (create_review src review_code request) db = (db', Ok response) ->
  status response = "completed" /\
  total_issues response = length (concat (map issues (results response))) /\
  (exists review,
     reviews db' = (reviews db ++ [review])%list /\
     Database.review_id review = Schemas.review_id response /\
     ~ In (Schemas.review_id response) (map Database.review_id (reviews db)) /\
     review_status review = "completed" /\
     review_completed review = true) /\
  (exists rows,
     review_results db' = (review_results db ++ rows)%list /\
     length rows = total_issues response /\
     Forall (fun row => rr_review_id row = Schemas.review_id response) rows).
Proof.
  intros Hserve.
  destruct (create_review_outcome src review_code request db)
    as (repo & rows0 & db1 & r & Hrun & _ & _ & _ & Hr).
  rewrite Hserve in Hrun. injection Hrun as <- <-.
  destruct Hr as (v & review & rows & Hreviews & Hid & Hresp & Hstatus & Hdone &
                  Hresults & Hrows & _ & Hcompleted & Htotal & Hperm).
  cbn [reviews review_results set_repositories] in *.
  split; [done|]. split.
  { rewrite Htotal, (Permutation_length Hperm), length_map. done. }
  split.
  - exists review. split; [done|]. split; [done|]. split; [|done].
    rewrite Hresp, Hid. apply next_id_fresh.
  - exists rows. split; [done|]. split.
    + rewrite Htotal. symmetry. by eapply Forall2_length.
    + rewrite Hresp. clear -Hrows. induction Hrows as [|x row v rows Hx _ IH]; [done|].
      constructor; [apply Hx|done].
Qed.

Lemma create_review_success_is_stored_witness :
  exists db' response,
    serve (create_review Examples.sources0
             (Orchestrator.review_code (Orchestrator.new Examples.world0))
             Examples.scan_request) Examples.empty_db = (db', Ok response) /\
    status response = "completed" /\
    total_issues response = length (concat (map issues (results response))) /\
    (exists rows,
       review_results db' = (review_results Examples.empty_db ++ rows)%list /\
       length rows = total_issues response /\
       Forall (fun row => rr_review_id row = Schemas.review_id response) rows).
Proof.
  destruct (serve (create_review Examples.sources0
                     (Orchestrator.review_code (Orchestrator.new Examples.world0))
                     Examples.scan_request) Examples.empty_db)
    as [db' [response|e]] eqn:Hserve.
  - exists db', response. split; [reflexivity|].
    destruct (create_review_success_is_stored _ _ _ _ _ _ Hserve)
      as (Hstatus & Htotal & _ & Hrows).
    split; [exact Hstatus|]. split; [exact Htotal | exact Hrows].
  - exfalso. vm_compute in Hserve. discriminate Hserve.
Defined.

(** X3. A scan reviews the first fifty files it is given and no other:
    it does to the database, and answers, what the scan of these fifty
    files does; the files beyond them count in the displayed text only. *)
Theorem scan_reviews_first_fifty_files
    (review_code : reviewer) (repo : Repository) (request : ReviewRequest)
    (all_files : list FileInfo) (display : nat -> nat -> string * string)
    (s : Session) :
  scan review_code repo request all_files display s
    = scan review_code repo request (take max_files all_files)
        (fun _ processed => display (length all_files) processed) s.
Proof.
  unfold scan. rewrite !capped_files, take_take, Nat.min_id. done.
Qed.

(** X4. A review that [create_review] has stored reads back: on a
    database whose result rows all belong to reviews, [get_review] of the
    key returned succeeds, leaves the database alone and answers
    ["completed"] with the same number of issues and the same issues, up
    to their order; its results are one per agent type, each successful
    with execution time 0 and at least one issue, whatever the results of
    the run were. *)
Theorem created_review_reads_back
    (src : Sources) (review_code : reviewer) (request : ReviewRequest)
    (db db' : Tables) (response : ReviewResponse) :
  rows_have_reviews db ->
  serve (create_review src review_code request) db = (db', Ok response) ->
  exists response',
    serve (get_review (Schemas.review_id response)) db' = (db', Ok response') /\
    Schemas.review_id response' = Schemas.review_id response /\
    status response' = "completed" /\
    total_issues response' = total_issues response /\
    concat (map issues (results response')) ≡ₚ concat (map issues (results response)) /\
    regrouped (results response').
Proof.
  intros Hdb Hserve.
  destruct (create_review_outcome src review_code request db)
    as (repo & rows0 & db1 & r & Hrun & _ & _ & _ & Hr).
  rewrite Hserve in Hrun. injection Hrun as <- <-.
  destruct Hr as (v & review & rows & Hreviews & Hid & Hresp & Hstatus & Hdone &
                  Hresults & Hrows & _ & Hcompleted & Htotal & Hperm).
  cbn [reviews review_results set_repositories] in *.
  assert (Hfresh : ~ In (Database.review_id review) (map Database.review_id (reviews db))).
  { rewrite Hid. apply next_id_fresh. }
  assert (Hfind : List.find (fun r => Nat.eqb (Database.review_id r)
                                        (Schemas.review_id response)) (reviews db')
                  = Some review).
  { rewrite Hreviews, Hresp. apply find_fresh_snoc; [|apply Nat.eqb_refl].
    intros y Hy. apply Nat.eqb_neq. intros Heq. apply Hfresh. rewrite <- Heq.
    by apply in_map. }
  assert (Hfilter : filter (fun row => rr_review_id row = Schemas.review_id response)
                      (review_results db') = rows).
  { rewrite Hresults, filter_app, filter_none, filter_all; [done| |].
    - intros row Hin. rewrite Hresp.
      clear -Hrows Hin. induction Hrows as [|x row' v rows Hx _ IH]; [done|].
      destruct Hin as [->|Hin]; [apply Hx|by apply IH].
    - intros row Hin Heq. destruct (Hdb row Hin) as (rv & Hrv & Hrvid).
      apply Hfresh. rewrite <- Hresp, <- Heq, <- Hrvid. by apply in_map. }
  rewrite (get_review_found db' _ review Hfind), Hfilter.
  destruct (group_rows_returns rows []) as [groups Hgroups].
  { clear -Hrows. induction Hrows as [|x row v rows Hx _ IH]; [done|].
    constructor; [|done]. destruct Hx as (_ & _ & Hsev & _). eauto. }
  destruct (group_rows_spec rows [] groups Hgroups) as (found & Hfound & Hgrouped & Hp & Hkeys).
  { split; constructor. }
  destruct (stored_results_returns groups) as [results' Hstored].
  { intros k Hk. apply Hkeys in Hk as [[]|Hk].
    apply in_map_iff in Hk as (row & <- & Hin).
    clear -Hrows Hin. induction Hrows as [|x row' v rows Hx _ IH]; [done|].
    destruct Hin as [->|Hin]; [|by apply IH].
    destruct Hx as (_ & Hagent & _). eauto. }
  destruct (stored_results_regrouped groups results' Hgrouped Hstored) as [Hre Hissues].
  unfold mbind, result_bind. rewrite Hgroups, Hstored.
  eexists. split; [reflexivity|]. cbn.
  split; [done|]. split; [done|]. split.
  { rewrite Htotal. symmetry. by eapply Forall2_length. }
  split; [|done].
  rewrite Hissues, Hp, Hperm. cbn.
  by rewrite (rows_read_back _ _ _ _ Hrows Hfound).
Qed.

Lemma created_review_reads_back_witness :
  rows_have_reviews Examples.empty_db /\
  exists db' response response',
    serve (create_review Examples.sources0
             (Orchestrator.review_code (Orchestrator.new Examples.world0))
             Examples.scan_request) Examples.empty_db = (db', Ok response) /\
    serve (get_review (Schemas.review_id response)) db' = (db', Ok response') /\
    total_issues response' = total_issues response.
Proof.
  assert (Hdb : rows_have_reviews Examples.empty_db) by (intros row []).
  split; [exact Hdb|].
  destruct (serve (create_review Examples.sources0
                     (Orchestrator.review_code (Orchestrator.new Examples.world0))
                     Examples.scan_request) Examples.empty_db)
    as [db' [response|e]] eqn:Hserve.
  - destruct (created_review_reads_back _ _ _ _ _ _ Hdb Hserve)
      as (response' & Hget & _ & _ & Htotal & _).
    exists db', response, response'. split; [reflexivity|]. split; [exact Hget | exact Htotal].
  - exfalso. vm_compute in Hserve. discriminate Hserve.
Defined.

(** X5. Whatever the database holds, a [get_review] that succeeds
    changes nothing and answers for a review with the key asked for, with
    the status and the path stored.  Its issues are the rows of the review,
    one issue per row; [total_issues] counts them; the results are one per
    agent type, each successful with execution time 0 and at least one
    issue. *)
Theorem get_review_regroups_rows
    (db db' : Tables) (wanted : nat) (response : ReviewResponse) :
  serve (get_review wanted) db = (db', Ok response) ->
  db' = db /\
  Schemas.review_id response = wanted /\
  (exists review,
     In review (reviews db) /\ Database.review_id review = wanted /\
     status response = review_status review /\
     resp_file_path response = review_file_path review) /\
  regrouped (results response) /\
  total_issues response = length (concat (map issues (results response))) /\
  exists found,
    Forall2 issue_of_row
      (filter (fun row => rr_review_id row = wanted) (review_results db)) found /\
    concat (map issues (results response)) ≡ₚ found.
Proof.
  intros Hserve. destruct (get_review_outcome _ _ _ _ Hserve) as [-> Hfind].
  split; [done|].
  destruct (List.find _ (reviews db)) as [review|] eqn:Hreview; [|done].
  clear Hfind. rewrite (get_review_found db wanted review Hreview) in Hserve.
  unfold mbind, result_bind in Hserve.
  destruct (group_rows _ []) as [groups|e] eqn:Hgroups; [|done].
  destruct (stored_results groups) as [results'|e] eqn:Hstored; [|done].
  injection Hserve as <-. cbn.
  apply find_some in Hreview as [Hin Hid]. apply Nat.eqb_eq in Hid.
  destruct (group_rows_spec _ [] groups Hgroups) as (found & Hfound & Hgrouped & Hp & _).
  { split; constructor. }
  destruct (stored_results_regrouped groups results' Hgrouped Hstored) as [Hre Hissues].
  split; [done|]. split; [eauto|]. split; [done|]. split.
  - rewrite Hissues, (Permutation_length Hp). cbn. by eapply Forall2_length.
  - exists found. split; [done|]. by rewrite Hissues, Hp.
Qed.

Lemma get_review_regroups_rows_witness :
  exists db' response response',
    serve (create_review Examples.sources0
             (Orchestrator.review_code (Orchestrator.new Examples.world0))
             Examples.scan_request) Examples.empty_db = (db', Ok response) /\
    serve (get_review 1) db' = (db', Ok response') /\
    regrouped (results response') /\
    total_issues response' = length (concat (map issues (results response'))).
Proof.
  destruct (serve (create_review Examples.sources0
                     (Orchestrator.review_code (Orchestrator.new Examples.world0))
                     Examples.scan_request) Examples.empty_db)
    as [db' [response|e]] eqn:Hserve.
  - destruct (serve (get_review 1) db') as [db'' [response'|e]] eqn:Hget.
    + destruct (get_review_regroups_rows _ _ _ _ Hget) as (-> & _ & _ & Hre & Htotal & _).
      exists db', response, response'.
      split; [reflexivity|]. split; [exact Hget|]. split; [exact Hre | exact Htotal].
    + exfalso. vm_compute in Hserve. injection Hserve as <- _.
      vm_compute in Hget. discriminate Hget.
  - exfalso. vm_compute in Hserve. discriminate Hserve.
Defined.

(** X6. [get_review] has no handler of its own: when a row of the review
    asked for holds a severity or an agent type that is no value of the
    enumeration, the request ends with a [ValueError], which is no
    [HTTPException], and the database is left alone. *)
Theorem get_review_bad_row_raises_value_error
    (db : Tables) (wanted : nat) (review : Review) (row : ReviewResult) :
  In review (reviews db) -> Database.review_id review = wanted ->
  In row (review_results db) -> rr_review_id row = wanted ->
  (forall s, Severity_value s <> rr_severity row) \/
  (forall t, AgentType_value t <> rr_agent_type row) ->
  exists e,
    serve (get_review wanted) db = (db, Raise e) /\
    exn_class e = ValueError /\ is_http e = false.
Proof.
  intros Hin Hid Hrow Hrid Hbad.
  destruct (List.find (fun r => Nat.eqb (Database.review_id r) wanted) (reviews db))
    as [review'|] eqn:Hfind.
  2: { apply (find_none _ _ Hfind) in Hin. apply Nat.eqb_neq in Hin. done. }
  rewrite (get_review_found db wanted review' Hfind).
  assert (Hrow' : In row (filter (fun row => rr_review_id row = wanted) (review_results db))).
  { apply list_elem_of_In, list_elem_of_filter. split; [done|]. by apply list_elem_of_In. }
  unfold mbind, result_bind.
  destruct (group_rows _ []) as [groups|e] eqn:Hgroups.
  - destruct Hbad as [Hbad|Hbad].
    { destruct (group_rows_bad_severity _ [] row Hrow' Hbad) as [e He]. congruence. }
    destruct (group_rows_spec _ [] groups Hgroups) as (found & _ & _ & _ & Hkeys).
    { split; constructor. }
    destruct (stored_results_bad_key groups (rr_agent_type row)) as [e He]; [|done|].
    { apply Hkeys. right. by apply in_map. }
    rewrite He. exists e. split; [done|].
    apply stored_results_raise in He. unfold is_http. by rewrite He.
  - exists e. split; [done|]. apply group_rows_raise in Hgroups.
    unfold is_http. by rewrite Hgroups.
Qed.

End ReviewRoutesFacts.

Section ReviewRoutesFacts2.
Import PyStr Schemas Exceptions Database Reviews Statements Stored.

Lemma get_review_bad_row_raises_value_error_witness :
  In (mkReview 1 1 None None "a.py" "completed" true) (reviews MoreExamples.odd_db) /\
  In (mkReviewResult 1 1 "quality" "urgent" "C0103" "[a.py] Bad name" (Some 1) None None)
     (review_results MoreExamples.odd_db) /\
  (forall s, Severity_value s <> "urgent") /\
  exists e,
    serve (get_review 1) MoreExamples.odd_db = (MoreExamples.odd_db, Raise e) /\
    exn_class e = ValueError /\ is_http e = false.
Proof.
  assert (Hbad : forall s, Severity_value s <> "urgent") by (by intros []).
  split; [by left|]. split; [by left|]. split; [exact Hbad|].
  exact (get_review_bad_row_raises_value_error MoreExamples.odd_db 1
           (mkReview 1 1 None None "a.py" "completed" true)
           (mkReviewResult 1 1 "quality" "urgent" "C0103" "[a.py] Bad name" (Some 1) None None)
           (or_introl eq_refl) eq_refl (or_introl eq_refl) eq_refl (or_introl Hbad)).
Defined.

Lemma NoDup_snoc_fresh {A} (l : list A) (x : A) :
  NoDup l -> ~ In x l -> NoDup (l ++ [x]).
Proof.
  intros Hl Hx. apply NoDup_app. split; [done|]. split; [|apply NoDup_singleton].
  intros y Hy [<-|[]]%list_elem_of_In. apply Hx. by apply list_elem_of_In.
Qed.

(** X7. Repositories are told apart by their URL.  Whatever becomes of a
    [create_review] request, a database in which no two repositories share
    a URL, or a key, is still such a database afterwards, and it holds a
    repository with the URL of the request; when it held one before, no
    repository is added. *)
Theorem create_review_keeps_one_repository_per_url
    (src : Sources) (review_code : reviewer) (request : ReviewRequest)
    (db db' : Tables) (r : result ReviewResponse) :
  NoDup (map repo_url (repositories db)) ->
  NoDup (map repo_id (repositories db)) ->
  serve (create_review src review_code request) db = (db', r) ->
  NoDup (map repo_url (repositories db')) /\
  NoDup (map repo_id (repositories db')) /\
  In (repository_url request) (map repo_url (repositories db')) /\
  (In (repository_url request) (map repo_url (repositories db)) ->
   repositories db' = repositories db).
Proof.
  intros Hurls Hids Hserve.
  destruct (create_review_outcome src review_code request db)
    as (repo & rows & db1 & r1 & Hrun & Hin & Hurl & Hrows & Hr).
  rewrite Hserve in Hrun. injection Hrun as <- <-.
  assert (Hrepos : repositories db' = rows).
  { destruct r as [response|e].
    - destruct Hr as (v & review & rows' & _ & _ & _ & _ & _ & _ & _ & Hrepos & _).
      exact Hrepos.
    - by destruct Hr as (-> & _). }
  rewrite Hrepos.
  assert (Hhas : In (repository_url request) (map repo_url rows)).
  { rewrite <- Hurl. by apply in_map. }
  destruct Hrows as [->|(-> & Hfresh & Hid)]; [done|].
  rewrite !map_app. cbn [map]. split; [|split; [|split]].
  - apply NoDup_snoc_fresh; [done|].
    intros (r0 & Hr0 & Hin0)%in_map_iff. apply (Hfresh r0 Hin0). congruence.
  - apply NoDup_snoc_fresh; [done|]. rewrite Hid. apply next_id_fresh.
  - by rewrite map_app in Hhas.
  - intros (r0 & Hr0 & Hin0)%in_map_iff. destruct (Hfresh r0 Hin0). congruence.
Qed.

Lemma create_review_keeps_one_repository_per_url_witness :
  NoDup (map repo_url (repositories Examples.empty_db)) /\
  NoDup (map repo_id (repositories Examples.empty_db)) /\
  exists db' r,
    serve (create_review Examples.sources0
             (Orchestrator.review_code (Orchestrator.new Examples.world0))
             Examples.local_request) Examples.empty_db = (db', r) /\
    NoDup (map repo_url (repositories db')) /\
    In "local" (map repo_url (repositories db')).
Proof.
  assert (H1 : NoDup (map repo_url (repositories Examples.empty_db))) by constructor.
  assert (H2 : NoDup (map repo_id (repositories Examples.empty_db))) by constructor.
  split; [exact H1|]. split; [exact H2|].
  eexists _, _. split; [reflexivity|].
  destruct (create_review_keeps_one_repository_per_url Examples.sources0
              (Orchestrator.review_code (Orchestrator.new Examples.world0))
              Examples.local_request Examples.empty_db _ _ H1 H2 eq_refl)
    as (Hurls & _ & Hin & _).
  split; [exact Hurls | exact Hin].
Defined.

Lemma stamped_message_stamped (file_path message : string) :
  startswith (stamped_message file_path message) ("[" ++ file_path ++ "]") = true.
Proof.
  unfold stamped_message.
  destruct (startswith message ("[" ++ file_path ++ "]")) eqn:Hstart; [done|].
  unfold startswith.
  replace ("[" ++ file_path ++ "] " ++ message)
    with (("[" ++ file_path ++ "]") ++ " " ++ message).
  - apply prefix_append.
  - rewrite !append_assoc. done.
Qed.

(** X8. Stamping the path of a file on an issue is idempotent, and it
    shows: the message of a stamped issue starts with the path in
    brackets, its metadata hold the path under [file_path], and severity,
    type, line and suggestion are those of the issue. *)
Theorem issue_with_path_is_idempotent (file_path : string) (issue : Issue) :
  issue_with_path file_path (issue_with_path file_path issue)
    = issue_with_path file_path issue /\
  startswith (message (issue_with_path file_path issue)) ("[" ++ file_path ++ "]") = true /\
  (exists m, metadata (issue_with_path file_path issue) = Some m /\
             m !! "file_path" = Some (JStr file_path)) /\
  severity (issue_with_path file_path issue) = severity issue /\
  issue_type (issue_with_path file_path issue) = issue_type issue /\
  line_number (issue_with_path file_path issue) = line_number issue /\
  suggestion (issue_with_path file_path issue) = suggestion issue.
Proof.
  split; [|split; [|split]].
  - unfold issue_with_path. cbn [severity issue_type message line_number suggestion metadata].
    f_equal.
    + unfold stamped_message at 1. by rewrite stamped_message_stamped.
    + f_equal. unfold stamped_metadata. cbn [default from_option id].
      apply insert_insert_eq.
  - apply stamped_message_stamped.
  - eexists. split; [reflexivity|]. unfold stamped_metadata. apply lookup_insert_eq.
  - done.
Qed.

(** X9. At the route an empty list of agent types is no list at all: the
    request with [agent_types = []] is served exactly as the request that
    leaves [agent_types] out, whatever the orchestrator; with the
    orchestrator of the program it is served exactly as the request that
    lists the four agent types in the order quality, security,
    performance, documentation. *)
Theorem create_review_runs_all_agents_for_an_empty_list
    (src : Sources) (w : Orchestrator.World)
    (url : string) (path sha : option string) (pr : option Z) (whole : option bool) :
  (forall review_code : reviewer,
     create_review src review_code
       {| repository_url := url; file_path := path; commit_sha := sha;
          pull_request_id := pr; scan_entire_repo := whole; agent_types := Some [] |}
     = create_review src review_code
         {| repository_url := url; file_path := path; commit_sha := sha;
            pull_request_id := pr; scan_entire_repo := whole; agent_types := None |}) /\
  create_review src (Orchestrator.review_code (Orchestrator.new w))
    {| repository_url := url; file_path := path; commit_sha := sha;
       pull_request_id := pr; scan_entire_repo := whole; agent_types := Some [] |}
  = create_review src (Orchestrator.review_code (Orchestrator.new w))
      {| repository_url := url; file_path := path; commit_sha := sha;
         pull_request_id := pr; scan_entire_repo := whole;
         agent_types := Some [QUALITY; SECURITY; PERFORMANCE; DOCUMENTATION] |}.
Proof.
  split.
  - intros review_code. reflexivity.
  - reflexivity.
Qed.

End ReviewRoutesFacts2.

(** ** The orchestrator and its agents *)

Section OrchestratorFacts.
Import PyStr Schemas Exceptions BaseAgent Orchestrator Statements.

Lemma analyze_of_agent (w : World) (t : AgentType) (code file_path : string) :
  (exists found, analyze (agent_of w t) code file_path = Ok found) \/
  (t = DOCUMENTATION /\
   exists e, ast_parse w code = Raise e /\ exn_class e <> SyntaxError /\
             analyze (agent_of w t) code file_path = Raise e).
Proof.
  destruct t; cbn [agent_of analyze QualityAgent.new SecurityAgent.new PerformanceAgent.new
                   DocumentationAgent.new].
  1-3: left; by eexists.
  unfold DocumentationAgent.analyze, DocumentationAgent.analyze_body, try_except,
    mbind, stx_bind, lift, DocumentationAgent.extend, modify, get.
  destruct (ast_parse w code) as [tree|e] eqn:Hparse; cbn.
  - left. by eexists.
  - destruct (decide (exn_class e = SyntaxError)) as [Hclass|Hclass]; cbn.
    + left. by eexists.
    + right. split; [done|]. by exists e.
Qed.

Lemma documentation_fails_with_parser (w : World) (code file_path : string) (e : exn) :
  ast_parse w code = Raise e -> exn_class e <> SyntaxError ->
  analyze (agent_of w DOCUMENTATION) code file_path = Raise e.
Proof.
  intros Hparse Hclass. cbn [agent_of analyze DocumentationAgent.new].
  unfold DocumentationAgent.analyze, DocumentationAgent.analyze_body, try_except,
    mbind, stx_bind, lift. rewrite Hparse. cbn. by rewrite decide_False.
Qed.

(** What the orchestrator reports for one agent type, spelled out. *)
Lemma outcome_of_spec (w : World) (code file_path : string) (t : AgentType) :
  outcome_of w code file_path t
    = let '(start_time, end_time) := clock w t code file_path in
      match analyze (agent_of w t) code file_path with
      | Ok found =>
          {| agent_type := t; success := true;
             execution_time := (end_time - start_time)%Qc; issues := found;
             error_message := None;
             result_metadata := Some (_get_metadata (agent_of w t)) |}
      | Raise e =>
          {| agent_type := t; success := false;
             execution_time := (end_time - start_time)%Qc; issues := [];
             error_message := Some (str e);
             result_metadata := Some (_get_metadata (agent_of w t)) |}
      end.
Proof.
  unfold outcome_of, running. cbn [review]. rewrite agent_of_type.
  destruct (clock w t code file_path) as [start_time end_time].
  unfold BaseAgent.review.
  destruct (analyze (agent_of w t) code file_path) as [found|e] eqn:Han.
  - rewrite (review_try_ok _ _ _ found) by done. cbn. by rewrite agent_of_type.
  - rewrite (review_try_raise _ _ _ e) by done. cbn. by rewrite agent_of_type.
Qed.

Lemma review_code_is_outcomes (w : World) (code file_path : string)
    (agent_types : option (list AgentType)) :
  review_code (new w) code file_path agent_types
    = map (outcome_of w code file_path) (default list_AgentType agent_types).
Proof. destruct agent_types as [given|]; apply review_code_outcomes. Qed.


End OrchestratorFacts.

Section ComplexityFacts.
Import PyStr Schemas Exceptions BaseAgent DocumentationAgent.

Lemma zip_levels_concat (l1 l2 : list (list ast)) :
  concat (zip_levels l1 l2) ≡ₚ (concat l1 ++ concat l2)%list.
Proof.
  revert l2. induction l1 as [|a l1 IH]; intros [|b l2]; cbn [zip_levels concat].
  - done.
  - done.
  - by rewrite app_nil_r.
  - rewrite IH, <- !app_assoc. apply Permutation_app_head.
    rewrite !app_assoc. apply Permutation_app_tail, Permutation_app_comm.
Qed.

(** [ast.walk] yields a node and then, in some order, what it yields for
    each of its children. *)
Lemma walk_children (kind : node_kind) (children : list ast) :
  walk (Node kind children) ≡ₚ Node kind children :: concat (map walk children).
Proof.
  unfold walk. cbn [levels concat app]. apply Permutation_cons; [done|].
  induction children as [|c cs IH]; [done|].
  cbn [map concat]. rewrite zip_levels_concat. by apply Permutation_app_head.
Qed.

Lemma complexity_fold (nodes : list ast) (start : Z) :
  fold_left (fun complexity child => complexity + complexity_weight child) nodes start
    = start + foldr Z.add 0 (map complexity_weight nodes).
Proof.
  revert start. induction nodes as [|n nodes IH]; intros start; cbn; [lia|].
  rewrite IH. lia.
Qed.

Lemma sum_weights_perm (l1 l2 : list ast) :
  l1 ≡ₚ l2 ->
  foldr Z.add 0 (map complexity_weight l1) = foldr Z.add 0 (map complexity_weight l2).
Proof. induction 1; cbn; lia. Qed.

Lemma sum_weights_app (l1 l2 : list ast) :
  foldr Z.add 0 (map complexity_weight (l1 ++ l2))
    = foldr Z.add 0 (map complexity_weight l1) + foldr Z.add 0 (map complexity_weight l2).
Proof. induction l1 as [|n l1 IH]; cbn; [done|]. rewrite IH. lia. Qed.

(** X11. The complexity [_calculate_complexity] gives a node is 1, plus
    the weight of the node itself, plus what each child adds, which is its
    own complexity less 1: the order in which [ast.walk] visits the tree
    does not matter, and a function defined inside another counts in full
    towards the outer one. *)
Theorem complexity_is_the_sum_over_the_children
    (kind : node_kind) (children : list ast) :
  _calculate_complexity (Node kind children)
    = 1 + complexity_weight (Node kind children)
      + foldr Z.add 0 (map (fun c => _calculate_complexity c - 1) children).
Proof.
  unfold _calculate_complexity. rewrite complexity_fold.
  rewrite (sum_weights_perm _ _ (walk_children kind children)).
  cbn [map foldr]. rewrite <- Z.add_assoc. f_equal. f_equal.
  induction children as [|c cs IH]; [done|].
  cbn [map concat foldr]. rewrite sum_weights_app, IH, complexity_fold. lia.
Qed.

End ComplexityFacts.

Section DocstringFacts.
Import PyStr Schemas Exceptions BaseAgent DocumentationAgent.

Lemma existsb_const {A} (c : bool) (l : list A) :
  existsb (fun _ => c) l = c && match l with [] => false | _ => true end.
Proof.
  induction l as [|x l IH]; cbn; [by rewrite andb_false_r|].
  rewrite IH. by destruct c, l.
Qed.

(** X12. The issues [_check_function_docstrings] raises for one function
    definition.  A function whose name starts with an underscore gets none.
    Any other gets [missing_function_docstring] exactly when it has no
    docstring, and then nothing else; [poor_docstring_quality] exactly when
    its docstring has fewer than 20 characters; and
    [missing_parameter_docs] exactly when it has a docstring and
    parameters and neither ["param"] nor ["arg"] occurs anywhere in the
    lower-cased docstring: the loop over the words of the docstring tests
    the whole docstring each time, so that a word such as ["target"]
    counts as parameter documentation. *)
Theorem function_docstring_issues_by_case
    (name : string) (lineno end_lineno : nat) (args : list string)
    (docstring : option string) (children : list ast) :
  let node := Node (FunctionDef name lineno end_lineno args docstring) children in
  let found := map issue_type (function_docstring_issues node) in
  let doc := default "" docstring in
  (startswith name "_" = true -> function_docstring_issues node = []) /\
  (startswith name "_" = false ->
   (has_docstring docstring = false -> found = ["missing_function_docstring"]) /\
   (In "missing_function_docstring" found <-> has_docstring docstring = false) /\
   (In "poor_docstring_quality" found <->
    has_docstring docstring = true /\ (String.length doc < 20)%nat) /\
   (In "missing_parameter_docs" found <->
    has_docstring docstring = true /\ args <> [] /\
    (split_ws doc = [] \/
     (contains "param" (lower doc) = false /\ contains "arg" (lower doc) = false)))).
Proof.
  cbn zeta. unfold function_docstring_issues. cbn [kind_of].
  split; [by intros ->|]. intros ->.
  destruct (has_docstring docstring) eqn:Hdoc; cbn [negb].
  2: { split; [done|]. cbn. split; [by split; [|left]|].
       split; (split; [by intros [|[]]|by intros []]). }
  split; [done|].
  rewrite existsb_const, map_app.
  set (doc := default "" docstring).
  set (mentions := contains "param" (lower doc) || contains "arg" (lower doc)).
  assert (Hmentions : mentions = false <->
            contains "param" (lower doc) = false /\ contains "arg" (lower doc) = false)
    by apply orb_false_iff.
  destruct (Nat.ltb_spec (String.length doc) 20) as [Hlen|Hlen];
    destruct args as [|a args];
    destruct (split_ws doc) as [|word words];
    destruct mentions;
    cbn; intuition (try discriminate; try lia; try congruence).
Qed.

Lemma function_docstring_issues_by_case_witness :
  startswith "fetch" "_" = false /\
  has_docstring (Some "Return the target of the link.") = true /\
  contains "arg" (lower "Return the target of the link.") = true /\
  (In "missing_parameter_docs"
      (map issue_type
         (function_docstring_issues
            (Node (FunctionDef "fetch" 1 2 ["url"] (Some "Return the target of the link."))
               []))) <->
   has_docstring (Some "Return the target of the link.") = true /\
   ["url"] <> [] /\
   (split_ws "Return the target of the link." = [] \/
    (contains "param" (lower "Return the target of the link.") = false /\
     contains "arg" (lower "Return the target of the link.") = false))).
Proof.
  split; [reflexivity|]. split; [reflexivity|]. split; [reflexivity|].
  exact (proj2 (proj2 (proj2 (proj2 (function_docstring_issues_by_case "fetch" 1 2 ["url"]
                         (Some "Return the target of the link.") []) eq_refl)))).
Defined.

End DocstringFacts.

Section NestedLoopsFacts.
Import PyStr Schemas Exceptions BaseAgent PerformanceAgent.

Lemma nested_loops_quiet (st : loop_state) (entries : list (nat * string)) :
  (forall n line, In (n, line) entries ->
     startswith (strip line) "return" = false /\ startswith (strip line) "break" = false) ->
  found (fold_left nested_loops_step entries st) = found st.
Proof.
  revert st. induction entries as [|[n line] entries IH]; intros st Hquiet; [done|].
  cbn [fold_left]. rewrite IH by (intros n' l' Hin; apply (Hquiet n' l'); by right).
  destruct (Hquiet n line) as [Hret Hbrk]; [by left|].
  unfold nested_loops_step. rewrite Hret, Hbrk, andb_false_r.
  by repeat match goal with |- context [if ?b then _ else _] => destruct b end.
Qed.

Lemma enumerate_lines {A} (start : nat) (l : list A) (n : nat) (x : A) :
  In (n, x) (enumerate start l) -> In x l.
Proof.
  intros [_ Hx]%enumerate_in. apply list_elem_of_In. by eapply list_elem_of_lookup_2.
Qed.

(** X13. [_check_nested_loops] reports only where a loop is left by
    [return] or [break]: for a file none of whose lines, stripped, starts
    with ["return"] or ["break"], it reports nothing, however deep the
    loops of the file are nested. *)
Theorem nested_loops_need_a_return_or_break (code file_path : string) :
  (forall line, In line (split newline code) ->
     startswith (strip line) "return" = false /\ startswith (strip line) "break" = false) ->
  _check_nested_loops code file_path = [].
Proof.
  intros Hquiet. unfold _check_nested_loops. rewrite nested_loops_quiet; [done|].
  intros n line Hin. apply Hquiet. by eapply enumerate_lines.
Qed.

Lemma nested_loops_need_a_return_or_break_witness :
  (forall line, In line (split newline MoreExamples.loops_without_exit) ->
     startswith (strip line) "return" = false /\ startswith (strip line) "break" = false) /\
  _check_nested_loops MoreExamples.loops_without_exit "loops.py" = [].
Proof.
  assert (Hquiet : forall line, In line (split newline MoreExamples.loops_without_exit) ->
            startswith (strip line) "return" = false /\
            startswith (strip line) "break" = false).
  { intros line Hin. vm_compute in Hin.
    repeat (destruct Hin as [<-|Hin]; [split; reflexivity|]). destruct Hin. }
  split; [exact Hquiet|].
  exact (nested_loops_need_a_return_or_break MoreExamples.loops_without_exit "loops.py" Hquiet).
Defined.

End NestedLoopsFacts.

Section LineNumberFacts.
Import PyStr Schemas Exceptions BaseAgent Lines.

Lemma Forall_concat_map {A B} (P : B -> Prop) (f : A -> list B) (l : list A) :
  (forall x, In x l -> Forall P (f x)) -> Forall P (concat (map f l)).
Proof.
  induction l as [|x l IH]; intros Hf; [constructor|].
  cbn. apply Forall_app. split; [apply Hf; by left|]. apply IH. intros y Hy. apply Hf. by right.
Qed.

Lemma enumerate_range {A} (start : nat) (l : list A) (n : nat) (x : A) :
  In (n, x) (enumerate start l) -> (start <= n < start + length l)%nat.
Proof.
  intros [Hle Hx]%enumerate_in. apply lookup_lt_Some in Hx. lia.
Qed.

Lemma points_into_created (code : string) (n : nat) sev type msg sugg meta :
  (1 <= n <= length (split newline code))%nat ->
  points_into code (_create_issue sev type msg (Some (Z.of_nat n)) sugg meta).
Proof. intros Hn. by exists n. Qed.

Lemma nested_loops_in_range (code : string) (entries : list (nat * string))
    (st : PerformanceAgent.loop_state) :
  (forall n line, In (n, line) entries -> (1 <= n <= length (split newline code))%nat) ->
  ((0 < PerformanceAgent.loop_depth st)%nat ->
   (1 <= PerformanceAgent.start_line st <= length (split newline code))%nat) ->
  Forall (points_into code) (PerformanceAgent.found st) ->
  Forall (points_into code)
    (PerformanceAgent.found (fold_left PerformanceAgent.nested_loops_step entries st)).
Proof.
  revert st. induction entries as [|[n line] entries IH]; intros st Hrange Hstart Hfound;
    [done|].
  cbn [fold_left]. apply IH.
  - intros n' l' Hin. apply (Hrange n' l'). by right.
  - specialize (Hrange n line (or_introl eq_refl)).
    unfold PerformanceAgent.nested_loops_step.
    repeat match goal with |- context [if ?b then _ else _] => destruct b eqn:? end;
      cbn [PerformanceAgent.loop_depth PerformanceAgent.start_line]; try done; try lia.
    intros _. apply Hstart.
    match goal with H : (S _ =? 1)%nat = false |- _ => apply Nat.eqb_neq in H; lia end.
  - unfold PerformanceAgent.nested_loops_step.
    repeat match goal with |- context [if ?b then _ else _] => destruct b eqn:? end;
      cbn [PerformanceAgent.found]; try done.
    apply Forall_app. split; [done|]. constructor; [|done].
    apply points_into_created. apply Hstart.
    apply andb_true_iff in Heqb2 as [Hdepth _]. by apply Nat.ltb_lt in Hdepth.
Qed.

(** X14. The checks that read a file line by line name lines of the
    file: every issue of the three custom checks of the security agent and
    of the four of the performance agent carries a line number between 1
    and the number of lines of the code. *)
Theorem line_checks_point_into_the_file (code file_path : string) :
  Forall (points_into code)
    (SecurityAgent._check_hardcoded_secrets code file_path
     ++ SecurityAgent._check_sql_injection code file_path
     ++ SecurityAgent._check_insecure_random code file_path
     ++ PerformanceAgent._check_nested_loops code file_path
     ++ PerformanceAgent._check_string_concatenation code file_path
     ++ PerformanceAgent._check_list_comprehension_opportunities code file_path
     ++ PerformanceAgent._check_inefficient_operations code file_path)%list.
Proof.
  repeat (apply Forall_app; split).
  - unfold SecurityAgent._check_hardcoded_secrets. apply Forall_concat_map.
    intros [n line] Hin%enumerate_range. apply Forall_concat_map. intros [name msg] _.
    destruct (Regex.search _ line); [|done].
    constructor; [|done]. apply points_into_created. lia.
  - unfold SecurityAgent._check_sql_injection. apply Forall_concat_map.
    intros [n line] Hin%enumerate_range.
    destruct (Regex.search _ line); [|destruct (Regex.search _ line); [|done]];
      (constructor; [|done]); apply points_into_created; lia.
  - unfold SecurityAgent._check_insecure_random. apply Forall_concat_map.
    intros [n line] Hin%enumerate_range.
    destruct (_ && _); [|done]. destruct (existsb _ _); [|done].
    constructor; [|done]. apply points_into_created. lia.
  - unfold PerformanceAgent._check_nested_loops. apply nested_loops_in_range.
    + intros n line Hin%enumerate_range. lia.
    + cbn. lia.
    + constructor.
  - unfold PerformanceAgent._check_string_concatenation. apply Forall_concat_map.
    intros [n line] Hin%enumerate_range.
    destruct (Regex.search _ line); [|done]. destruct (_ && _); [|done].
    constructor; [|done]. apply points_into_created. lia.
  - unfold PerformanceAgent._check_list_comprehension_opportunities.
    apply Forall_concat_map. intros [n line] Hin%enumerate_range.
    destruct (_ && _); [|done]. destruct (_ !! _); [|done].
    destruct (startswith _ _); [|done].
    constructor; [|done]. apply points_into_created. lia.
  - unfold PerformanceAgent._check_inefficient_operations. apply Forall_concat_map.
    intros [n line] Hin%enumerate_range. apply Forall_concat_map. intros [pattern msg] _.
    destruct (Regex.search _ line); [|done].
    constructor; [|done]. apply points_into_created. lia.
Qed.

End LineNumberFacts.

Section SecretsFacts.
Import PyStr Schemas Exceptions BaseAgent SecurityAgent Lines.

Lemma matches_lit_i (p s : string) : lower s = lower p -> Regex.matches (Regex.lit_i p) s.
Proof.
  revert s. induction p as [|c p IH]; intros [|x s] Hlower; try discriminate.
  - constructor.
  - cbn [lower] in Hlower. injection Hlower as Hx Hs.
    change (String x s) with (String x "" ++ s). cbn [Regex.lit_i].
    apply Regex.matches_cat; [|by apply IH].
    apply Regex.matches_chr. unfold chr_eqb. rewrite Hx. apply Ascii.eqb_refl.
Qed.

Lemma matches_star_chars (test : ascii -> bool) (s : string) :
  all_chars test s = true -> Regex.matches (Regex.Star (Regex.Chr test)) s.
Proof.
  unfold all_chars. induction s as [|c s IH]; cbn [list_ascii_of_string forallb].
  - intros _. constructor.
  - intros [Hc Hs]%andb_true_iff. change (String c s) with (String c "" ++ s).
    apply Regex.matches_star_app; [by apply Regex.matches_chr|by apply IH].
Qed.

Lemma matches_plus_chars (test : ascii -> bool) (s : string) :
  s <> "" -> all_chars test s = true -> Regex.matches (Regex.plus (Regex.Chr test)) s.
Proof.
  destruct s as [|c s]; [done|]. intros _. unfold all_chars.
  cbn [list_ascii_of_string forallb]. intros [Hc Hs]%andb_true_iff.
  change (String c s) with (String c "" ++ s).
  apply Regex.matches_cat; [by apply Regex.matches_chr|by apply matches_star_chars].
Qed.

(** A name, an equals sign and a quoted text, with any white space
    around the sign, is what a secret pattern matches. *)
Lemma secret_pattern_matches (name written gap1 gap2 value : string) (q1 q2 : ascii) :
  lower written = lower name ->
  all_chars is_space gap1 = true -> all_chars is_space gap2 = true ->
  is_quote q1 = true -> is_quote q2 = true ->
  value <> "" -> all_chars (fun c => negb (is_quote c)) value = true ->
  Regex.matches (secret_pattern name)
    (written ++ gap1 ++ "=" ++ gap2 ++ String q1 "" ++ value ++ String q2 "" ++ "").
Proof.
  intros Hname Hgap1 Hgap2 Hq1 Hq2 Hne Hvalue. unfold secret_pattern. cbn [Regex.cats].
  apply Regex.matches_cat; [by apply matches_lit_i|].
  apply Regex.matches_cat; [by apply matches_star_chars|].
  apply Regex.matches_cat; [by apply Regex.matches_chr|].
  apply Regex.matches_cat; [by apply matches_star_chars|].
  apply Regex.matches_cat; [by apply Regex.matches_chr|].
  apply Regex.matches_cat; [by apply matches_plus_chars|].
  apply Regex.matches_cat; [by apply Regex.matches_chr|constructor].
Qed.

(** X25. What [_check_hardcoded_secrets] finds for certain.  A line
    that holds one of the names [password], [api_key], [secret], [token] in
    any letter case, then an equals sign with any white space around it,
    then a quotation mark, a text of one character or more without
    quotation marks, and a quotation mark, gets the issue of that name:
    CRITICAL, of type [hardcoded_secret], with the number of the line.
    What comes before the name and after the second mark does not matter,
    and the two marks need not be the same. *)
Theorem hardcoded_secret_is_found
    (code file_path name message before written gap1 gap2 value rest : string)
    (q1 q2 : ascii) (n : nat) :
  In (name, message) secret_patterns ->
  lower written = lower name ->
  all_chars is_space gap1 = true -> all_chars is_space gap2 = true ->
  is_quote q1 = true -> is_quote q2 = true ->
  value <> "" -> all_chars (fun c => negb (is_quote c)) value = true ->
  split newline code !! n
    = Some (before ++ written ++ gap1 ++ "=" ++ gap2 ++ String q1 "" ++ value
              ++ String q2 "" ++ rest) ->
  exists issue,
    In issue (_check_hardcoded_secrets code file_path) /\
    severity issue = CRITICAL /\
    issue_type issue = "hardcoded_secret" /\
    Schemas.message issue = message /\
    line_number issue = Some (Z.of_nat (S n)).
Proof.
  intros Hpattern Hname Hgap1 Hgap2 Hq1 Hq2 Hne Hvalue Hline.
  set (line := before ++ written ++ gap1 ++ "=" ++ gap2 ++ String q1 "" ++ value
                 ++ String q2 "" ++ rest) in *.
  assert (Hsearch : Regex.search (secret_pattern name) line = true).
  { apply search_matches.
    exists before,
      (written ++ gap1 ++ "=" ++ gap2 ++ String q1 "" ++ value ++ String q2 "" ++ ""), rest.
    split; [|by apply secret_pattern_matches].
    unfold line. by rewrite !append_assoc. }
  eexists. split.
  - unfold _check_hardcoded_secrets. apply in_concat. eexists. split.
    + apply in_map_iff. exists (S n, line). split; [reflexivity|].
      apply enumerate_in. split; [lia|]. by rewrite Nat.sub_1_r.
    + apply in_concat. eexists. split.
      * apply in_map_iff. exists (name, message). split; [reflexivity|exact Hpattern].
      * rewrite Hsearch. by left.
  - done.
Qed.

Lemma hardcoded_secret_is_found_witness :
  In ("password", "Hardcoded password detected") secret_patterns /\
  lower "PASSWORD" = lower "password" /\
  split newline MoreExamples.secret_code !! 1%nat = Some MoreExamples.secret_line /\
  exists issue,
    In issue (_check_hardcoded_secrets MoreExamples.secret_code "settings.py") /\
    severity issue = CRITICAL /\
    issue_type issue = "hardcoded_secret" /\
    Schemas.message issue = "Hardcoded password detected" /\
    line_number issue = Some 2.
Proof.
  assert (Hpattern : In ("password", "Hardcoded password detected") secret_patterns)
    by (left; reflexivity).
  assert (Hline : split newline MoreExamples.secret_code !! 1%nat
                  = Some MoreExamples.secret_line) by (vm_compute; reflexivity).
  split; [exact Hpattern|]. split; [reflexivity|]. split; [exact Hline|].
  exact (hardcoded_secret_is_found MoreExamples.secret_code "settings.py"
           "password" "Hardcoded password detected" "DB_" "PASSWORD" "  " " " "hunter2"
           " # fixme" squote dquote 1 Hpattern eq_refl eq_refl eq_refl eq_refl eq_refl
           ltac:(discriminate) eq_refl Hline).
Defined.

End SecretsFacts.

(** ** The tool wrappers: temporary file and flake8 lines *)

Section TempFileFacts.
Import PyStr Exceptions StaticAnalysis Statements.

Ltac open_wrapper :=
  unfold run, run_pylint, run_flake8, run_bandit, run_radon, try_except, try_finally,
    with_temp_file, handlers, lift, mbind, mret, stx_bind, stx_ret;
  cbn beta iota zeta.

Ltac walk_wrapper :=
  match goal with
  | |- context [os_unlink ?p ({[?p]} ∪ ?fs)] => rewrite (unlink_created p fs)
  | |- context [match subprocess_run ?env ?argv with _ => _ end] =>
      destruct (subprocess_run env argv) eqn:?
  | |- context [nonempty ?s] => destruct (nonempty s) eqn:?
  | |- context [match json_loads ?env ?s with _ => _ end] =>
      destruct (json_loads env s) eqn:?
  | |- context [match json_get ?d ?k ?v with _ => _ end] =>
      destruct (json_get d k v) eqn:?
  | |- context [match parse_flake8_output ?s with _ => _ end] =>
      destruct (parse_flake8_output s) eqn:?
  | |- context [decide (?a = ?b)] => destruct (decide (a = b))
  end; cbn beta iota zeta.

Lemma created_then_removed (temp_path : string) (fs : gset string) :
  temp_path ∉ fs -> ({[temp_path]} ∪ fs) ∖ {[temp_path]} = fs.
Proof.
  intros Hfresh. apply set_eq. intros x.
  rewrite elem_of_difference, elem_of_union, elem_of_singleton. split.
  - intros [[->|Hx] Hne]; done.
  - intros Hx. split; [by right|]. by intros ->.
Qed.

(** X15. The temporary file of a wrapper.  File and code written: on
    every path, whether the tool ran, timed out or printed what could not
    be read, the file is removed before the wrapper returns, and the files
    are those there were when the name is a new one.  File created and the
    write failed: the wrapper returns its failure dictionary and the file
    stays behind.  No file created: nothing changes on the disk. *)
Theorem wrappers_remove_their_temporary_file
    (t : tool) (env : Env) (code file_path : string) (fs : gset string) :
  (forall temp_path,
     named_temporary_file env = Ok temp_path -> write env code = Ok tt ->
     fst (run t env code file_path fs) = ({[temp_path]} ∪ fs) ∖ {[temp_path]} /\
     (temp_path ∉ fs -> fst (run t env code file_path fs) = fs)) /\
  (forall temp_path e,
     named_temporary_file env = Ok temp_path -> write env code = Raise e ->
     exists d,
       run t env code file_path fs = ({[temp_path]} ∪ fs, Ok d) /\
       is_failure t (if decide (exn_class e = TimeoutExpired) then "Timeout" else str e) d) /\
  (forall e,
     named_temporary_file env = Raise e ->
     exists d,
       run t env code file_path fs = (fs, Ok d) /\
       is_failure t (if decide (exn_class e = TimeoutExpired) then "Timeout" else str e) d).
Proof.
  split; [|split].
  - intros temp_path Htmp Hwrite.
    assert (Hfs : fst (run t env code file_path fs) = ({[temp_path]} ∪ fs) ∖ {[temp_path]}).
    { destruct t; open_wrapper; rewrite Htmp, Hwrite; cbn beta iota zeta;
        repeat walk_wrapper; reflexivity. }
    split; [exact Hfs|]. intros Hfresh. by rewrite Hfs, created_then_removed.
  - intros temp_path e Htmp Hwrite.
    destruct t; open_wrapper; rewrite Htmp, Hwrite; cbn beta iota zeta;
      destruct (decide (exn_class e = TimeoutExpired)); cbn beta iota zeta;
      (eexists; split; [reflexivity|]); by repeat split.
  - intros e Htmp.
    destruct t; open_wrapper; rewrite Htmp; cbn beta iota zeta;
      destruct (decide (exn_class e = TimeoutExpired)); cbn beta iota zeta;
      (eexists; split; [reflexivity|]); by repeat split.
Qed.

Lemma wrappers_remove_their_temporary_file_witness :
  named_temporary_file Examples.env_timeout = Ok "/tmp/tmpab12cd.py" /\
  write Examples.env_timeout "x = 1" = Ok tt /\
("/tmp/tmpab12cd.py" ∉ (∅ : gset string)) /\
  fst (run Radon Examples.env_timeout "x = 1" "t.py" ∅) = ∅.
Proof.
  assert (Hfresh : "/tmp/tmpab12cd.py" ∉ (∅ : gset string)) by apply not_elem_of_empty.
  split; [reflexivity|]. split; [reflexivity|]. split; [exact Hfresh|].
  exact (proj2 (proj1 (wrappers_remove_their_temporary_file Radon Examples.env_timeout
                         "x = 1" "t.py" ∅) "/tmp/tmpab12cd.py" eq_refl eq_refl) Hfresh).
Defined.

End TempFileFacts.

Section Flake8LineFacts.
Import PyStr Exceptions StaticAnalysis.

Lemma contains_head (sep c : ascii) (s : string) :
  contains (String sep "") (String c s) = false -> chr_eqb c sep = false /\
  contains (String sep "") s = false.
Proof.
  cbn [contains String.prefix]. intros [Hhead Hrest]%orb_false_iff. split; [|done].
  unfold chr_eqb. destruct (Ascii.eqb_spec c sep) as [->|]; [|done].
  destruct (ascii_dec sep sep); [|done]. by destruct s.
Qed.

(** A field without the separator, then the separator: the first cut of
    [split] falls after the field. *)
Lemma splitn_field (sep : ascii) (field rest : string) (m : nat) :
  contains (String sep "") field = false ->
  splitn sep (field ++ String sep rest) (S m) = field :: splitn sep rest m.
Proof.
  induction field as [|c field IH]; intros Hfield.
  - rewrite append_nil_l. cbn [splitn]. unfold chr_eqb. by rewrite Ascii.eqb_refl.
  - apply contains_head in Hfield as [Hc Hfield].
    rewrite append_cons. cbn [splitn]. rewrite Hc, IH by done. done.
Qed.



End Flake8LineFacts.

(** ** The documentation agent: the module docstring *)

Section ModuleDocstringFacts.
Import PyStr Schemas Exceptions BaseAgent DocumentationAgent.

(** The test of the loop of [_check_module_docstring]: the line is
    neither blank nor a comment. *)
Lemma first_code_line_none (start : nat) (lines : list string) :
  Forall (fun line => nonempty (strip line) && negb (startswith (strip line) "#") = false)
    lines ->
  first_code_line (enumerate start lines) = 0%nat.
Proof.
  intros Hlines. revert start. induction Hlines as [|line lines Hline _ IH]; intros start.
  - done.
  - cbn [enumerate first_code_line]. by rewrite Hline.
Qed.

Lemma first_code_line_found (start : nat) (before after : list string) (line : string) :
  Forall (fun line => nonempty (strip line) && negb (startswith (strip line) "#") = false)
    before ->
  nonempty (strip line) && negb (startswith (strip line) "#") = true ->
  first_code_line (enumerate start (before ++ line :: after))
    = (start + length before)%nat.
Proof.
  intros Hbefore Hline. revert start.
  induction Hbefore as [|skipped before Hskipped _ IH]; intros start.
  - cbn [app enumerate first_code_line length]. rewrite Hline. lia.
  - cbn [app enumerate first_code_line length]. rewrite Hskipped, IH. lia.
Qed.

Lemma lines_up_to_code (lines : list string) :
  Forall (fun line => nonempty (strip line) && negb (startswith (strip line) "#") = false)
    lines \/
  exists before line after,
    lines = (before ++ line :: after)%list /\
    Forall (fun line => nonempty (strip line) && negb (startswith (strip line) "#") = false)
      before /\
    nonempty (strip line) && negb (startswith (strip line) "#") = true.
Proof.
  induction lines as [|l lines IH]; [by left|].
  destruct (nonempty (strip l) && negb (startswith (strip l) "#")) eqn:Hl.
  - right. by exists [], l, lines.
  - destruct IH as [Hall|(before & line & after & -> & Hbefore & Hline)].
    + left. by constructor.
    + right. exists (l :: before), line, after. split; [done|]. split; [by constructor|done].
Qed.

Lemma skipped_line_starts_no_docstring (line : string) :
  nonempty (strip line) && negb (startswith (strip line) "#") = false ->
  startswith (strip line) triple_dquote || startswith (strip line) triple_squote = false.
Proof.
  destruct (strip line) as [|c s]; [done|]. cbn [nonempty andb].
  intros Hcomment%negb_false_iff. unfold startswith in *. cbn [String.prefix] in Hcomment.
  destruct (ascii_dec "#" c) as [<-|]; [|done]. done.
Qed.

Lemma split_line (line rest : string) :
  contains (String newline "") line = false ->
  split newline (line ++ String newline rest) = line :: split newline rest.
Proof.
  induction line as [|c line IH]; intros Hline.
  - rewrite append_nil_l. cbn [split]. unfold chr_eqb. by rewrite Ascii.eqb_refl.
  - apply contains_head in Hline as [Hc Hline].
    rewrite append_cons. cbn [split]. rewrite Hc, IH by done. done.
Qed.

Lemma split_not_nil (sep : ascii) (s : string) : split sep s <> [].
Proof.
  induction s as [|c s IH]; [done|]. cbn [split].
  destruct (chr_eqb c sep); [done|]. by destruct (split sep s).
Qed.

(** The issue of the check, when its line is one the loop passes over. *)
Lemma module_docstring_of_skipped (code file_path : string) :
  Forall (fun line => nonempty (strip line) && negb (startswith (strip line) "#") = false)
    (split newline code) ->
  _check_module_docstring code file_path
    = [_create_issue LOW "missing_module_docstring" "Module is missing a docstring"
         (Some 1) (Some "Add a module-level docstring describing the module's purpose.")
         None].
Proof.
  intros Hlines. unfold _check_module_docstring.
  rewrite (first_code_line_none 0 _ Hlines).
  destruct (split newline code) as [|first rest] eqn:Hsplit; [by destruct (split_not_nil newline code)|].
  cbn [lookup list_lookup]. apply Forall_cons in Hlines as [Hfirst _].
  by rewrite (skipped_line_starts_no_docstring _ Hfirst).
Qed.

(** X26. [_check_module_docstring] passes over blank lines and comments
    at the head of a file: putting such a line in front of a file changes
    nothing in what the check returns.  A file that has nothing but blank
    lines and comments, the empty file among them, is reported as missing a
    docstring. *)
Theorem module_docstring_check_skips_leading_comments
    (line code file_path : string) :
  contains (String newline "") line = false ->
  nonempty (strip line) && negb (startswith (strip line) "#") = false ->
  _check_module_docstring (line ++ String newline code) file_path
    = _check_module_docstring code file_path /\
  (Forall (fun l => nonempty (strip l) && negb (startswith (strip l) "#") = false)
     (split newline code) ->
   map issue_type (_check_module_docstring code file_path) = ["missing_module_docstring"]).
Proof.
  intros Hline Hskip. split.
  - destruct (lines_up_to_code (split newline code))
      as [Hall|(before & found & after & Hsplit & Hbefore & Hfound)].
    + rewrite (module_docstring_of_skipped code) by done.
      apply module_docstring_of_skipped. rewrite split_line by done. by constructor.
    + unfold _check_module_docstring. rewrite split_line by done. rewrite Hsplit.
      rewrite (first_code_line_found 0 before after found) by done.
      change (line :: before ++ found :: after)%list
        with ((line :: before) ++ found :: after)%list.
      rewrite (first_code_line_found 0 (line :: before) after found)
        by (try constructor; done).
      cbn [length Nat.add]. rewrite lookup_app_r by (cbn [length]; lia).
      rewrite lookup_app_r by lia.
      replace (S (length before) - length (line :: before))%nat with 0%nat
        by (cbn [length]; lia).
      replace (length before - length before)%nat with 0%nat by lia. done.
  - intros Hall. by rewrite module_docstring_of_skipped.
Qed.

Lemma module_docstring_check_skips_leading_comments_witness :
  contains (String newline "") "# coding: utf-8" = false /\
  nonempty (strip "# coding: utf-8") && negb (startswith (strip "# coding: utf-8") "#")
    = false /\
  _check_module_docstring ("# coding: utf-8" ++ String newline "import os") "a.py"
    = _check_module_docstring "import os" "a.py" /\
  (Forall (fun l => nonempty (strip l) && negb (startswith (strip l) "#") = false)
     (split newline "") ->
   map issue_type (_check_module_docstring "" "a.py") = ["missing_module_docstring"]).
Proof.
  split; [reflexivity|]. split; [reflexivity|].
  destruct (module_docstring_check_skips_leading_comments "# coding: utf-8" "import os"
              "a.py" eq_refl eq_refl) as [Hsame _].
  split; [exact Hsame|].
  exact (proj2 (module_docstring_check_skips_leading_comments "# coding: utf-8" ""
                  "a.py" eq_refl eq_refl)).
Defined.

End ModuleDocstringFacts.

(** ** The language model *)

Section LLMFacts.
Import PyStr Exceptions LLM.

Lemma fold_left_filter {A B} (P : A -> bool) (f : A -> B) (l : list A) (acc : list B) :
  fold_left (fun acc x => if P x then (acc ++ [f x])%list else acc) l acc
    = (acc ++ map f (List.filter P l))%list.
Proof.
  revert acc. induction l as [|x l IH]; intros acc; cbn [fold_left List.filter map].
  - by rewrite app_nil_r.
  - rewrite IH. destruct (P x); [|done]. by rewrite <- app_assoc.
Qed.

(** The test of the loop of [_extract_suggestions]. *)
Lemma extract_suggestions_spec (llm_response : string) :
  _extract_suggestions llm_response
    = take 10 (map strip
                 (List.filter
                    (fun line =>
                       existsb (fun keyword => contains keyword (lower line))
                         suggestion_keywords)
                    (split newline llm_response))).
Proof. unfold _extract_suggestions. by rewrite fold_left_filter. Qed.

(** X18. [_extract_suggestions] returns at most ten texts: the first ten
    lines of the response that mention one of the five keywords in any
    letter case, in the order of the response, each stripped of the white
    space around it. *)
Theorem suggestions_are_the_first_ten_keyword_lines (llm_response : string) :
  _extract_suggestions llm_response
    = take 10 (map strip
                 (List.filter
                    (fun line =>
                       existsb (fun keyword => contains keyword (lower line))
                         ["suggest"; "recommend"; "consider"; "should"; "improve"])
                    (split newline llm_response))) /\
  (length (_extract_suggestions llm_response) <= 10)%nat /\
  Forall (fun suggestion => strip suggestion = suggestion)
    (_extract_suggestions llm_response).
Proof.
  split; [apply extract_suggestions_spec|]. split.
  - rewrite extract_suggestions_spec, length_take. lia.
  - rewrite extract_suggestions_spec. apply Forall_take, Forall_forall.
    intros s [line [<- _]]%list_elem_of_In%in_map_iff. apply strip_idempotent.
Qed.

(** X19. [analyze_code] always answers with a dictionary that has
    [success] and a list of at most ten [suggestions]; when [success] is
    false the list is empty and [error] holds a text.  Without LangChain,
    with a provider that is neither ["ollama"] nor ["openai"] in any letter
    case, or with ["openai"] and no API key, the answer is
    ["LLM not initialized"].  When the model raises, the answer carries the
    text of the exception. *)
Theorem analyze_code_always_answers
    (env : Env) (settings : Settings) (code file_path : string) (context : option string) :
  let self := init env settings in
  let answer := analyze_code self code file_path context in
  (exists (b : bool) (suggestions : list json),
     answer !! "success" = Some (JBool b) /\
     answer !! "suggestions" = Some (JList suggestions) /\
     (length suggestions <= 10)%nat /\
     (b = false -> suggestions = [] /\ exists msg, answer !! "error" = Some (JStr msg))) /\
  (LANGCHAIN_AVAILABLE env = false \/
   (lower (llm_provider settings) <> "ollama" /\ lower (llm_provider settings) <> "openai") \/
   (lower (llm_provider settings) = "openai" /\
    (openai_api_key settings = None \/ openai_api_key settings = Some "")) ->
   llm self = None /\ answer !! "error" = Some (JStr "LLM not initialized")) /\
  (forall model e,
     llm self = Some model ->
     complete model (_build_prompt code file_path context) = Raise e ->
     answer !! "success" = Some (JBool false) /\
     answer !! "error" = Some (JStr (str e))).
Proof.
  cbn zeta. split; [|split].
  - unfold analyze_code. destruct (llm (init env settings)) as [model|].
    + unfold mbind, result_bind.
      destruct (complete model _) as [text|e].
      * exists true, (JStr <$> _extract_suggestions text).
        split; [done|]. split; [done|]. split; [|done].
        rewrite length_fmap, extract_suggestions_spec, length_take. lia.
      * exists false, []. split; [done|]. split; [done|]. split; [cbn; lia|].
        intros _. split; [done|]. by eexists.
    + exists false, []. split; [done|]. split; [done|]. split; [cbn; lia|].
      intros _. split; [done|]. by eexists.
  - intros Hcase.
    assert (Hnone : llm (init env settings) = None).
    { cbn [init llm]. unfold _initialize_llm.
      destruct (LANGCHAIN_AVAILABLE env); [|done]. cbn [negb].
      destruct Hcase as [Hcase|[[Ho Hp]|[Hp Hkey]]]; [done| |].
      - apply String.eqb_neq in Ho, Hp. by rewrite Ho, Hp.
      - rewrite Hp. cbn. by destruct Hkey as [->| ->]. }
    split; [exact Hnone|]. unfold analyze_code. by rewrite Hnone.
  - intros model e Hmodel Hraise. unfold analyze_code. rewrite Hmodel.
    unfold mbind, result_bind. by rewrite Hraise.
Qed.

Lemma analyze_code_always_answers_witness :
  llm (init MoreExamples.env_llm MoreExamples.settings_llm) = Some MoreExamples.model_down /\
  complete MoreExamples.model_down (_build_prompt "x = 1" "t.py" None)
    = Raise (mkExn OSError "Connection refused") /\
  analyze_code (init MoreExamples.env_llm MoreExamples.settings_llm) "x = 1" "t.py" None
    !! "success" = Some (JBool false) /\
  analyze_code (init MoreExamples.env_llm MoreExamples.settings_llm) "x = 1" "t.py" None
    !! "error" = Some (JStr "Connection refused").
Proof.
  split; [reflexivity|]. split; [reflexivity|].
  exact (proj2 (proj2 (analyze_code_always_answers MoreExamples.env_llm
                         MoreExamples.settings_llm "x = 1" "t.py" None))
           MoreExamples.model_down (mkExn OSError "Connection refused") eq_refl eq_refl).
Defined.

End LLMFacts.

(** ** The GitHub integration *)

Section WalkProperties.
Import PyStr Exceptions GitHub Walks.

Variable fetch : string -> result string.

(** Induction on the tree of a repository. *)
Lemma item_tree_ind (P : item -> Prop) :
  (forall type name path size e, P (Item type name path size (Raise e))) ->
  (forall type name path size below,
     Forall P below -> P (Item type name path size (Ok below))) ->
  forall it, P it.
Proof.
  intros Hraise Hok. fix IH 1. intros [type name path size [below|e]].
  - apply Hok.
    exact ((fix go (l : list item) : Forall P l :=
              match l with
              | [] => @List.Forall_nil _ P
              | x :: l' => @List.Forall_cons _ P x l' (IH x) (go l')
              end) below).
  - apply Hraise.
Qed.

Lemma fetch_item_app (found : list Reviews.FileInfo) (path : string) (size : Z) :
  fetch_item fetch found path size = (found ++ fetch_item fetch [] path size)%list.
Proof. unfold fetch_item. destruct (fetch path); [done|]. by rewrite app_nil_r. Qed.

Lemma fold_left_app_acc {A B} (f : list B -> A -> list B) (l : list A) (acc : list B) :
  Forall (fun x => forall acc, f acc x = (acc ++ f [] x)%list) l ->
  fold_left f l acc = (acc ++ concat (map (f []) l))%list.
Proof.
  intros Hl. revert acc. induction Hl as [|x l Hx _ IH]; intros acc; cbn.
  - by rewrite app_nil_r.
  - rewrite IH, Hx, <- app_assoc. done.
Qed.

Lemma walk_item_app (it : item) (found : list Reviews.FileInfo) :
  walk_item fetch found it = (found ++ walk_item fetch [] it)%list.
Proof.
  revert found. induction it as [type name path size e|type name path size below IH]
    using item_tree_ind; intros found; cbn [walk_item].
  - repeat match goal with |- context [if ?b then _ else _] => destruct b end;
      rewrite ?app_nil_r; try done. apply fetch_item_app.
  - repeat match goal with |- context [if ?b then _ else _] => destruct b end;
      rewrite ?app_nil_r; try done; [apply fetch_item_app|].
    rewrite (fold_left_app_acc _ _ found IH), (fold_left_app_acc _ _ [] IH). done.
Qed.

Lemma walk_items (items : list item) (found : list Reviews.FileInfo) :
  fold_left (walk_item fetch) items found
    = (found ++ concat (map (walk_item fetch []) items))%list.
Proof. apply fold_left_app_acc, Forall_forall. intros it _ acc. apply walk_item_app. Qed.

Lemma entered_no_python_file (it : item) : entered it = true -> python_file it = false.
Proof.
  unfold entered, python_file.
  intros [[Htype%String.eqb_eq _]%andb_true_iff _]%andb_true_iff. by rewrite Htype.
Qed.

(** What the walk adds for one entry. *)
Lemma walk_item_cases (it : item) :
  walk_item fetch [] it
    = if python_file it then fetch_item fetch [] (item_path it) (item_size it)
      else if entered it then
        match item_listing it with
        | Ok below => concat (map (walk_item fetch []) below)
        | Raise _ => []
        end
      else [].
Proof.
  destruct it as [type name path size listing]. unfold python_file, entered.
  cbn [walk_item item_type item_name item_path item_size item_listing].
  destruct (String.eqb type "file" && endswith name ".py"); [done|].
  destruct (String.eqb type "dir"); [|done]. cbn [andb].
  destruct (negb _ && negb _); [|done].
  destruct listing as [below|e]; [|done]. by rewrite walk_items.
Qed.

Lemma visible_mono (l1 l2 : list item) (it : item) :
  (forall x, In x l1 -> In x l2) -> visible l1 it -> visible l2 it.
Proof.
  intros Hsub Hvis. destruct Hvis as [items it Hin|items below dir it Hin He Hl Hb].
  - apply visible_here. by apply Hsub.
  - eapply visible_below; eauto.
Qed.

Lemma visible_one (items : list item) (it : item) :
  visible items it -> exists top, In top items /\ visible [top] it.
Proof.
  intros Hvis. destruct Hvis as [items it Hin|items below dir it Hin He Hl Hb].
  - exists it. split; [done|]. apply visible_here. by left.
  - exists dir. split; [done|]. eapply visible_below; eauto. by left.
Qed.

Lemma visible_single (it it' : item) :
  visible [it] it' ->
  it' = it \/
  (entered it = true /\ exists below, item_listing it = Ok below /\ visible below it').
Proof.
  intros Hvis. inversion Hvis as [items x Hin|items below dir x Hin He Hl Hb]; subst.
  - left. by destruct Hin as [<-|[]].
  - right. destruct Hin as [<-|[]]. eauto.
Qed.

Lemma walk_item_visible (it : item) (f : Reviews.FileInfo) :
  In f (walk_item fetch [] it) <->
  exists it' content,
    visible [it] it' /\ python_file it' = true /\
    fetch (item_path it') = Ok content /\ f = info_of it' content.
Proof.
  revert f. induction it as [type name path size e|type name path size below IH]
    using item_tree_ind; intros f; rewrite walk_item_cases.
  - set (it := Item type name path size (Raise e)).
    destruct (python_file it) eqn:Hpy.
    + unfold fetch_item. split.
      * destruct (fetch (item_path it)) as [content|] eqn:Hfetch; [|done].
        intros [<-|[]]. exists it, content. split; [apply visible_here; by left|done].
      * intros (it' & content & Hvis & Hpy' & Hfetch & ->).
        destruct (visible_single _ _ Hvis) as [->|(He & below & Hl & Hb)].
        -- rewrite Hfetch. by left.
        -- done.
    + split.
      * by destruct (entered it).
      * intros (it' & content & Hvis & Hpy' & Hfetch & ->).
        destruct (visible_single _ _ Hvis) as [->|(He & below & Hl & Hb)]; [congruence|done].
  - set (it := Item type name path size (Ok below)).
    destruct (python_file it) eqn:Hpy.
    + unfold fetch_item. split.
      * destruct (fetch (item_path it)) as [content|] eqn:Hfetch; [|done].
        intros [<-|[]]. exists it, content. split; [apply visible_here; by left|done].
      * intros (it' & content & Hvis & Hpy' & Hfetch & ->).
        destruct (visible_single _ _ Hvis) as [->|(He & below' & Hl & Hb)].
        -- rewrite Hfetch. by left.
        -- apply entered_no_python_file in He. congruence.
    + destruct (entered it) eqn:Hen; cbn [item_listing it].
      * rewrite in_concat. split.
        -- intros (l & [b [<- Hb]]%in_map_iff & Hf).
           rewrite Forall_forall in IH. apply (IH b) in Hf; [|by apply list_elem_of_In].
           destruct Hf as (it' & content & Hvis & Hrest).
           exists it', content. split; [|done].
           eapply (visible_below [it] below it); [by left|done|done|].
           eapply visible_mono; [|exact Hvis]. by intros x [<-|[]].
        -- intros (it' & content & Hvis & Hpy' & Hfetch & ->).
           destruct (visible_single _ _ Hvis) as [->|(He & below' & Hl & Hb)]; [congruence|].
           cbn in Hl. injection Hl as <-.
           destruct (visible_one _ _ Hb) as (top & Htop & Hvtop).
           exists (walk_item fetch [] top). split; [by apply in_map|].
           rewrite Forall_forall in IH. apply IH; [by apply list_elem_of_In|].
           by exists it', content.
      * split; [done|].
        intros (it' & content & Hvis & Hpy' & Hfetch & ->).
        destruct (visible_single _ _ Hvis) as [->|(He & below' & Hl & Hb)]; congruence.
Qed.

(** The files [get_files_recursive] appends to [files]: the Python files
    among the entries it comes to whose content can be fetched. *)
Lemma get_files_recursive_visible (items : list item) (f : Reviews.FileInfo) :
  In f (get_files_recursive fetch (Ok items) []) <->
  exists it content,
    visible items it /\ python_file it = true /\
    fetch (item_path it) = Ok content /\ f = info_of it content.
Proof.
  unfold get_files_recursive. rewrite walk_items. cbn [app]. rewrite in_concat. split.
  - intros (l & [top [<- Htop]]%in_map_iff & Hf).
    apply walk_item_visible in Hf as (it & content & Hvis & Hrest).
    exists it, content. split; [|done].
    eapply visible_mono; [|exact Hvis]. by intros x [<-|[]].
  - intros (it & content & Hvis & Hrest).
    destruct (visible_one _ _ Hvis) as (top & Htop & Hvtop).
    exists (walk_item fetch [] top). split; [by apply in_map|].
    apply walk_item_visible. by exists it, content.
Qed.

End WalkProperties.

Section GitHubFacts.
Import PyStr Exceptions GitHub Walks.

Lemma file_failure_class (repo_url file_path : string) (e : exn) :
  exn_class (file_failure repo_url file_path e) = ValueError.
Proof.
  unfold file_failure. destruct (decide (exn_class e = ValueError)); [done|].
  by repeat match goal with |- context [if ?b then _ else _] => destruct b end.
Qed.

Lemma read_content_not_blank (env : Env) (file_path : string) (file_content : ContentFile)
    (content : string) :
  read_content env file_path file_content = Ok content ->
  nonempty (strip content) = true.
Proof.
  unfold read_content.
  destruct (match decoded_content file_content with Ok _ => _ | Raise _ => _ end)
    as [[text|]|e]; try done.
  destruct (negb (nonempty text) || negb (nonempty (strip text))) eqn:Hblank; [done|].
  intros [= <-]. apply orb_false_iff in Hblank as [_ Hstrip].
  by apply negb_false_iff in Hstrip.
Qed.

(** X20. [get_file_content], once the repository is found, returns a
    text that is not blank or raises a [ValueError]: whatever the client
    and the decoders raise is turned into one.  An exception of the
    client that is no [ValueError] and mentions ["404"] or ["Not Found"]
    becomes the ["File ... not found in repository ..."] text.  Without a
    client the token text is raised; an exception of [get_repository]
    itself goes on as it is. *)
Theorem get_file_content_gives_text_or_value_error
    (env : Env) (self : GitHubIntegration) (repo_url file_path : string)
    (ref : option string) :
  (forall repo,
     get_repository self repo_url = Ok repo ->
     match get_file_content env self repo_url file_path ref with
     | Ok content => nonempty (strip content) = true
     | Raise e => exn_class e = ValueError
     end) /\
  (forall repo e,
     get_repository self repo_url = Ok repo ->
     get_contents repo file_path (given_ref ref) = Raise e ->
     exn_class e <> ValueError ->
     contains "404" (str e) || contains "Not Found" (str e) = true ->
     get_file_content env self repo_url file_path ref
       = value_error
           ("File '" ++ file_path ++ "' not found in repository '" ++ repo_url ++ "'. "
              ++ "Please check if the file path is correct. "
              ++ "File path should be relative to repository root (e.g., 'README.md', not '/README.md').")) /\
  (github self = None ->
   get_file_content env self repo_url file_path ref
     = value_error "GitHub token not configured. Please set GITHUB_TOKEN in .env file.") /\
  (forall client e,
     github self = Some client -> get_repository self repo_url = Raise e ->
     get_file_content env self repo_url file_path ref = Raise e).
Proof.
  split; [|split; [|split]].
  - intros repo Hrepo. unfold get_file_content.
    destruct (github self) as [client|] eqn:Hclient.
    2: { unfold get_repository in Hrepo. by rewrite Hclient in Hrepo. }
    rewrite Hrepo. unfold mbind, result_bind.
    destruct (get_contents repo file_path (given_ref ref)) as [answer|e];
      [|apply file_failure_class].
    destruct (match answer with ContentsFile _ => _ | _ => _ end) as [file_content|e];
      [|apply file_failure_class].
    destruct (read_content env file_path file_content) as [content|e] eqn:Hread;
      [|apply file_failure_class].
    by eapply read_content_not_blank.
  - intros repo e Hrepo Hcontents Hclass Hmsg. unfold get_file_content.
    destruct (github self) as [client|] eqn:Hclient.
    2: { unfold get_repository in Hrepo. by rewrite Hclient in Hrepo. }
    rewrite Hrepo. unfold mbind, result_bind. rewrite Hcontents.
    unfold file_failure, value_error. by rewrite decide_False, Hmsg.
  - intros Hnone. unfold get_file_content. by rewrite Hnone.
  - intros client e Hclient Hrepo. unfold get_file_content. by rewrite Hclient, Hrepo.
Qed.

Lemma get_file_content_gives_text_or_value_error_witness :
  get_repository (init (MoreExamples.env_github (Some "token")) None)
    "https://github.com/owner/repo" = Ok MoreExamples.repo0 /\
  get_file_content (MoreExamples.env_github (Some "token"))
    (init (MoreExamples.env_github (Some "token")) None)
    "https://github.com/owner/repo" "a.py" None = Ok "x = compute()" /\
  match get_file_content (MoreExamples.env_github (Some "token"))
          (init (MoreExamples.env_github (Some "token")) None)
          "https://github.com/owner/repo" "missing.py" None with
  | Ok content => nonempty (strip content) = true
  | Raise e => exn_class e = ValueError
  end.
Proof.
  split; [reflexivity|]. split; [reflexivity|].
  exact (proj1 (get_file_content_gives_text_or_value_error
                  (MoreExamples.env_github (Some "token"))
                  (init (MoreExamples.env_github (Some "token")) None)
                  "https://github.com/owner/repo" "missing.py" None)
           MoreExamples.repo0 eq_refl).
Defined.

(** X21. [get_all_python_files], once the repository is found, does not
    raise: a listing that cannot be read ends the walk of that directory
    and no more.  It returns the files it comes to that have type
    ["file"], a name ending in [".py"] and a content that
    [get_file_content] returns, each with its path, content and size, and
    no others; it comes to the entries of the root and of every directory
    it goes into, and goes into a directory unless its name is one of
    [skip_dirs] or starts with a dot. *)
Theorem get_all_python_files_finds_the_visible_files
    (env : Env) (self : GitHubIntegration) (repo_url : string) (ref : option string)
    (repo : Repo) :
  get_repository self repo_url = Ok repo ->
  exists found,
    get_all_python_files env self repo_url ref = Ok found /\
    (forall e, get_listing repo "" (given_ref ref) = Raise e -> found = []) /\
    (forall items,
       get_listing repo "" (given_ref ref) = Ok items ->
       forall f,
         In f found <->
         exists it content,
           visible items it /\ python_file it = true /\
           get_file_content env self repo_url (item_path it) (given_ref ref) = Ok content /\
           f = info_of it content).
Proof.
  intros Hrepo. unfold get_all_python_files.
  destruct (github self) as [client|] eqn:Hclient.
  2: { unfold get_repository in Hrepo. by rewrite Hclient in Hrepo. }
  rewrite Hrepo. cbn. eexists. split; [reflexivity|]. split.
  - by intros e ->.
  - intros items ->. intros f. apply get_files_recursive_visible.
Qed.

Lemma get_all_python_files_finds_the_visible_files_witness :
  get_repository (init (MoreExamples.env_github (Some "token")) None)
    "https://github.com/owner/repo" = Ok MoreExamples.repo0 /\
  get_all_python_files (MoreExamples.env_github (Some "token"))
    (init (MoreExamples.env_github (Some "token")) None)
    "https://github.com/owner/repo" None
    = Ok [Reviews.mkFileInfo "a.py" "x = compute()" 13;
          Reviews.mkFileInfo "src/b.py" "import os" 9] /\
  exists found,
    get_all_python_files (MoreExamples.env_github (Some "token"))
      (init (MoreExamples.env_github (Some "token")) None)
      "https://github.com/owner/repo" None = Ok found /\
    (forall e, get_listing MoreExamples.repo0 "" (given_ref None) = Raise e -> found = []).
Proof.
  split; [reflexivity|]. split; [reflexivity|].
  destruct (get_all_python_files_finds_the_visible_files
              (MoreExamples.env_github (Some "token"))
              (init (MoreExamples.env_github (Some "token")) None)
              "https://github.com/owner/repo" None MoreExamples.repo0 eq_refl)
    as (found & Hfound & Hraise & _).
  exists found. split; [exact Hfound | exact Hraise].
Defined.

End GitHubFacts.

Section DirectoryFacts.
Import PyStr Exceptions GitHub Walks.

Lemma directory_item_app (fetch : string -> result string) (repo_url : string)
    (it : item) (found : list Reviews.FileInfo) :
  directory_item fetch repo_url found it
    = (found ++ directory_item fetch repo_url [] it)%list.
Proof.
  destruct it as [type name path size listing]. cbn [directory_item].
  destruct (String.eqb type "file" && endswith name ".py"); [apply fetch_item_app|].
  destruct (String.eqb type "dir"); [|by rewrite app_nil_r].
  destruct (in_directory _ _ _ _); [done|by rewrite app_nil_r].
Qed.

Lemma directory_items (fetch : string -> result string) (repo_url : string)
    (items : list item) (found : list Reviews.FileInfo) :
  fold_left (directory_item fetch repo_url) items found
    = (found ++ concat (map (directory_item fetch repo_url []) items))%list.
Proof. apply fold_left_app_acc, Forall_forall. intros it _ acc. apply directory_item_app. Qed.

Lemma sublist_concat_map {A B} (f g : A -> list B) (l : list A) :
  Forall (fun x => sublist (f x) (g x)) l ->
  sublist (concat (map f l)) (concat (map g l)).
Proof. induction 1 as [|x l Hx _ IH]; cbn; [done|]. by apply sublist_app. Qed.

(** What the walk of the whole repository adds for an entry is among what
    the walk of a directory adds for it, in the same order. *)
Lemma walk_item_sublist (fetch : string -> result string) (repo_url : string) (it : item) :
  sublist (walk_item fetch [] it) (directory_item fetch repo_url [] it).
Proof.
  induction it as [type name path size e|type name path size below IH]
    using item_tree_ind; cbn [walk_item directory_item in_directory].
  - repeat match goal with |- context [if ?b then _ else _] => destruct b end;
      try done; apply sublist_nil_l.
  - repeat match goal with |- context [if ?b then _ else _] => destruct b end;
      try done; try apply sublist_nil_l.
    rewrite walk_items, directory_items. cbn [app]. by apply sublist_concat_map.
Qed.

Lemma directory_failure_class (repo_url directory_path : string) (e : exn) :
  exn_class (directory_failure repo_url directory_path e) = ValueError.
Proof. unfold directory_failure. by destruct (_ || _). Qed.



End DirectoryFacts.

Section RepoPathFacts.
Import PyStr Exceptions GitHub.

Lemma remove_all_skip (old a s : string) :
  Reviews.remove_all old (a ++ s) (String.length a) = Reviews.remove_all old s 0.
Proof.
  induction a as [|c a IH]; [done|].
  rewrite append_cons. cbn [String.length Reviews.remove_all]. apply IH.
Qed.

(** [s.replace(old, "")] drops an [old] in front. *)
Lemma remove_all_prefix (c : ascii) (old s : string) :
  Reviews.remove_all (String c old) (String c old ++ s) 0
    = Reviews.remove_all (String c old) s 0.
Proof.
  assert (H : String.prefix (String c old) (String c (old ++ s)) = true).
  { rewrite <- append_cons. apply prefix_append. }
  rewrite append_cons. cbn [Reviews.remove_all]. rewrite H.
  cbn [String.length Nat.sub]. rewrite ?Nat.sub_0_r. apply remove_all_skip.
Qed.

(** It leaves a text without [old] as it is. *)
Lemma remove_all_absent (old s : string) :
  contains old s = false -> Reviews.remove_all old s 0 = s.
Proof.
  induction s as [|c s IH]; [done|].
  cbn [contains]. intros [Hhead Hrest]%orb_false_iff.
  cbn [Reviews.remove_all]. rewrite Hhead, IH by done. done.
Qed.

Lemma contains_trans (a b s : string) :
  contains a b = true -> contains b s = true -> contains a s = true.
Proof.
  intros (x & y & ->)%contains_split (u & v & ->)%contains_split.
  apply contains_split. exists (u ++ x), (y ++ v). by rewrite !append_assoc.
Qed.

Lemma contains_absent (a b s : string) :
  contains a b = true -> contains a s = false -> contains b s = false.
Proof.
  intros Hab Has. destruct (contains b s) eqn:Hbs; [|done].
  by rewrite (contains_trans a b s Hab Hbs) in Has.
Qed.

(** X23. The path [get_repository] asks the client for.  A URL without
    ["github.com"] is passed on as it is.  For ["https://github.com/"]
    followed by a text that does not mention ["github.com"] again, the
    text is cut at its slashes: with fewer than two parts the URL is
    refused with a [ValueError]; otherwise the path is the first part, a
    slash and the second part without any [".git"] in it; further parts
    are ignored.  Every [".git"] goes, not only one at the end. *)
Theorem repo_path_reads_owner_and_name (rest : string) :
  contains "github.com" rest = false ->
  repo_path ("https://github.com/" ++ rest)
    = match split "/" rest with
      | owner :: repo :: _ => Ok (owner ++ "/" ++ Reviews.remove_all ".git" repo 0)
      | _ => value_error ("Invalid GitHub URL: " ++ "https://github.com/" ++ rest)
      end /\
  repo_path rest = Ok rest.
Proof.
  intros Hrest. split.
  - unfold repo_path.
    assert (Hhost : contains "github.com" ("https://github.com/" ++ rest) = true).
    { apply contains_split. by exists "https://", ("/" ++ rest). }
    rewrite Hhost, remove_all_prefix.
    rewrite (remove_all_absent "https://github.com/" rest)
      by (by apply (contains_absent "github.com")).
    rewrite (remove_all_absent "http://github.com/" rest)
      by (by apply (contains_absent "github.com")).
    done.
  - unfold repo_path. by rewrite Hrest.
Qed.

Lemma repo_path_reads_owner_and_name_witness :
  contains "github.com" "user/user.github.io/tree/main" = false /\
  repo_path "https://github.com/user/user.github.io/tree/main" = Ok "user/userhub.io" /\
  repo_path "user/user.github.io/tree/main" = Ok "user/user.github.io/tree/main".
Proof.
  split; [reflexivity|].
  exact (repo_path_reads_owner_and_name "user/user.github.io/tree/main" eq_refl).
Defined.

End RepoPathFacts.

Section NoTokenFacts.
Import PyStr Schemas Exceptions Database Reviews GitHub.

Lemma init_without_token (env : Env) :
  truthy (settings_github_token env) = false -> github (init env None) = None.
Proof.
  unfold init. cbn [truthy]. destruct (settings_github_token env) as [text|]; [|done].
  cbn [truthy]. by intros ->.
Qed.

Lemma nonempty_strip (s : string) : nonempty (strip s) = true -> nonempty s = true.
Proof. by destruct s. Qed.

(** X24. Served through [GitHubIntegration()] without a token, a request
    for a hosted repository fails before anything is fetched, and the
    status depends on the kind of request: 404 with the token text for a
    file or a directory, the [ValueError] being caught by the handler of
    that branch; 400 with ["Error fetching code: "] in front for a scan of
    the whole repository and for a commit, where no handler of the branch
    catches it. *)
Theorem no_token_is_answered_by_kind_of_request
    (env : Env) (os_path_exists : string -> bool) (read_file : string -> result string)
    (review_code : reviewer) (request : ReviewRequest) (db : Tables) :
  truthy (settings_github_token env) = false ->
  startswith (repository_url request) "http" = true ->
  (default false (scan_entire_repo request) = true ->
   snd (serve (create_review (sources env os_path_exists read_file) review_code request) db)
     = Raise (mkExn (HTTPException 400)
                "Error fetching code: GitHub token not configured. Please set GITHUB_TOKEN in .env file.")) /\
  (default false (scan_entire_repo request) = false ->
   nonempty (strip (default "" (file_path request))) = true ->
   snd (serve (create_review (sources env os_path_exists read_file) review_code request) db)
     = Raise (mkExn (HTTPException 404)
                "GitHub token not configured. Please set GITHUB_TOKEN in .env file.")) /\
  (default false (scan_entire_repo request) = false ->
   nonempty (default "" (file_path request)) = false ->
   nonempty (strip (default "" (commit_sha request))) = true ->
   snd (serve (create_review (sources env os_path_exists read_file) review_code request) db)
     = Raise (mkExn (HTTPException 400)
                "Error fetching code: GitHub token not configured")).
Proof.
  intros Htoken Hhttp.
  assert (Hurl : nonempty (repository_url request) = true).
  { destruct (repository_url request); [done|done]. }
  pose proof (init_without_token env Htoken) as Hnone.
  destruct (get_or_create_repository_frame (repository_url request) db)
    as (s & repo & Hrepo & Hcommitted & _ & _).
  assert (Hserve : forall r,
            fetch_code (sources env os_path_exists read_file) review_code repo request s
              = (s, Raise r) ->
            snd (serve (create_review (sources env os_path_exists read_file)
                          review_code request) db)
              = Raise (if is_http r then r
                       else mkExn (HTTPException 400) ("Error fetching code: " ++ str r))).
  { intros r Hfetch. unfold serve, create_review, try_except, mbind, stx_bind.
    rewrite Hrepo, Hfetch. destruct (is_http r) eqn:Hr.
    - by rewrite Hr.
    - done. }
  split; [|split].
  - intros Hscan.
    rewrite (Hserve (mkExn ValueError
               "GitHub token not configured. Please set GITHUB_TOKEN in .env file."));
      [reflexivity|].
    unfold fetch_code. rewrite Hhttp, Hurl, andb_false_r, Hscan. cbn [andb negb].
    unfold mbind, stx_bind, lift. cbn [Reviews.get_all_python_files sources].
    unfold get_all_python_files. by rewrite Hnone.
  - intros Hscan Hpath. pose proof (nonempty_strip _ Hpath) as Hgiven.
    rewrite (Hserve (mkExn (HTTPException 404)
               "GitHub token not configured. Please set GITHUB_TOKEN in .env file."));
      [reflexivity|].
    unfold fetch_code. rewrite Hhttp, Hurl, andb_false_r, Hscan, Hgiven, Hpath.
    cbn [andb negb].
    destruct (negb (endswith _ ".py")); unfold try_except, mbind, stx_bind, lift;
      cbn [Reviews.get_python_files_in_directory Reviews.get_file_content sources];
      unfold get_python_files_in_directory, get_file_content; by rewrite Hnone.
  - intros Hscan Hpath Hsha. pose proof (nonempty_strip _ Hsha) as Hgiven.
    rewrite (Hserve (mkExn ValueError "GitHub token not configured")); [reflexivity|].
    unfold fetch_code. rewrite Hhttp, Hurl, Hscan, Hpath. cbn [andb negb].
    destruct (commit_sha request) as [sha|]; [|done]. cbn [default from_option id] in *.
    rewrite Hgiven, Hsha. cbn [andb].
    unfold mbind, stx_bind, lift. cbn [Reviews.get_commit_files sources].
    unfold get_commit_files, get_repository. by rewrite Hnone.
Qed.

Lemma no_token_is_answered_by_kind_of_request_witness :
  truthy (settings_github_token (MoreExamples.env_github None)) = false /\
  startswith (repository_url MoreExamples.file_request) "http" = true /\
  default false (scan_entire_repo MoreExamples.file_request) = false /\
  nonempty (strip (default "" (file_path MoreExamples.file_request))) = true /\
  snd (serve (create_review
                (sources (MoreExamples.env_github None) (fun _ => false)
                   (fun _ => Raise (mkExn OSError "[Errno 2] No such file or directory")))
                (Orchestrator.review_code (Orchestrator.new Examples.world0))
                MoreExamples.file_request) Examples.empty_db)
    = Raise (mkExn (HTTPException 404)
               "GitHub token not configured. Please set GITHUB_TOKEN in .env file.").
Proof.
  split; [reflexivity|]. split; [reflexivity|]. split; [reflexivity|].
  split; [reflexivity|].
  exact (proj1 (proj2 (no_token_is_answered_by_kind_of_request
                         (MoreExamples.env_github None) (fun _ => false)
                         (fun _ => Raise (mkExn OSError "[Errno 2] No such file or directory"))
                         (Orchestrator.review_code (Orchestrator.new Examples.world0))
                         MoreExamples.file_request Examples.empty_db eq_refl eq_refl))
           eq_refl eq_refl).
Defined.

End NoTokenFacts.
